(** * BicycleDataProcessor: a shallow embedding of the signal pipeline

    The development follows [bicycledataprocessor/main.py] (the package) and
    [DataProcessor.py] (the older single-file script, which still holds the
    signal-processing helpers [truncate_data], [sync_error],
    [split_around_nan], [find_bump] and [find_timeshift]).

    Numbers.  A float64 array entry is modelled as a [sample]: either a real
    number or [NaN].  Rounding and infinities are not modelled; arithmetic on
    samples is the real arithmetic, with [NaN] absorbing.  Python scalars
    that are never [NaN] in a well-formed run (sample rates, time stamps of a
    time vector, the time shift [tau], conversion factors) are plain
    reals.

    Exceptions.  Python exceptions are the [Raise] results of the [result]
    monad. *)

From Stdlib Require Import Reals Lra Lia ZArith Sorted.
From stdpp Require Import base option list strings gmap.

#[local] Open Scope R_scope.

(** ** Exceptions and results *)

Inductive exn : Type :=
| KeyError | ValueError | IndexError | NameError | AttributeError | TypeError
| StandardError | Warning | TimeShiftError.

Inductive result (A : Type) : Type :=
| Ok (a : A)
| Raise (e : exn).
Arguments Ok {A} a.
Arguments Raise {A} e.

#[global] Instance result_ret : MRet result := fun A a => Ok a.
#[global] Instance result_bind : MBind result :=
  fun A B f m => match m with Ok a => f a | Raise e => Raise e end.
#[global] Instance result_fmap : FMap result :=
  fun A B f m => match m with Ok a => Ok (f a) | Raise e => Raise e end.

Definition of_option {A} (e : exn) (o : option A) : result A :=
  match o with Some a => Ok a | None => Raise e end.

(** ** Samples *)

Inductive sample : Type :=
| NaN
| Fin (x : R).

Definition isnan (a : sample) : bool :=
  match a with NaN => true | Fin _ => false end.

Definition lift1 (f : R -> R) (a : sample) : sample :=
  match a with Fin x => Fin (f x) | NaN => NaN end.

Definition lift2 (f : R -> R -> R) (a b : sample) : sample :=
  match a, b with Fin x, Fin y => Fin (f x y) | _, _ => NaN end.

#[global] Instance Rlt_decision (x y : R) : Decision (x < y) := Rlt_dec x y.
#[global] Instance Rle_decision (x y : R) : Decision (x <= y) := Rle_dec x y.
#[global] Instance Rgt_decision (x y : R) : Decision (x > y) := Rlt_dec y x.
#[global] Instance Rge_decision (x y : R) : Decision (x >= y) := Rge_dec x y.
#[global] Instance R_eq_decision : EqDecision R := Req_dec_T.

Definition sadd : sample -> sample -> sample := lift2 Rplus.
Definition ssub : sample -> sample -> sample := lift2 Rminus.
Definition smul : sample -> sample -> sample := lift2 Rmult.
(** Division by zero has no finite value; [sample] has no infinities and
    [sdiv] gives [NaN] there, where numpy gives an infinity unless the
    numerator is zero or NaN.  The properties below that divide keep to
    divisors that are not zero; [quotient] below keeps the infinities. *)
Definition sdiv (a b : sample) : sample :=
  match a, b with
  | Fin x, Fin y => if decide (y = 0) then NaN else Fin (x / y)
  | _, _ => NaN
  end.
Definition sneg : sample -> sample := lift1 Ropp.
Definition ssqrt (a : sample) : sample :=
  match a with
  | Fin x => if decide (x < 0) then NaN else Fin (sqrt x)
  | NaN => NaN
  end.
(** Comparisons with [NaN] are false. *)
Definition sgtb (a b : sample) : bool :=
  match a, b with Fin x, Fin y => bool_decide (x > y) | _, _ => false end.

Declare Scope sample_scope.
Delimit Scope sample_scope with S.
Bind Scope sample_scope with sample.
Infix "+" := sadd : sample_scope.
Infix "-" := ssub : sample_scope.
Infix "*" := smul : sample_scope.
Infix "/" := sdiv : sample_scope.
Notation "- a" := (sneg a) : sample_scope.

(** Binary operations on one-dimensional arrays, with numpy's broadcasting:
    equal lengths combine entry by entry, a length-one array is stretched,
    anything else is a [ValueError]. *)
Definition broadcast2 (f : sample -> sample -> sample)
    (a b : list sample) : result (list sample) :=
  if decide (length a = length b) then Ok (zip_with f a b)
  else match a, b with
       | [x], _ => Ok (f x <$> b)
       | _, [y] => Ok ((fun x => f x y) <$> a)
       | _, _ => Raise ValueError
       end.

(** ** Calibration store ([Sensor]) *)

(** A row of the calibration table.  [timeStamp] is the datetime that
    [matlab_date_to_object] parses from the stored string, counted in
    seconds. *)
Record CalibrationRow : Type := {
  calibrationID : string;
  cal_name : string;
  cal_signal : string;
  cal_units : string;
  timeStamp : Z;
  slope : sample;
  bias : sample;
  offset : sample;
  calibrationSupplyVoltage : sample;
  runSupplyVoltage : sample;
  runSupplyVoltageSource : string
}.

(** [Sensor.data]: the dictionary from calibration id to row. *)
Record Sensor : Type := {
  sensor_name : string;
  data : gmap string CalibrationRow
}.

(** [Sensor._store_calibration_data]. *)
Definition store_calibration_data (name : string)
    (calibrationTable : list CalibrationRow) : result Sensor :=
  let d := foldl (fun (d : gmap string CalibrationRow) row =>
                    if decide (name = cal_name row)
                    then <[calibrationID row := row]> d else d)
                 ∅ calibrationTable in
  if decide (d = ∅) then Raise KeyError
  else Ok {| sensor_name := name; data := d |}.

(** [list.sort(key=lambda x: x[1], reverse=True)]: a stable sort, most
    recent date first; equal dates keep their original order. *)
Fixpoint insert_reverse (p : string * Z) (l : list (string * Z))
    : list (string * Z) :=
  match l with
  | [] => [p]
  | q :: l' => if (q.2 <=? p.2)%Z then p :: q :: l'
               else q :: insert_reverse p l'
  end.

Fixpoint sort_reverse (l : list (string * Z)) : list (string * Z) :=
  match l with
  | [] => []
  | p :: l' => insert_reverse p (sort_reverse l')
  end.

(** The order that the sort establishes: no later date after an earlier
    one. *)
Definition date_desc (p q : string * Z) : Prop := (q.2 <= p.2)%Z.

(** The loop [for i, pair in enumerate(dateIdPairs): if runDate >= pair[1]:
    break], returning the value of [i] after the loop ([None] when the loop
    body never ran, so that [i] is unbound). *)
Fixpoint enumerate_break (runDate : Z) (l : list (string * Z))
    (i : nat) (last : option nat) : option nat :=
  match l with
  | [] => last
  | pr :: l' => if (pr.2 <=? runDate)%Z then Some i
                  else enumerate_break runDate l' (S i) (Some i)
  end.

(** [Sensor.get_data_for_date].  [self.data.iteritems()] lists the
    dictionary in an order of its own, for which [map_to_list] stands. *)
Definition get_data_for_date (s : Sensor) (runDate : Z)
    : result CalibrationRow :=
  let dateIdPairs :=
    sort_reverse ((fun kv : string * CalibrationRow => (kv.1, timeStamp kv.2))
                    <$> map_to_list (data s)) in
  i ← of_option NameError (enumerate_break runDate dateIdPairs 0 None);
  pr ← of_option IndexError (dateIdPairs !! i);
  of_option KeyError (data s !! pr.1).

(** Three calibration sessions of one sensor, at 10 < 20 < 30. *)
Definition calibration_at (id : string) (t : Z) : CalibrationRow :=
  {| calibrationID := id; cal_name := "SteerPotentiometer";
     cal_signal := "SteerAngle"; cal_units := "degree";
     timeStamp := t; slope := Fin 2; bias := Fin 1; offset := Fin 0;
     calibrationSupplyVoltage := Fin 5; runSupplyVoltage := Fin 5;
     runSupplyVoltageSource := "na" |}.

Definition three_calibrations : Sensor :=
  {| sensor_name := "SteerPotentiometer";
     data := {[ "00001" := calibration_at "00001" 10;
                "00002" := calibration_at "00002" 20;
                "00003" := calibration_at "00003" 30 ]} |}.

(** ** Signals *)

(** [Signal]: an array with its metadata.  [name], [source] and [units] are
    [None] after plain arithmetic ([__array_wrap__]). *)
Record Signal : Type := {
  samples : list sample;
  name : option string;
  runid : string;
  sampleRate : R;
  source : option string;
  units : option string
}.

Definition with_samples (s : Signal) (l : list sample) : Signal :=
  {| samples := l; name := name s; runid := runid s;
     sampleRate := sampleRate s; source := source s; units := units s |}.

Definition with_units (s : Signal) (u : option string) : Signal :=
  {| samples := samples s; name := name s; runid := runid s;
     sampleRate := sampleRate s; source := source s; units := u |}.

(** The result of a ufunc on a signal: [__array_wrap__] drops name, source
    and units. *)
Definition array_wrap (s : Signal) (l : list sample) : Signal :=
  {| samples := l; name := None; runid := runid s;
     sampleRate := sampleRate s; source := None; units := None |}.

(** [Signal.conversions]. *)
Definition conversions : gmap string R :=
  list_to_map
    [ ("degree->radian"%string, PI / 180);
      ("degree/second->radian/second"%string, PI / 180);
      ("degree/second/second->radian/second/second"%string, PI / 180);
      ("inch*pound->newton*meter"%string, 25.4 / 1000 * 4.44822162);
      ("pound->newton"%string, 4.44822162);
      ("feet/second->meter/second"%string, 12 * 2.54 / 100);
      ("mile/hour->meter/second"%string, 0.00254 * 12 / 5280 / 3600) ].

Definition conversion_key (from to : string) : string :=
  from +:+ "->" +:+ to.

(** The body of [convert_units] after the equal-units test: the two nested
    [try] blocks.  [str + None] is a [TypeError], which is not caught. *)
Definition convert_samples (s : Signal) (su u : string)
    : result (list sample) :=
  match conversions !! conversion_key su u with
  | Some c => Ok ((fun x => x * Fin c)%S <$> samples s)
  | None =>
      match conversions !! conversion_key u su with
      | Some c => Ok ((fun x => x / Fin c)%S <$> samples s)
      | None => Raise KeyError
      end
  end.

(** [Signal.convert_units] of [bicycledataprocessor/main.py]. *)
Definition convert_units (s : Signal) (u : string) : result Signal :=
  if decide (Some u = units s) then Ok s
  else match units s with
       | None => Raise TypeError
       | Some su =>
           newSig ← convert_samples s su u;
           Ok (with_units (with_samples s newSig) (Some u))
       end.

(** [Signal.convert_units] of [DataProcessor.py]: no test for equal units,
    and the product is not wrapped back into a [Signal] with the metadata
    of [self]. *)
Definition legacy_convert_units (s : Signal) (u : string) : result Signal :=
  match units s with
  | None => Raise TypeError
  | Some su =>
      newSig ← convert_samples s su u;
      Ok (with_units (array_wrap s newSig) (Some u))
  end.

(** A steer-angle signal in degrees, with one corrupt entry. *)
Definition steer_angle_degree : Signal :=
  {| samples := [Fin 0; Fin 90; NaN]; name := Some "SteerAngle";
     runid := "00104"; sampleRate := 200; source := Some "NI";
     units := Some "degree" |}.

Definition steer_angle_radian : Signal :=
  {| samples := [Fin 0; Fin 1; NaN]; name := Some "SteerAngle";
     runid := "00104"; sampleRate := 200; source := Some "NI";
     units := Some "radian" |}.

(** ** Raw signals and the raw-to-physical scaler *)

(** [RawSignal.supply]: the run's supply voltage, a single table entry or a
    measured channel. *)
Inductive Supply : Type :=
| SupplyScalar (v : sample)
| SupplyArray (l : list sample).

Definition supply_map (f : sample -> sample) (v : Supply) : Supply :=
  match v with
  | SupplyScalar y => SupplyScalar (f y)
  | SupplyArray b => SupplyArray (f <$> b)
  end.

(** An array combined with a scalar or with another array. *)
Definition array_op (f : sample -> sample -> sample) (a : list sample)
    (v : Supply) : result (list sample) :=
  match v with
  | SupplyScalar y => Ok ((fun x => f x y) <$> a)
  | SupplyArray b => broadcast2 f a b
  end.

Record RawSignal : Type := {
  signal : Signal;
  calibrationType : option string;
  sensor : option Sensor;
  supply : option Supply;
  raw_timeStamp : Z
}.

Definition doNotScale : list string :=
  ["LeanPotentiometer"; "HipPotentiometer"; "TwistPotentiometer"]%string.

Definition not_scaled (rs : RawSignal) : bool :=
  bool_decide (calibrationType rs ∈ [Some "none"; Some "matrix"]%string)
  || bool_decide (name (signal rs) ∈ Some <$> doNotScale).

(** The metadata of the value [scale] returns. *)
Definition calibrated (rs : RawSignal) (calibData : CalibrationRow)
    (calibratedSignal : list sample) : Signal :=
  {| samples := calibratedSignal;
     name := Some (cal_signal calibData);
     runid := runid (signal rs);
     sampleRate := sampleRate (signal rs);
     source := source (signal rs);
     units := Some (cal_units calibData) |}.

(** [RawSignal.scale] of [bicycledataprocessor/main.py]. *)
Definition scale (rs : RawSignal) : result Signal :=
  if not_scaled rs then Ok (signal rs)
  else
    sen ← of_option AttributeError (sensor rs);
    calibData ← get_data_for_date sen (raw_timeStamp rs);
    let self := samples (signal rs) in
    let slope := slope calibData in
    let bias := bias calibData in
    let intercept := offset calibData in
    let calibrationSupplyVoltage := calibrationSupplyVoltage calibData in
    calibratedSignal ←
      (if decide (calibrationType rs = Some "interceptStar"%string) then
         sup ← of_option AttributeError (supply rs);
         r ← array_op (fun x t => t * x)%S self
               (supply_map (fun v => calibrationSupplyVoltage / v * slope)%S
                           sup);
         Ok ((fun x => x + intercept)%S <$> (r : list sample))
       else if decide (calibrationType rs = Some "intercept"%string) then
         sup ← of_option AttributeError (supply rs);
         array_op (fun x t => t * x)%S
           ((fun x => slope * x + intercept)%S <$> self)
           (supply_map (fun v => calibrationSupplyVoltage / v)%S sup)
       else if decide (calibrationType rs = Some "bias"%string) then
         sup ← of_option AttributeError (supply rs);
         r ← array_op ssub self
               (supply_map (fun v => v / calibrationSupplyVoltage * bias)%S
                           sup);
         Ok ((fun x => slope * x)%S <$> (r : list sample))
       else Raise StandardError);
    Ok (calibrated rs calibData calibratedSignal).

(** [RawSignal.scale] of [DataProcessor.py]: the same but for the bias
    equation, [calibrationSupplyVoltage / supply * slope * (self - bias)]. *)
Definition legacy_scale (rs : RawSignal) : result Signal :=
  if not_scaled rs then Ok (signal rs)
  else
    sen ← of_option AttributeError (sensor rs);
    calibData ← get_data_for_date sen (raw_timeStamp rs);
    let self := samples (signal rs) in
    let slope := slope calibData in
    let bias := bias calibData in
    let intercept := offset calibData in
    let calibrationSupplyVoltage := calibrationSupplyVoltage calibData in
    calibratedSignal ←
      (if decide (calibrationType rs = Some "interceptStar"%string) then
         sup ← of_option AttributeError (supply rs);
         r ← array_op (fun x t => t * x)%S self
               (supply_map (fun v => calibrationSupplyVoltage / v * slope)%S
                           sup);
         Ok ((fun x => x + intercept)%S <$> (r : list sample))
       else if decide (calibrationType rs = Some "intercept"%string) then
         sup ← of_option AttributeError (supply rs);
         array_op (fun x t => t * x)%S
           ((fun x => slope * x + intercept)%S <$> self)
           (supply_map (fun v => calibrationSupplyVoltage / v)%S sup)
       else if decide (calibrationType rs = Some "bias"%string) then
         sup ← of_option AttributeError (supply rs);
         array_op (fun x t => t * x)%S
           ((fun x => x - bias)%S <$> self)
           (supply_map (fun v => calibrationSupplyVoltage / v * slope)%S sup)
       else Raise StandardError);
    Ok (calibrated rs calibData calibratedSignal).

(** The supply voltage that goes with each sample of an array of length
    [n]. *)
Definition supply_values (sup : Supply) (n : nat) : list sample :=
  match sup with
  | SupplyScalar v => replicate n v
  | SupplyArray b => b
  end.

(** The bias equation as the specification writes it, sample by sample:
    [slope * (raw - measuredSupplyV / calibSupplyV * bias)]. *)
Definition bias_equation (calibData : CalibrationRow) (raw : list sample)
    (sup : Supply) : list sample :=
  zip_with (fun x measuredSupplyV =>
              slope calibData *
              (x - measuredSupplyV / calibrationSupplyVoltage calibData
                   * bias calibData))%S
           raw (supply_values sup (length raw)).

(** A rate-gyro channel with a scalar supply voltage and the three
    calibration sessions above. *)
Definition rate_gyro_raw : RawSignal :=
  {| signal := {| samples := [Fin 4; NaN; Fin 3]; name := Some "ForkRate";
                  runid := "00104"; sampleRate := 200; source := Some "NI";
                  units := Some "volt" |};
     calibrationType := Some "bias"%string;
     sensor := Some three_calibrations;
     supply := Some (SupplyScalar (Fin 10));
     raw_timeStamp := 21 |}.

(** ** numpy helpers on one-dimensional arrays *)

(** [ary[a:b]] for non-negative [a] and [b]. *)
Definition slice {A} (l : list A) (a b : nat) : list A :=
  take (b - a) (drop a l).

(** [np.nonzero(mask)[0]]: the positions of the true entries. *)
Fixpoint nonzero_from (i : nat) (mask : list bool) : list nat :=
  match mask with
  | [] => []
  | b :: mask' =>
      if b then i :: nonzero_from (S i) mask' else nonzero_from (S i) mask'
  end.

Definition np_nonzero (mask : list bool) : list nat := nonzero_from 0 mask.

(** [np.split(ary, indices)]: the slices between consecutive division
    points [0, indices..., len(ary)]. *)
Fixpoint split_at {A} (ary : list A) (start : nat) (indices : list nat)
    : list (list A) :=
  match indices with
  | [] => [slice ary start (length ary)]
  | i :: indices' => slice ary start i :: split_at ary i indices'
  end.

Definition np_split {A} (ary : list A) (indices : list nat) : list (list A) :=
  split_at ary 0 indices.

(** [np.isnan(arr).any()]. *)
Definition any_isnan (arr : list sample) : bool := existsb isnan arr.

(** ** [split_around_nan] *)

(** The second split, of one array of the first split. *)
Definition split_again (arr : list sample) : list (list sample) :=
  if any_isnan arr
  then np_split arr (S <$> np_nonzero (isnan <$> arr))
  else [arr].

(** The loop that builds the index pairs, [count] being the running sum of
    the lengths. *)
Fixpoint build_indices (count : nat) (arrays : list (list sample))
    : list (nat * nat) :=
  match arrays with
  | [] => []
  | arr :: arrays' =>
      let count := (count + length arr)%nat in
      (if any_isnan arr then ((count - 1)%nat, count)
       else ((count - length arr)%nat, count))
      :: build_indices count arrays'
  end.

Definition split_around_nan (sig : list sample)
    : list (nat * nat) * list (list sample) :=
  if any_isnan sig then
    let firstSplit := np_split sig (np_nonzero (isnan <$> sig)) in
    let arrays := concat (split_again <$> firstSplit) in
    let arrays := filter (fun arr => length arr ≠ 0%nat) arrays in
    (build_indices 0 arrays, arrays)
  else ([(0%nat, length sig)], [sig]).

Definition nan_free (arr : list sample) : Prop :=
  Forall (fun x => isnan x = false) arr.

(** A structurally recursive reading of the first split, used to reason
    about it: [acc] is the section being collected, a NaN closes it and
    opens the next one. *)
Fixpoint first_split_rec (acc suf : list sample) : list (list sample) :=
  match suf with
  | [] => [acc]
  | x :: suf' =>
      if isnan x then acc :: first_split_rec [x] suf'
      else first_split_rec (acc ++ [x]) suf'
  end.

(** A section of the first split: free of NaN, or one NaN followed by a
    run free of NaN. *)
Definition piece_ok (arr : list sample) : Prop :=
  nan_free arr \/ exists rest, arr = NaN :: rest /\ nan_free rest.

(** What a section of the result looks like: a single NaN, or a non-empty
    run without NaN. *)
Definition section_ok (arr : list sample) : Prop :=
  arr = [NaN] \/ (arr ≠ [] /\ nan_free arr).

(** ** Time vectors, interpolation and indexing *)

(** Modelled from the spec: [time_vector] is imported from the [dtk]
    package and is not part of the sources; by the Signal contract a signal
    of [n] samples at rate [r] has the time stamps [t_i = i / r]. *)
Definition time_vector (n : nat) (sampleRate : R) : list R :=
  (fun i => INR i / sampleRate) <$> seq 0 n.

(** [Signal.time]. *)
Definition time (s : Signal) : list R :=
  time_vector (length (samples s)) (sampleRate s).

(** [ary[-1]] and [ary[0]]. *)
Definition last_item {A} (l : list A) : result A := of_option IndexError (last l).
Definition first_item {A} (l : list A) : result A := of_option IndexError (head l).

(** [ary[indices]] for an array of positions. *)
Fixpoint fancy_index {A} (ary : list A) (indices : list nat)
    : result (list A) :=
  match indices with
  | [] => Ok []
  | i :: indices' =>
      x ← of_option IndexError (ary !! i);
      xs ← fancy_index ary indices';
      Ok (x :: xs)
  end.

(** [numpy.interp] at one point, for increasing sample points [xp]: the
    first value left of [xp[0]], the last value from [xp[-1]] on, and the
    chord between the two neighbours in between. *)
Fixpoint interp_between (x : R) (xp : list R) (fp : list sample)
    : sample :=
  match xp, fp with
  | x0 :: ((x1 :: _) as xp'), y0 :: ((y1 :: _) as fp') =>
      if decide (x < x1)
      then (y0 + (y1 - y0) / Fin (x1 - x0) * Fin (x - x0))%S
      else interp_between x xp' fp'
  | _, _ => NaN
  end.

Definition interp_at (xp : list R) (fp : list sample) (x : R) : sample :=
  match xp, fp with
  | x0 :: _, y0 :: _ =>
      if decide (x < x0) then y0
      else if decide (List.last xp x0 <= x) then List.last fp y0
      else interp_between x xp fp
  | _, _ => NaN
  end.

(** [numpy.interp(x, xp, fp)]: it refuses an empty [xp] and arrays [xp] and
    [fp] of different lengths. *)
Definition np_interp (x xp : list R) (fp : list sample)
    : result (list sample) :=
  if decide (xp = []) then Raise ValueError
  else if decide (length xp = length fp) then Ok (interp_at xp fp <$> x)
  else Raise ValueError.

(** [numpy.linalg.norm] of a one-dimensional array. *)
Definition norm (l : list sample) : sample :=
  ssqrt (foldr sadd (Fin 0) ((fun x => x * x)%S <$> l)).

(** ** Truncation *)

(** [truncate_data] of [DataProcessor.py]; [Signal.truncate] of the package
    wraps the same function of its signal-processing module and puts the
    metadata of the signal back on the result. *)
Definition truncate_data (signal : Signal) (tau : R) : result Signal :=
  let t := time_vector (length (samples signal)) (sampleRate signal) in
  let tni := (fun x => x - tau) <$> t in
  let tvn := t in
  tni_end ← last_item tni;
  tcom ← fancy_index tvn
            (np_nonzero ((fun x => bool_decide (x < tni_end)) <$> tvn));
  if decide (source signal = Some "NI"%string) then
    truncated ← np_interp tcom tni (samples signal);
    Ok (with_samples signal truncated)
  else if decide (source signal = Some "VN"%string) then
    tcom_end ← last_item tcom;
    truncated ← fancy_index (samples signal)
                 (np_nonzero ((fun x => bool_decide (x <= tcom_end)) <$> tvn));
    Ok (with_samples signal truncated)
  else Raise ValueError.

(** [truncate_data] again, with the two computations made explicit in which
    the rounding of float64 decides which samples are kept: the time vector
    [t], as [time_vector] returns it, and the subtraction [fsub] of [time -
    tau].  The comparisons [tvn < tni[-1]] and [tvn <= tcom[-1]] are exact
    on the numbers so computed.  [truncate_data] is the instance with the
    exact quotients [i / sampleRate] and the exact difference. *)
Definition truncate_data_on (fsub : R -> R -> R) (t : list R)
    (signal : Signal) (tau : R) : result Signal :=
  let tni := (fun x => fsub x tau) <$> t in
  let tvn := t in
  tni_end ← last_item tni;
  tcom ← fancy_index tvn
            (np_nonzero ((fun x => bool_decide (x < tni_end)) <$> tvn));
  if decide (source signal = Some "NI"%string) then
    truncated ← np_interp tcom tni (samples signal);
    Ok (with_samples signal truncated)
  else if decide (source signal = Some "VN"%string) then
    tcom_end ← last_item tcom;
    truncated ← fancy_index (samples signal)
                 (np_nonzero ((fun x => bool_decide (x <= tcom_end)) <$> tvn));
    Ok (with_samples signal truncated)
  else Raise ValueError.

(** Two signals of eight samples at 3 Hz, and the time vector of eight
    samples at 3 Hz as float64 has it: the quotients [i / 3] rounded to the
    nearest float, written in decimal. *)
Definition ramp_ni : Signal :=
  {| samples := Fin <$> [0; 1; 2; 3; 4; 5; 6; 7];
     name := Some "AccelerometerAccelerationY";
     runid := "00104"; sampleRate := 3; source := Some "NI";
     units := Some "meter/second/second" |}.

Definition ramp_vn : Signal :=
  {| samples := Fin <$> [0; -1; -2; -3; -4; -5; -6; -7];
     name := Some "AccelerationZ";
     runid := "00104"; sampleRate := 3; source := Some "VN";
     units := Some "meter/second/second" |}.

Definition float_times_3Hz : list R :=
  [0; 0.33333333333333331; 0.66666666666666663; 1; 1.3333333333333333;
   1.6666666666666667; 2; 2.3333333333333335].

(** ** Synchronisation error *)

(** [sync_error] of [DataProcessor.py]. *)
Definition sync_error (tau : R) (signal1 signal2 : list sample)
    (time : list R) : result sample :=
  time_end ← last_item time;
  if decide (Rabs tau >= time_end) then Raise ValueError
  else
    let shiftedTime := (fun x => x + tau) <$> time in
    intervalTime ←
      (if decide (tau > 0) then
         fancy_index shiftedTime
           (np_nonzero ((fun x => bool_decide (x < time_end)) <$> shiftedTime))
       else
         time_0 ← first_item time;
         fancy_index shiftedTime
           (np_nonzero ((fun x => bool_decide (x > time_0)) <$> shiftedTime)));
    sig1OnInterval ← np_interp intervalTime time signal1;
    sig2OnInterval ←
      (if decide (tau > 0) then
         interval_end ← last_item intervalTime;
         fancy_index signal2
           (np_nonzero ((fun x => bool_decide (x <= interval_end))
                          <$> shiftedTime))
       else
         interval_0 ← first_item intervalTime;
         fancy_index signal2
           (np_nonzero ((fun x => bool_decide (x >= interval_0))
                          <$> shiftedTime)));
    diff ← broadcast2 ssub sig1OnInterval sig2OnInterval;
    Ok (norm diff).

(** Two accelerometer signals of three samples at 1 Hz. *)
Definition accel_ni : Signal :=
  {| samples := [Fin 0; Fin 1; Fin 4]; name := Some "AccelerometerAccelerationY";
     runid := "00104"; sampleRate := 1; source := Some "NI";
     units := Some "meter/second/second" |}.

Definition accel_vn : Signal :=
  {| samples := [Fin 0; NaN; Fin (-4)]; name := Some "AccelerationZ";
     runid := "00104"; sampleRate := 1; source := Some "VN";
     units := Some "meter/second/second" |}.

(** ** Bump detection *)

(** The positions and values of the entries that are not NaN. *)
Fixpoint finite_from (i : nat) (l : list sample) : list (nat * R) :=
  match l with
  | [] => []
  | NaN :: l' => finite_from (S i) l'
  | Fin x :: l' => (i, x) :: finite_from (S i) l'
  end.

(** The first entry that no other entry beats. *)
Fixpoint arg_best (better : R -> R -> bool) (best : nat * R)
    (l : list (nat * R)) : nat * R :=
  match l with
  | [] => best
  | p :: l' => arg_best better (if better p.2 best.2 then p else best) l'
  end.

Definition Rgtb (x y : R) : bool := bool_decide (x > y).
Definition Rltb (x y : R) : bool := bool_decide (x < y).

(** [np.nanargmax], [np.nanargmin]: an empty or all-NaN array is a
    [ValueError]. *)
Definition nanargmax (l : list sample) : result nat :=
  match finite_from 0 l with
  | [] => Raise ValueError
  | p :: ps => Ok (arg_best Rgtb p ps).1
  end.

Definition nanargmin (l : list sample) : result nat :=
  match finite_from 0 l with
  | [] => Raise ValueError
  | p :: ps => Ok (arg_best Rltb p ps).1
  end.

(** [np.nanmax], [np.nanmin]: an empty array is a [ValueError], an all-NaN
    array gives NaN. *)
Definition nanmax (l : list sample) : result sample :=
  match l, finite_from 0 l with
  | [], _ => Raise ValueError
  | _, [] => Ok NaN
  | _, p :: ps => Ok (Fin (arg_best Rgtb p ps).2)
  end.

Definition nanmin (l : list sample) : result sample :=
  match l, finite_from 0 l with
  | [], _ => Raise ValueError
  | _, [] => Ok NaN
  | _, p :: ps => Ok (Fin (arg_best Rltb p ps).2)
  end.

(** [np.argmin]: a NaN counts as the minimum. *)
Definition np_argmin (l : list sample) : result nat :=
  match l with
  | [] => Raise ValueError
  | _ => match np_nonzero (isnan <$> l) with
         | i :: _ => Ok i
         | [] => nanargmin l
         end
  end.

(** [int(x)] for a float: rounding towards zero. *)
Definition py_int (x : R) : Z :=
  if decide (0 <= x) then Int_part x else (- Int_part (- x))%Z.

(** [find_bump]: the three indices around the largest spike.  The number
    of samples of the bump is taken here from the exact product
    [bumpDuration * sampleRate]; the code takes the product in floating
    point, which can fall short of a whole number that the exact product
    reaches, and raises [ZeroDivisionError] at a speed of zero
    ([find_bump_samples] leaves the product to the caller). *)
Definition find_bump (accelSignal : list sample)
    (sampleRate speed wheelbase bumpLength : R) : result (Z * Z * Z) :=
  mx ← nanmax accelSignal;
  mn ← nanmin accelSignal;
  indice ← (if sgtb (lift1 Rabs mx) (lift1 Rabs mn)
            then nanargmax accelSignal else nanargmin accelSignal);
  let indice := Z.of_nat indice in
  let bumpDuration := (wheelbase + bumpLength) / speed in
  let bumpSamples := py_int (bumpDuration * sampleRate) in
  let bumpSamples := (bumpSamples / 4 * 4)%Z in
  Ok ((indice - bumpSamples / 4)%Z, indice, (indice + 3 * bumpSamples / 4)%Z).

(** [find_bump] once the number of samples of the bump is known:
    [bumpSamples] is what [int(bumpDuration * sampleRate)] evaluates to, a
    product that the code takes in floating point.  [find_bump] is the
    instance with the exact product. *)
Definition find_bump_samples (accelSignal : list sample) (bumpSamples : Z)
    : result (Z * Z * Z) :=
  mx ← nanmax accelSignal;
  mn ← nanmin accelSignal;
  indice ← (if sgtb (lift1 Rabs mx) (lift1 Rabs mn)
            then nanargmax accelSignal else nanargmin accelSignal);
  let indice := Z.of_nat indice in
  let bumpSamples := (bumpSamples / 4 * 4)%Z in
  Ok ((indice - bumpSamples / 4)%Z, indice, (indice + 3 * bumpSamples / 4)%Z).

(** ** Time shift *)

(** [np.linspace(0., .5, num=500)]. *)
Definition tauRange : list R :=
  (fun i => INR i * (0.5 / 499)) <$> seq 0 500.

(** The loop [for pair in indices: if pair[0] <= vnBump[1] < pair[1]:
    bSec = pair]. *)
Definition bump_section (indices : list (nat * nat)) (bump : Z)
    : option (nat * nat) :=
  foldl (fun bSec pair =>
           if bool_decide (Z.of_nat pair.1 <= bump < Z.of_nat pair.2)%Z
           then Some pair else bSec)
        None indices.

(** The seed of the minimisation: the minimum of the landscape, or the
    guess from the bump indices when that is plausible and far from it. *)
Definition refinement_seed (guess tau0 : R) : R :=
  let isInRange := bool_decide (0 < guess < 1) in
  let isCloseToTau := bool_decide (guess - 0.1 < tau0 < guess + 0.1) in
  if isInRange && negb isCloseToTau then guess else tau0.

Section time_shift.
(** Numerical routines of [dtk.process] and scipy, which the sources
    import: the zero-phase low-pass filter, the cubic spline through the
    points [(t, v)] evaluated on a time vector, mean removal,
    normalisation and the Nelder-Mead minimiser (which may fail, since it
    calls an error function that may). *)
Context (butterworth : list sample -> R -> R -> list sample).
Context (UnivariateSpline : list R -> list sample -> list R -> list sample).
Context (subtract_mean normalize : list sample -> list sample).
Context (fmin : (R -> result sample) -> R -> result R).

(** The first part of [find_timeshift]: the guess from the bump indices
    and the sections of both signals and of the time vector that the
    search compares. *)
Definition bump_sections (niAcc vnAcc : list sample) (sampleRate speed : R)
    : result (R * list sample * list sample * list R) :=
  let N := length niAcc in
  if decide (N ≠ length vnAcc) then Raise StandardError
  else
    let time := time_vector N sampleRate in
    let niSig := sneg <$> niAcc in
    let vnSig := vnAcc in
    let wheelbase := 1.02 in
    let bumpLength := 1 in
    let cutoff := 50 in
    let filNiSig := butterworth niSig cutoff sampleRate in
    niBump ← find_bump filNiSig sampleRate speed wheelbase bumpLength;
    let notNan := np_nonzero ((fun x => negb (isnan x)) <$> vnSig) in
    v ← fancy_index vnSig notNan;
    t ← fancy_index time notNan;
    let filVnSig :=
      butterworth (UnivariateSpline t v time) cutoff sampleRate in
    vnBump ← find_bump filVnSig sampleRate speed wheelbase bumpLength;
    let guess := IZR (niBump.1.2 - vnBump.1.2) / sampleRate in
    let '(indices, arrays) := split_around_nan vnSig in
    bSec ← of_option NameError (bump_section indices vnBump.1.2);
    let niSig := normalize (subtract_mean niSig) in
    let vnSig := normalize (subtract_mean vnSig) in
    let niBumpSec := slice niSig bSec.1 bSec.2 in
    let vnBumpSec := slice vnSig bSec.1 bSec.2 in
    let timeBumpSec := slice time bSec.1 bSec.2 in
    if decide (length niBumpSec < 200)%nat then Raise Warning
    else Ok (guess, niBumpSec, vnBumpSec, timeBumpSec).

(** [find_timeshift] of [DataProcessor.py]. *)
Definition find_timeshift (niAcc vnAcc : list sample) (sampleRate speed : R)
    : result R :=
  '(guess, niBumpSec, vnBumpSec, timeBumpSec) ←
    bump_sections niAcc vnAcc sampleRate speed;
  error ← mapM (fun val => sync_error val niBumpSec vnBumpSec timeBumpSec)
               tauRange;
  i ← np_argmin error;
  tau0 ← of_option IndexError (tauRange !! i);
  let tau0 := refinement_seed guess tau0 in
  tau ← fmin (fun x => sync_error x niBumpSec vnBumpSec timeBumpSec) tau0;
  Ok (if decide (Rabs (tau - tau0) > 0.01) then tau0 else tau).
End time_shift.

(** A run of 400 samples at 200 Hz without any signal, and stand-ins for the
    numerical routines: a filter that answers with one unit spike, an empty
    spline, no mean removal or scaling, and a minimiser that stays at its
    seed. *)
Definition flat_accel : list sample := replicate 400 (Fin 0).
Definition spike_filter (_ : list sample) (_ _ : R) : list sample := [Fin 1].
Definition no_spline (_ : list R) (_ : list sample) (_ : list R)
    : list sample := [].
Definition unchanged (l : list sample) : list sample := l.
Definition keep_seed (_ : R -> result sample) (x0 : R) : result R := Ok x0.

(** ** The run orchestrator *)

(** The columns of the run table that the pipeline reads. *)
Record RunMetadata : Type := {
  RunID : string;
  Maneuver : string;
  NISampleRate : R;
  Speed : R
}.

(** A [Run] object.  The attributes that a stage creates are [None] until
    that stage has run; the dictionaries are keyed by the signal name. *)
Record Run : Type := {
  metadata : RunMetadata;
  rawSignals : gmap string RawSignal;
  filterFreq : option R;
  calibratedSignals : option (gmap (option string) Signal);
  truncatedSignals : option (gmap (option string) Signal);
  computedSignals : option (gmap (option string) Signal);
  taskSignals : option (gmap (option string) Signal);
  tau : option R;
  topSig : option string
}.

Definition set_calibrated (r : Run) (d : gmap (option string) Signal) : Run :=
  {| metadata := metadata r; rawSignals := rawSignals r;
     filterFreq := filterFreq r; calibratedSignals := Some d;
     truncatedSignals := truncatedSignals r;
     computedSignals := computedSignals r; taskSignals := taskSignals r;
     tau := tau r; topSig := topSig r |}.

Definition set_truncated (r : Run) (d : gmap (option string) Signal) : Run :=
  {| metadata := metadata r; rawSignals := rawSignals r;
     filterFreq := filterFreq r; calibratedSignals := calibratedSignals r;
     truncatedSignals := Some d;
     computedSignals := computedSignals r; taskSignals := taskSignals r;
     tau := tau r; topSig := topSig r |}.

Definition set_computed (r : Run) (d : gmap (option string) Signal) : Run :=
  {| metadata := metadata r; rawSignals := rawSignals r;
     filterFreq := filterFreq r; calibratedSignals := calibratedSignals r;
     truncatedSignals := truncatedSignals r;
     computedSignals := Some d; taskSignals := taskSignals r;
     tau := tau r; topSig := topSig r |}.

Definition set_task (r : Run) (d : gmap (option string) Signal) : Run :=
  {| metadata := metadata r; rawSignals := rawSignals r;
     filterFreq := filterFreq r; calibratedSignals := calibratedSignals r;
     truncatedSignals := truncatedSignals r;
     computedSignals := computedSignals r; taskSignals := Some d;
     tau := tau r; topSig := topSig r |}.

Definition set_tau (r : Run) (t : R) : Run :=
  {| metadata := metadata r; rawSignals := rawSignals r;
     filterFreq := filterFreq r; calibratedSignals := calibratedSignals r;
     truncatedSignals := truncatedSignals r;
     computedSignals := computedSignals r; taskSignals := taskSignals r;
     tau := Some t; topSig := topSig r |}.

Definition set_topSig (r : Run) (s : string) : Run :=
  {| metadata := metadata r; rawSignals := rawSignals r;
     filterFreq := filterFreq r; calibratedSignals := calibratedSignals r;
     truncatedSignals := truncatedSignals r;
     computedSignals := computedSignals r; taskSignals := taskSignals r;
     tau := tau r; topSig := Some s |}.

(** A loop over a list whose body may raise. *)
Fixpoint for_each {A S} (body : S -> A -> result S) (s : S) (l : list A)
    : result S :=
  match l with
  | [] => Ok s
  | x :: l' => s' ← body s x; for_each body s' l'
  end.

(** The same update of every value of a dictionary. *)
Definition for_each_item (body : Signal -> result Signal)
    (d : gmap (option string) Signal) : result (gmap (option string) Signal) :=
  for_each (fun acc kv => v ← body kv.2; Ok (<[kv.1 := v]> acc))
           ∅ (map_to_list d).

(** The quotient of two numbers as float64 has it where the sample type
    falls short: a positive number over zero is [inf], a negative one
    [-inf], zero over zero NaN.  The zero divisor is the positive zero,
    which a difference [x - x] is. *)
Inductive extended : Type :=
| ENaN
| EFin (x : R)
| EInf (negative : bool).

Definition quotient (a b : sample) : extended :=
  match a, b with
  | Fin x, Fin y =>
      if decide (y = 0) then
        if decide (x > 0) then EInf false
        else if decide (x < 0) then EInf true else ENaN
      else EFin (x / y)
  | _, _ => ENaN
  end.

(** [q > m] for a finite [m]; a comparison with NaN is false. *)
Definition exceeds (q : extended) (m : R) : bool :=
  match q with
  | EFin x => bool_decide (x > m)
  | EInf negative => negb negative
  | ENaN => false
  end.

(** [numpy.mean], [ndarray.max] and [ndarray.min]; a NaN entry makes the
    extremum NaN, an empty array has none. *)
Definition np_mean (l : list sample) : sample :=
  (foldr sadd (Fin 0) l / Fin (INR (length l)))%S.

Definition np_max (l : list sample) : result sample :=
  match l with
  | [] => Raise ValueError
  | x :: l' => Ok (foldl (lift2 Rmax) x l')
  end.

Definition np_min (l : list sample) : result sample :=
  match l with
  | [] => Raise ValueError
  | x :: l' => Ok (foldl (lift2 Rmin) x l')
  end.

Section run.
(** Routines outside the sources: [spline_over_nan] and [butterworth] of
    [dtk.process], [find_timeshift] of the package's signal-processing
    module, and the bodies of the stages that compute the derived and the
    task quantities with the [dtk] bicycle models.  The cubic spline may
    raise, as it does when too few entries are not NaN. *)
Context (spline_over_nan : list R -> list sample -> result (list sample)).
Context (butterworth : list sample -> R -> R -> list sample).
Context (sigpro_find_timeshift :
           list sample -> list sample -> R -> R -> result R).
Context (computed_quantities task_quantities : Run -> result Run).

(** [Signal.spline]. *)
Definition spline (s : Signal) : result Signal :=
  splined ← spline_over_nan (time s) (samples s);
  Ok (with_samples s splined).

(** [Signal.filter]. *)
Definition filter_signal (s : Signal) (frequency : R) : result Signal :=
  splined ← spline s;
  Ok (with_samples s
        (butterworth (samples splined) frequency (sampleRate s))).

(** [Signal.truncate]. *)
Definition truncate (s : Signal) (tau : R) : result Signal :=
  truncated ← truncate_data s tau;
  Ok (with_samples s (samples truncated)).

(** [Run.calibrate_signals]. *)
Definition calibrate_signals (r : Run) : result Run :=
  d ← for_each (fun acc sig => calibSig ← scale sig;
                               Ok (<[name calibSig := calibSig]> acc))
               (∅ : gmap (option string) Signal)
               (map_to_list (rawSignals r)).*2;
  Ok (set_topSig (set_calibrated r d) "calibrated").

(** [Run.compute_time_shift]. *)
Definition compute_time_shift (r : Run) : result Run :=
  cal ← of_option AttributeError (calibratedSignals r);
  niAcc ← of_option KeyError
            (cal !! Some "AccelerometerAccelerationY"%string);
  vnAcc ← of_option KeyError (cal !! Some "AccelerationZ"%string);
  t ← sigpro_find_timeshift (samples niAcc) (samples vnAcc)
        (NISampleRate (metadata r)) (Speed (metadata r));
  Ok (set_tau r t).

(** [Run.check_time_shift]. *)
Definition check_time_shift (r : Run) (maxNRMS : R) : result Run :=
  cal ← of_option AttributeError (calibratedSignals r);
  niAcc ← of_option KeyError
            (cal !! Some "AccelerometerAccelerationY"%string);
  vnAcc ← of_option KeyError (cal !! Some "AccelerationZ"%string);
  t ← of_option AttributeError (tau r);
  vnAcc ← (truncated ← truncate vnAcc t; spline truncated);
  niAcc ← (truncated ← truncate niAcc t; spline truncated);
  sum ← broadcast2 sadd (samples vnAcc) (samples niAcc);
  niMax ← np_max (samples niAcc);
  niMin ← np_min (samples niAcc);
  let nrms :=
    quotient (ssqrt (np_mean ((fun x => x * x)%S <$> sum)))
             (niMax - niMin)%S in
  if exceeds nrms maxNRMS then Raise TimeShiftError else Ok r.

(** [Run.truncate_signals]; [self.tau] is read in the loop, for each
    signal. *)
Definition truncate_signals (r : Run) : result Run :=
  cal ← of_option AttributeError (calibratedSignals r);
  d ← for_each_item (fun sig => t ← of_option AttributeError (tau r);
                                truncated ← truncate sig t;
                                spline truncated) cal;
  Ok (set_topSig (set_truncated r d) "truncated").

(** [Run.compute_signals]: the derived quantities are computed by the
    [dtk] models. *)
Definition compute_signals (r : Run) : result Run :=
  computed_quantities r.

(** [Run.task_signals]. *)
Definition task_signals (r : Run) : result Run :=
  r ← task_quantities r;
  Ok (set_topSig r "task").

(** [Run.filter_top_signals]; a run on which no stage has set [topSig] has
    no such attribute. *)
Definition filter_top_signals (r : Run) (filterFreq : R) : result Run :=
  let filter_all := for_each_item (fun v => filter_signal v filterFreq) in
  top ← of_option AttributeError (topSig r);
  if decide (top = "task"%string) then
    d ← of_option AttributeError (taskSignals r);
    d ← filter_all d; Ok (set_task r d)
  else if decide (top = "computed"%string) then
    d ← of_option AttributeError (computedSignals r);
    d ← filter_all d; Ok (set_computed r d)
  else if decide (top = "calibrated"%string) then
    d ← of_option AttributeError (calibratedSignals r);
    d ← filter_all d; Ok (set_calibrated r d)
  else Ok r.

(** [Run.process_raw_signals]. *)
Definition process_raw_signals (r : Run) : result Run :=
  r ← calibrate_signals r;
  let maneuver := Maneuver (metadata r) in
  let con1 := bool_decide (maneuver ≠ "Steer Dynamics Test"%string) in
  let con2 := bool_decide (maneuver ≠ "System Test"%string) in
  let con3 := bool_decide (maneuver ≠ "Static Calibration"%string) in
  r ← (if con1 && con2 && con3 then
         r ← compute_time_shift r;
         r ← check_time_shift r 0.15;
         r ← truncate_signals r;
         r ← compute_signals r;
         task_signals r
       else Ok r);
  match filterFreq r with
  | Some f => filter_top_signals r f
  | None => Ok r
  end.
End run.

(** The normalised root mean square as the specification words it, on real
    samples: [sqrt(mean((vnAcc + niAcc)^2))] over the range of the NI
    signal. *)
Definition Rmean (l : list R) : R := foldr Rplus 0 l / INR (length l).

Definition Rlist_max (l : list R) : R :=
  match l with [] => 0 | x :: l' => foldl Rmax x l' end.

Definition Rlist_min (l : list R) : R :=
  match l with [] => 0 | x :: l' => foldl Rmin x l' end.

Definition normalized_rms (vnAcc niAcc : list R) : R :=
  sqrt (Rmean ((fun z => z * z) <$> zip_with Rplus vnAcc niAcc))
  / (Rlist_max niAcc - Rlist_min niAcc).

(** Whether that value exceeds the threshold.  Over a constant NI signal the
    range is zero and the value is infinite, which exceeds every threshold,
    unless the root mean square is zero as well: then it is NaN, which
    exceeds none. *)
Definition nrms_exceeds (vnAcc niAcc : list R) (maxNRMS : R) : bool :=
  if decide (Rlist_max niAcc - Rlist_min niAcc = 0) then
    bool_decide
      (0 < sqrt (Rmean ((fun z => z * z) <$> zip_with Rplus vnAcc niAcc)))
  else bool_decide (normalized_rms vnAcc niAcc > maxNRMS).

(** A run whose two accelerometer signals are calibrated and whose time
    shift is half a second, and a spline stand-in that answers with the two
    samples 1 and 3. *)
Definition synced_run : Run :=
  {| metadata := {| RunID := "00104"; Maneuver := "Balance";
                    NISampleRate := 1; Speed := 4 |};
     rawSignals := ∅;
     filterFreq := None;
     calibratedSignals :=
       Some {[ Some "AccelerometerAccelerationY"%string := accel_ni;
               Some "AccelerationZ"%string := accel_vn ]};
     truncatedSignals := None; computedSignals := None; taskSignals := None;
     tau := Some (1 / 2);
     topSig := Some "calibrated"%string |}.

Definition two_sample_spline (_ : list R) (_ : list sample)
    : result (list sample) :=
  Ok [Fin 1; Fin 3].

(** A spline stand-in that answers with a constant signal. *)
Definition constant_spline (_ : list R) (_ : list sample)
    : result (list sample) :=
  Ok [Fin 1; Fin 1].

(** A system-test run with one raw channel and no filter frequency, and
    stages that fail whenever they are called. *)
Definition system_test_run : Run :=
  {| metadata := {| RunID := "00105"; Maneuver := "System Test";
                    NISampleRate := 200; Speed := 0 |};
     rawSignals := {[ "ForkRate"%string := rate_gyro_raw ]};
     filterFreq := None;
     calibratedSignals := None; truncatedSignals := None;
     computedSignals := None; taskSignals := None;
     tau := None; topSig := None |}.

Definition failing_timeshift (_ _ : list sample) (_ _ : R) : result R :=
  Raise StandardError.
Definition failing_stage (_ : Run) : result Run := Raise StandardError.

(** A calibration table with two sensors, for the examples. *)
Definition two_sensor_table : list CalibrationRow :=
  [ calibration_at "00001" 10;
    {| calibrationID := "00007"; cal_name := "ForkRate";
       cal_signal := "ForkRate"; cal_units := "radian/second";
       timeStamp := 15; slope := Fin 1; bias := Fin 0; offset := Fin 0;
       calibrationSupplyVoltage := Fin 5; runSupplyVoltage := Fin 5;
       runSupplyVoltageSource := "na" |};
    calibration_at "00002" 20 ].

(** The equations of [scale] for the calibration types [interceptStar] and
    [intercept], sample by sample. *)
Definition intercept_star_equation (calibData : CalibrationRow)
    (raw : list sample) (sup : Supply) : list sample :=
  zip_with (fun x measuredSupplyV =>
              calibrationSupplyVoltage calibData / measuredSupplyV
              * slope calibData * x + offset calibData)%S
           raw (supply_values sup (length raw)).

Definition intercept_equation (calibData : CalibrationRow)
    (raw : list sample) (sup : Supply) : list sample :=
  zip_with (fun x measuredSupplyV =>
              calibrationSupplyVoltage calibData / measuredSupplyV
              * (slope calibData * x + offset calibData))%S
           raw (supply_values sup (length raw)).

(** A raw channel like [rate_gyro_raw] with another calibration type and a
    measured supply voltage, one sample of which is missing. *)
Definition raw_of_type (ty : option string) : RawSignal :=
  {| signal := {| samples := [Fin 4; NaN; Fin 3];
                  name := Some "SteerPotentiometer";
                  runid := "00104"; sampleRate := 200; source := Some "NI";
                  units := Some "volt" |};
     calibrationType := ty;
     sensor := Some three_calibrations;
     supply := Some (SupplyArray [Fin 5; Fin 10; NaN]);
     raw_timeStamp := 21 |}.

(** ** Utilities of the database module *)

(** [pad_with_zeros]: [for i in range(digits - len(num)): num = '0' + num]. *)
Definition pad_with_zeros (num : string) (digits : Z) : string :=
  Nat.iter (Z.to_nat (digits - Z.of_nat (String.length num)))
           (String.append "0") num.

(** [vector[:m]] for an integer [m], which counts from the end when it is
    negative. *)
Definition slice_to {A} (l : list A) (m : Z) : list A :=
  if decide (0 <= m)%Z then take (Z.to_nat m) l
  else take (length l - Z.to_nat (- m)) l.

(** [unsize_vector]. *)
Definition unsize_vector (vector : list sample) (m : Z)
    : result (list sample) :=
  let len := Z.of_nat (length vector) in
  if decide (m < len)%Z then Ok (slice_to vector m)
  else if decide (m > len)%Z then Ok vector
  else if decide (m = len) then Ok vector
  else Raise StandardError.

(** [size_vector]. *)
Definition size_vector (vector : list sample) (m : Z)
    : result (list sample) :=
  let nsamp := Z.of_nat (length vector) in
  if decide (m > nsamp)%Z then
    Ok (vector ++ replicate (Z.to_nat (m - nsamp)) NaN)
  else if decide (m < nsamp)%Z then Ok (slice_to vector m)
  else if decide (m = nsamp) then Ok vector
  else Raise StandardError.

(** [get_row_num], for a run id that is a natural number; [table] is the
    [RunID] column of the run table, row by row. *)
Definition get_row_num (runid : nat) (table : list nat) : result nat :=
  rownum ← of_option IndexError (table !! runid);
  if decide (rownum ≠ runid) then
    of_option IndexError
      (head (np_nonzero ((fun x => bool_decide (x = runid)) <$> table)))
  else Ok rownum.

(** A run of an ordinary maneuver with the two accelerometer channels, which
    are not scaled, and a stand-in for the time-shift search that answers
    with half a second. *)
Definition raw_pass (s : Signal) : RawSignal :=
  {| signal := s; calibrationType := Some "none"%string; sensor := None;
     supply := None; raw_timeStamp := 21 |}.

Definition unsynced_run : Run :=
  {| metadata := {| RunID := "00104"; Maneuver := "Balance";
                    NISampleRate := 1; Speed := 4 |};
     rawSignals := {[ "AccelerometerAccelerationY"%string := raw_pass accel_ni;
                      "AccelerationZ"%string := raw_pass accel_vn ]};
     filterFreq := None;
     calibratedSignals := None; truncatedSignals := None;
     computedSignals := None; taskSignals := None;
     tau := None; topSig := None |}.

Definition half_second_shift (_ _ : list sample) (_ _ : R) : result R :=
  Ok (1 / 2).

(** ** Derived quantities and shared signal objects *)

(** The signals of a run are objects that several dictionaries may hold:
    [convert_units] returns [self] when the units are already right, and
    the methods below then assign to attributes of that very object.  A run
    is therefore given with its objects: [objects] is the signal at each
    address, [next_loc] the first address not in use, and the dictionaries
    hold addresses.  An attribute that does not exist yet is [None]. *)
Definition loc := nat.

Record ObjRun : Type := {
  objects : loc -> Signal;
  next_loc : loc;
  truncatedObjs : option (gmap string loc);
  computedObjs : option (gmap string loc)
}.

Definition update (h : loc -> Signal) (l : loc) (s : Signal) : loc -> Signal :=
  fun l' => if decide (l' = l) then s else h l'.

(** A new signal object. *)
Definition new_object (r : ObjRun) (s : Signal) : ObjRun * loc :=
  ({| objects := update (objects r) (next_loc r) s;
      next_loc := S (next_loc r);
      truncatedObjs := truncatedObjs r;
      computedObjs := computedObjs r |}, next_loc r).

(** [sig.convert_units(units)] on the object at [l]: the object itself when
    the units are equal, and otherwise a new object. *)
Definition convert_units_obj (r : ObjRun) (l : loc) (u : string)
    : result (ObjRun * loc) :=
  let self := objects r l in
  if decide (Some u = units self) then Ok (r, l)
  else newSig ← convert_units self u; Ok (new_object r newSig).

(** [sig.name = n; sig.units = u] on the object at [l]. *)
Definition set_name_units (r : ObjRun) (l : loc) (n u : string) : ObjRun :=
  let s := objects r l in
  {| objects := update (objects r) l
                  {| samples := samples s; name := Some n; runid := runid s;
                     sampleRate := sampleRate s; source := source s;
                     units := Some u |};
     next_loc := next_loc r;
     truncatedObjs := truncatedObjs r;
     computedObjs := computedObjs r |}.

(** [self.computedSignals[key] = sig]. *)
Definition store_computed (r : ObjRun) (key : string) (l : loc)
    : result ObjRun :=
  cs ← of_option AttributeError (computedObjs r);
  Ok {| objects := objects r; next_loc := next_loc r;
        truncatedObjs := truncatedObjs r;
        computedObjs := Some (<[key := l]> cs) |}.

(** One signal of [compute_frame_acceleration] and the signal of
    [compute_pull_force]: convert, rename, store under the new name. *)
Definition convert_rename_store (r : ObjRun) (l : loc) (n u : string)
    : result ObjRun :=
  '(r, l) ← convert_units_obj r l u;
  store_computed (set_name_units r l n u) n l.

(** [Run.compute_pull_force].  Only a missing attribute [truncatedSignals]
    is caught ([except AttributeError]); a missing key is a [KeyError]. *)
Definition compute_pull_force (r : ObjRun) : result ObjRun :=
  match truncatedObjs r with
  | None => Ok r
  | Some tr =>
      pullForce ← of_option KeyError (tr !! "PullForce"%string);
      convert_rename_store r pullForce "PullForce" "newton"
  end.

(** [Run.compute_frame_acceleration]. *)
Definition compute_frame_acceleration (r : ObjRun) : result ObjRun :=
  match truncatedObjs r with
  | None => Ok r
  | Some tr =>
      AccX ← of_option KeyError (tr !! "AccelerationX"%string);
      AccY ← of_option KeyError (tr !! "AccelerationY"%string);
      AccZ ← of_option KeyError (tr !! "AccelerationZ"%string);
      r ← convert_rename_store r AccX
            "FrameAccelerationX" "meter/second/second";
      r ← convert_rename_store r AccY
            "FrameAccelerationY" "meter/second/second";
      convert_rename_store r AccZ
        "FrameAccelerationZ" "meter/second/second"
  end.

(** A run after truncation: the three VN accelerations, in metres per
    second squared, and the pull force in pounds. *)
Definition truncated_objects : ObjRun :=
  {| objects := fun l =>
       match l with
       | 0%nat => with_units accel_vn (Some "meter/second/second"%string)
       | 1%nat => accel_vn
       | 2%nat => accel_vn
       | _ => with_units accel_ni (Some "pound"%string)
       end;
     next_loc := 4%nat;
     truncatedObjs := Some {[ "AccelerationX"%string := 0%nat;
                              "AccelerationY"%string := 1%nat;
                              "AccelerationZ"%string := 2%nat;
                              "PullForce"%string := 3%nat ]};
     computedObjs := Some ∅ |}.

(** ** Loading a run: cached task signals *)

(** [del self.taskSignals]. *)
Definition clear_task (r : Run) : Run :=
  {| metadata := metadata r; rawSignals := rawSignals r;
     filterFreq := filterFreq r; calibratedSignals := calibratedSignals r;
     truncatedSignals := truncatedSignals r;
     computedSignals := computedSignals r; taskSignals := None;
     tau := tau r; topSig := topSig r |}.

(** [ndarray.std]. *)
Definition np_std (l : list sample) : sample :=
  ssqrt (np_mean ((fun x => (x - np_mean l) * (x - np_mean l))%S <$> l)).

(** The row of the task table that [add_task_signals] is given. *)
Record TaskMeta : Type := {
  Duration : R;
  FilterFrequency : option R;
  MeanSpeed : sample;
  meta_RunID : string;
  StdSpeed : sample;
  Tau : R
}.

(** The end of [Run.__init__], from [self.taskFromDatabase = False] on: the
    task signals come from the database when the run has a group there
    ([runGroup], its nodes read as signals) and the stored filter frequency
    matches the requested one; otherwise, or when [forceRecalc] is set, the
    raw signals are processed; newly computed task signals are stored.
    [taskTable] lists the run id and the filter frequency of each row of
    the task table.  The result is the run, [taskFromDatabase] and what
    [add_task_signals] was called with, if it was. *)
Definition Run_init (process_raw_signals : Run -> result Run)
    (taskTable : list (nat * sample)) (runid : nat)
    (runGroup : option (gmap (option string) Signal))
    (forceRecalc store : bool) (self : Run)
    : result (Run * bool
              * option (gmap (option string) Signal * TaskMeta)) :=
  '(self, taskFromDatabase, forceRecalc) ←
    match runGroup with
    | None => Ok (self, false, true)
    | Some nodes =>
        taskRowNum ← get_row_num runid (fst <$> taskTable);
        row ← of_option IndexError (taskTable !! taskRowNum);
        let storedFreq := row.2 in
        let self := set_task self ∅ in
        let newFilterFreq :=
          match filterFreq self with None => NaN | Some f => Fin f end in
        if isnan newFilterFreq && isnan storedFreq then
          Ok (set_task self nodes, true, forceRecalc)
        else if isnan newFilterFreq || isnan storedFreq then
          Ok (self, false, true)
        else if sgtb (Fin 1e-10) (lift1 Rabs (storedFreq - newFilterFreq)%S)
        then Ok (set_task self nodes, true, forceRecalc)
        else Ok (self, false, true)
    end;
  self ← (if forceRecalc : bool then process_raw_signals (clear_task self)
          else Ok self);
  top ← (if store && negb taskFromDatabase
         then Some <$> of_option AttributeError (topSig self)
         else Ok None);
  if decide (top = Some "task"%string) then
    task ← of_option AttributeError (taskSignals self);
    speed ← of_option KeyError (task !! Some "ForwardSpeed"%string);
    duration ← last_item (time speed);
    t ← of_option AttributeError (tau self);
    Ok (self, taskFromDatabase,
        Some (task,
              {| Duration := duration;
                 FilterFrequency := filterFreq self;
                 MeanSpeed := np_mean (samples speed);
                 meta_RunID := RunID (metadata self);
                 StdSpeed := np_std (samples speed);
                 Tau := t |}))
  else Ok (self, taskFromDatabase, None).

(** ** Rates and torques from the measured signals *)

(** [np.sign]. *)
Definition np_sign (a : sample) : sample :=
  lift1 (fun x => if decide (x < 0) then -1
                  else if decide (x > 0) then 1 else 0) a.

(** [steer_torque]. *)
Definition steer_torque (steerRate steerAccel steerTubeTorque : list sample)
    (handlebarInertia damping friction : R) : result (list sample) :=
  a ← broadcast2 ssub
        ((fun x => Fin handlebarInertia * x)%S <$> steerAccel)
        ((fun x => Fin damping * x)%S <$> steerRate);
  b ← broadcast2 ssub a
        ((fun x => np_sign x * Fin friction)%S <$> steerRate);
  broadcast2 sadd b steerTubeTorque.

(** [steer_rate]. *)
Definition steer_rate (forkRate angularRateZ : list sample)
    : result (list sample) :=
  broadcast2 ssub forkRate angularRateZ.

(** [yaw_roll_pitch_rate]; the roll angle is a number (zero by default) or
    an array.  The tangent is the quotient of sine and cosine. *)
Definition stan (a : sample) : sample := (lift1 sin a / lift1 cos a)%S.

Definition yaw_roll_pitch_rate
    (angularRateX angularRateY angularRateZ : list sample) (lam : R)
    (rollAngle : Supply)
    : result (list sample * list sample * list sample) :=
  let xs := (fun x => x * Fin (sin lam))%S <$> angularRateX in
  let zc := (fun z => z * Fin (cos lam))%S <$> angularRateZ in
  let xc := (fun x => x * Fin (cos lam))%S <$> angularRateX in
  let zs := (fun z => z * Fin (sin lam))%S <$> angularRateZ in
  d ← broadcast2 ssub xs zc;
  yawRate ← array_op sdiv (sneg <$> (d : list sample))
               (supply_map (lift1 cos) rollAngle);
  rollRate ← broadcast2 sadd xc zs;
  t1 ← array_op smul xs (supply_map stan rollAngle);
  s ← broadcast2 sadd angularRateY t1;
  t2 ← array_op smul zc (supply_map stan rollAngle);
  pitchRate ← broadcast2 ssub s t2;
  Ok (yawRate, rollRate, pitchRate).

(** ** The text output of the VN-100 *)

(** [np.transpose(np.array(vnData))] for rows of one length: the columns
    ([NaN] stands in for a missing entry of a shorter row, which the rows
    built below never have); no rows give the empty array. *)
Definition np_transpose (rows : list (list sample)) : list (list sample) :=
  match rows with
  | [] => []
  | row0 :: _ =>
      (fun j => (fun row => default NaN (row !! j)) <$> rows)
        <$> seq 0 (length row0)
  end.

Section vnav.
(** [parse_vnav_string] works with regular expressions and the checksum of
    the string; it is taken as given, as is [float] on a string. *)
Context (parse_vnav_string : string -> list string * bool * option bool).
Context (float : string -> result sample).

(** The body of the loop of [replace_corrupt_strings_with_nan]. *)
Definition append_sample (ncols : nat) (vnData : list (list sample))
    (ivn : nat * string) : result (list (list sample)) :=
  let nanRow := replicate ncols NaN in
  let '(vnList, chkPass, vnrrg) := parse_vnav_string ivn.2 in
  let fields := slice vnList 1 (length vnList - 1) in
  if chkPass && bool_decide (length fields = ncols) then
    row ← mapM float fields;
    Ok (vnData ++ [row])
  else if decide (ivn.1 = 0%nat) then Ok (vnData ++ [nanRow])
  else Ok (vnData ++ [nanRow; nanRow]).

(** [replace_corrupt_strings_with_nan]. *)
Definition replace_corrupt_strings_with_nan (vnOutput vnCols : list string)
    : result (list (list sample)) :=
  vnData ← for_each (append_sample (length vnCols)) []
              (zip (seq 0 (length vnOutput)) vnOutput);
  let vnData := take (length vnOutput) vnData in
  Ok (np_transpose vnData).
End vnav.

(** Stand-ins for the examples: a parser that splits nothing and accepts
    only the string [ok], which it reads as the one field [1]. *)
Definition parse_ok (vnStr : string) : list string * bool * option bool :=
  if decide (vnStr = "ok"%string)
  then (["VNQMR"; "1"; "5A"]%string, true, Some false)
  else ([vnStr], false, None).

Definition float_one (_ : string) : result sample := Ok (Fin 1).

(* ================================================================= *)
(** * Properties *)

(** ** The result monad *)

Lemma bind_Ok {A B} (a : A) (f : A -> result B) : (Ok a ≫= f) = f a.
Proof. reflexivity. Qed.

Lemma bind_Raise {A B} (e : exn) (f : A -> result B) :
  (Raise e ≫= f) = Raise e.
Proof. reflexivity. Qed.

(** ** Calibration selection *)

Lemma insert_reverse_perm p l : insert_reverse p l ≡ₚ p :: l.
Proof.
  induction l as [|q l IH]; simpl; [done|].
  case (Z.leb_spec q.2 p.2); intros; [done|].
  rewrite IH. apply Permutation_swap.
Qed.

Lemma sort_reverse_perm l : sort_reverse l ≡ₚ l.
Proof.
  induction l as [|p l IH]; simpl; [done|].
  by rewrite insert_reverse_perm, IH.
Qed.

Lemma insert_reverse_sorted p l :
  StronglySorted date_desc l -> StronglySorted date_desc (insert_reverse p l).
Proof.
  induction 1 as [|q l Hs IH Hq]; simpl.
  - repeat constructor.
  - case (Z.leb_spec q.2 p.2); intros Hc.
    + constructor; [by constructor|].
      constructor; [exact Hc|].
      eapply Forall_impl; [exact Hq|]. unfold date_desc. intros; lia.
    + constructor; [exact IH|].
      rewrite insert_reverse_perm. constructor; [|exact Hq].
      unfold date_desc. lia.
Qed.

Lemma sort_reverse_sorted l : StronglySorted date_desc (sort_reverse l).
Proof.
  induction l; simpl; [constructor|by apply insert_reverse_sorted].
Qed.

Lemma enumerate_break_spec runDate l : forall i0 last,
  StronglySorted date_desc l -> l ≠ [] ->
  exists i p,
    enumerate_break runDate l i0 last = Some (i0 + i)%nat /\
    l !! i = Some p /\
    ((exists q, q ∈ l /\ (q.2 <= runDate)%Z) ->
       (p.2 <= runDate)%Z /\
       forall q, q ∈ l -> (q.2 <= runDate)%Z -> (q.2 <= p.2)%Z) /\
    ((forall q, q ∈ l -> (runDate < q.2)%Z) ->
       forall q, q ∈ l -> (p.2 <= q.2)%Z).
Proof.
  induction l as [|p l IH]; intros i0 last Hs Hne; [done|].
  apply StronglySorted_inv in Hs as [Hs Hp]. simpl.
  case (Z.leb_spec p.2 runDate); intros Hc.
  - exists 0%nat, p. rewrite Nat.add_0_r. split_and!; [done|done| |].
    + intros _. split; [done|]. intros q [->|Hq]%elem_of_cons _; [lia|].
      rewrite Forall_forall in Hp. by apply Hp.
    + intros Hall. assert (runDate < p.2)%Z by (apply Hall; left). lia.
  - destruct l as [|p' l'].
    + exists 0%nat, p. rewrite Nat.add_0_r. simpl. split_and!; [done|done| |].
      * intros (q & ->%list_elem_of_singleton & Hq). lia.
      * intros _ q ->%list_elem_of_singleton. lia.
    + destruct (IH (S i0) (Some i0) Hs) as (i & r & He & Hl & Hex & Hall);
        [done|].
      exists (S i), r. rewrite <- Nat.add_succ_comm. split_and!; [done|done| |].
      * intros (q & [->|Hq]%elem_of_cons & Hle); [lia|].
        destruct Hex as [Hr Hmax]; [by exists q|]. split; [done|].
        intros q' [->|Hq']%elem_of_cons Hle'; [lia|by apply Hmax].
      * intros Hgt q [->|Hq]%elem_of_cons.
        -- rewrite Forall_forall in Hp. apply (Hp r).
           by eapply list_elem_of_lookup_2.
        -- apply Hall; [|done]. intros q' Hq'. apply Hgt. by right.
Qed.

(** The lookup never fails on a sensor that has a record. *)
Lemma get_data_for_date_total (s : Sensor) (runDate : Z) :
  data s ≠ ∅ -> exists row, get_data_for_date s runDate = Ok row.
Proof.
  intros Hne. unfold get_data_for_date.
  set (f := fun kv : string * CalibrationRow => (kv.1, timeStamp kv.2)).
  set (l := sort_reverse (f <$> map_to_list (data s))).
  assert (Hl : l ≠ []).
  { unfold l. intros Hnil. apply Hne, map_to_list_empty_iff.
    apply fmap_nil_inv with (f := f).
    apply Permutation_nil_r. by rewrite <- Hnil, sort_reverse_perm. }
  destruct (enumerate_break_spec runDate l 0 None (sort_reverse_sorted _) Hl)
    as (i & p & He & Hi & _).
  rewrite He. simpl. rewrite Hi. simpl.
  assert (Hp : p ∈ f <$> map_to_list (data s)).
  { rewrite <- sort_reverse_perm. by eapply list_elem_of_lookup_2. }
  apply list_elem_of_fmap in Hp as ([k r] & -> & Hin%elem_of_map_to_list).
  simpl. rewrite Hin. by exists r.
Qed.

(** C1 (as amended).  A sensor with at least one calibration record always
    gets a record back: when some record is dated at or before the run, the
    one returned has the largest time stamp not after the run; when every
    record is dated after the run, no error is raised and the earliest
    record is returned. *)
Theorem get_data_for_date_most_recent (s : Sensor) (runDate : Z) :
  data s ≠ ∅ ->
  exists row,
    get_data_for_date s runDate = Ok row /\
    (exists k, data s !! k = Some row) /\
    ((exists k r, data s !! k = Some r /\ (timeStamp r <= runDate)%Z) ->
       (timeStamp row <= runDate)%Z /\
       forall k r, data s !! k = Some r -> (timeStamp r <= runDate)%Z ->
                   (timeStamp r <= timeStamp row)%Z) /\
    ((forall k r, data s !! k = Some r -> (runDate < timeStamp r)%Z) ->
       forall k r, data s !! k = Some r -> (timeStamp row <= timeStamp r)%Z).
Proof.
  intros Hne. unfold get_data_for_date.
  set (f := fun kv : string * CalibrationRow => (kv.1, timeStamp kv.2)).
  set (l := sort_reverse (f <$> map_to_list (data s))).
  assert (Hmem : forall q, q ∈ l <->
            exists k r, data s !! k = Some r /\ q = (k, timeStamp r)).
  { intros q. unfold l. rewrite sort_reverse_perm, list_elem_of_fmap. split.
    - intros ([k r] & -> & Hin%elem_of_map_to_list). by exists k, r.
    - intros (k & r & Hin & ->). exists (k, r).
      split; [done|by apply elem_of_map_to_list]. }
  assert (Hl : l ≠ []).
  { unfold l. intros Hnil. apply Hne, map_to_list_empty_iff.
    apply fmap_nil_inv with (f := f).
    apply Permutation_nil_r. by rewrite <- Hnil, sort_reverse_perm. }
  destruct (enumerate_break_spec runDate l 0 None (sort_reverse_sorted _) Hl)
    as (i & p & He & Hi & Hex & Hall).
  rewrite He. simpl. rewrite Hi. simpl.
  destruct (proj1 (Hmem p)) as (k & r & Hk & ->);
    [by eapply list_elem_of_lookup_2|].
  simpl. rewrite Hk. simpl. exists r. split_and!; [done|by exists k| |].
  - intros (k' & r' & Hk' & Hle).
    destruct Hex as [Hr Hmax].
    { exists (k', timeStamp r'). split; [apply Hmem; by exists k', r'|done]. }
    split; [done|]. intros k2 r2 Hk2 Hle2.
    apply (Hmax (k2, timeStamp r2)); [apply Hmem; by exists k2, r2|done].
  - intros Hgt k' r' Hk'.
    apply (Hall : _ -> forall q, _ -> (timeStamp r <= q.2)%Z)
      with (q := (k', timeStamp r')).
    + intros q (k2 & r2 & Hk2 & ->)%Hmem. by eapply Hgt.
    + apply Hmem. by exists k', r'.
Qed.

Lemma three_calibrations_lookup k r :
  data three_calibrations !! k = Some r ->
  r = calibration_at "00001" 10 \/ r = calibration_at "00002" 20 \/
  r = calibration_at "00003" 30.
Proof.
  unfold three_calibrations; simpl.
  intros [[_ <-]|[_ [[_ <-]|[_ [_ <-]%lookup_singleton_Some]
    ]%lookup_insert_Some]]%lookup_insert_Some; auto.
Qed.

(** C1, the claim as stated fails: with records at 10 < 20 < 30 a query at 5,
    below every record, raises nothing and returns the record at 10. *)
Lemma get_data_for_date_before_first :
  get_data_for_date three_calibrations 5 = Ok (calibration_at "00001" 10) /\
  (forall k r, data three_calibrations !! k = Some r -> (5 < timeStamp r)%Z).
Proof.
  split; [vm_compute; reflexivity|].
  intros k r [->|[->| ->]]%three_calibrations_lookup; simpl; lia.
Qed.

(** C1, witness: a query just after the second of three sessions. *)
Lemma get_data_for_date_most_recent_witness :
  get_data_for_date three_calibrations 21 = Ok (calibration_at "00002" 20) /\
  exists row,
    get_data_for_date three_calibrations 21 = Ok row /\
    (exists k, data three_calibrations !! k = Some row) /\
    ((exists k r, data three_calibrations !! k = Some r /\
                  (timeStamp r <= 21)%Z) ->
       (timeStamp row <= 21)%Z /\
       forall k r, data three_calibrations !! k = Some r ->
                   (timeStamp r <= 21)%Z -> (timeStamp r <= timeStamp row)%Z) /\
    ((forall k r, data three_calibrations !! k = Some r ->
                  (21 < timeStamp r)%Z) ->
       forall k r, data three_calibrations !! k = Some r ->
                   (timeStamp row <= timeStamp r)%Z).
Proof.
  split; [vm_compute; reflexivity|].
  apply (get_data_for_date_most_recent three_calibrations 21).
  intros H. discriminate (f_equal (fun m => m !! "00001") H).
Defined.


(** ** Unit conversion *)

Lemma append_String a (u v : string) : String a u +:+ v = String a (u +:+ v).
Proof. reflexivity. Qed.

Lemma append_EmptyString (v : string) : "" +:+ v = v.
Proof. reflexivity. Qed.

Ltac split_conversion_key :=
  repeat match goal with
  | H : _ = (?u +:+ _)%string |- _ =>
      is_var u; destruct u;
      rewrite ?append_String, ?append_EmptyString in H; simplify_eq
  end.

(** The registered pairs, read off the keys of [conversions]. *)
Lemma conversions_registered u1 u2 c :
  conversions !! conversion_key u1 u2 = Some c ->
  (u1, u2, c) ∈
    [ ("degree", "radian", PI / 180);
      ("degree/second", "radian/second", PI / 180);
      ("degree/second/second", "radian/second/second", PI / 180);
      ("inch*pound", "newton*meter", 25.4 / 1000 * 4.44822162);
      ("pound", "newton", 4.44822162);
      ("feet/second", "meter/second", 12 * 2.54 / 100);
      ("mile/hour", "meter/second", 0.00254 * 12 / 5280 / 3600) ]%string.
Proof.
  unfold conversions, conversion_key. cbn [list_to_map foldr uncurry fst snd].
  rewrite !lookup_insert_Some, lookup_empty.
  intros H. 
  repeat (destruct H as [[H <-]|[_ H]];
    [split_conversion_key;
     repeat first [by left | right]|]).
  done.
Qed.


Lemma conversions_one_way u1 u2 c :
  conversions !! conversion_key u1 u2 = Some c ->
  conversions !! conversion_key u2 u1 = None /\ u1 ≠ u2 /\ c ≠ 0.
Proof.
  intros H%conversions_registered. pose proof PI_RGT_0.
  repeat (apply elem_of_cons in H as [H|H];
          [injection H as -> -> ->; split_and!;
           [reflexivity|discriminate|lra]|]).
  by apply elem_of_nil in H.
Qed.

Lemma sample_div_mul (x : sample) (c : R) :
  c ≠ 0 -> (x / Fin c * Fin c)%S = x.
Proof.
  intros Hc. destruct x as [|x]; [done|]. unfold sdiv, smul, lift2.
  destruct (decide (c = 0)); [done|]. f_equal. by field.
Qed.

Lemma sample_mul_div (x : sample) (c : R) :
  c ≠ 0 -> (x * Fin c / Fin c)%S = x.
Proof.
  intros Hc. destruct x as [|x]; [done|]. unfold sdiv, smul, lift2.
  destruct (decide (c = 0)); [done|]. f_equal. by field.
Qed.

(** The two successful branches of [convert_units]. *)
Lemma convert_units_multiplies (s : Signal) (su u : string) (c : R) :
  units s = Some su -> u ≠ su ->
  conversions !! conversion_key su u = Some c ->
  convert_units s u =
    Ok {| samples := (fun x => x * Fin c)%S <$> samples s;
          name := name s; runid := runid s; sampleRate := sampleRate s;
          source := source s; units := Some u |}.
Proof.
  intros Hu Hne H1. unfold convert_units, convert_samples. rewrite Hu.
  rewrite decide_False by congruence. by rewrite H1.
Qed.

Lemma convert_units_divides (s : Signal) (su u : string) (c : R) :
  units s = Some su -> u ≠ su ->
  conversions !! conversion_key su u = None ->
  conversions !! conversion_key u su = Some c ->
  convert_units s u =
    Ok {| samples := (fun x => x / Fin c)%S <$> samples s;
          name := name s; runid := runid s; sampleRate := sampleRate s;
          source := source s; units := Some u |}.
Proof.
  intros Hu Hne H1 H2. unfold convert_units, convert_samples. rewrite Hu.
  rewrite decide_False by congruence. by rewrite H1, H2.
Qed.

(** C6.  [convert_units] is the identity on a signal that already has the
    target unit; it raises [KeyError] when neither the pair nor its reverse
    is a key of [conversions]; otherwise it returns the signal with every
    sample multiplied by the registered factor (divided by it when only the
    reverse pair is registered), the units set to the target and the other
    metadata kept. *)
Theorem convert_units_spec (s : Signal) (su u : string) :
  units s = Some su ->
  (u = su -> convert_units s u = Ok s) /\
  (u ≠ su ->
   conversions !! conversion_key su u = None ->
   conversions !! conversion_key u su = None ->
   convert_units s u = Raise KeyError) /\
  (u ≠ su ->
   forall c, conversions !! conversion_key su u = Some c ->
   convert_units s u =
     Ok {| samples := (fun x => x * Fin c)%S <$> samples s;
           name := name s; runid := runid s; sampleRate := sampleRate s;
           source := source s; units := Some u |}) /\
  (u ≠ su ->
   forall c, conversions !! conversion_key su u = None ->
   conversions !! conversion_key u su = Some c ->
   convert_units s u =
     Ok {| samples := (fun x => x / Fin c)%S <$> samples s;
           name := name s; runid := runid s; sampleRate := sampleRate s;
           source := source s; units := Some u |}).
Proof.
  intros Hu. unfold convert_units, convert_samples. rewrite Hu.
  split_and!.
  - intros ->. by rewrite decide_True.
  - intros Hne H1 H2. rewrite decide_False by congruence.
    by rewrite H1, H2.
  - intros Hne c H1. rewrite decide_False by congruence.
    by rewrite H1.
  - intros Hne c H1 H2. rewrite decide_False by congruence.
    by rewrite H1, H2.
Qed.


(** C6, witness: degrees to degrees, to an unknown unit, to radians, and
    radians to degrees through the reverse pair. *)
Lemma convert_units_spec_witness :
  convert_units steer_angle_degree "degree" = Ok steer_angle_degree /\
  convert_units steer_angle_degree "volt" = Raise KeyError /\
  convert_units steer_angle_degree "radian" =
    Ok {| samples := [Fin 0 * Fin (PI / 180); Fin 90 * Fin (PI / 180);
                      NaN * Fin (PI / 180)]%S;
          name := Some "SteerAngle"; runid := "00104"; sampleRate := 200;
          source := Some "NI"; units := Some "radian" |} /\
  convert_units steer_angle_radian "degree" =
    Ok {| samples := [Fin 0 / Fin (PI / 180); Fin 1 / Fin (PI / 180);
                      NaN / Fin (PI / 180)]%S;
          name := Some "SteerAngle"; runid := "00104"; sampleRate := 200;
          source := Some "NI"; units := Some "degree" |}.
Proof.
  split_and!.
  - by apply (convert_units_spec steer_angle_degree "degree" "degree").
  - by apply (convert_units_spec steer_angle_degree "degree" "volt").
  - by apply (convert_units_spec steer_angle_degree "degree" "radian").
  - by apply (convert_units_spec steer_angle_radian "radian" "degree").
Defined.

(** C7.  For a registered pair [(u1, u2)] with factor [c] and a signal in
    [u2], converting to [u1] divides every sample by [c], and converting the
    result back to [u2] multiplies by the same [c] and gives the original
    signal back (samples are reals or NaN, so the round trip is exact). *)
Theorem convert_units_round_trip (s : Signal) (u1 u2 : string) (c : R) :
  conversions !! conversion_key u1 u2 = Some c ->
  units s = Some u2 ->
  exists s1,
    convert_units s u1 = Ok s1 /\
    samples s1 = (fun x => x / Fin c)%S <$> samples s /\
    convert_units s1 u2 =
      Ok (with_samples s ((fun x => x * Fin c)%S <$> samples s1)) /\
    convert_units s1 u2 = Ok s.
Proof.
  intros Hreg Hu.
  destruct (conversions_one_way _ _ _ Hreg) as (Hrev & Hne & Hc).
  eexists. split; [by apply (convert_units_divides s u2 u1 c)|].
  split; [done|].
  match goal with |- context [convert_units ?t _] => set (s1 := t) end.
  rewrite (convert_units_multiplies s1 u1 u2 c eq_refl (not_eq_sym Hne) Hreg).
  simpl.
  assert (Hs : (fun x => x * Fin c)%S <$> ((fun x => x / Fin c)%S <$> samples s)
               = samples s).
  { rewrite <- list_fmap_compose. rewrite <- (list_fmap_id (samples s)) at 2.
    apply list_fmap_ext. intros _ x _. simpl. by apply sample_div_mul. }
  unfold with_samples. simpl. rewrite Hs, <- Hu. by destruct s.
Qed.

(** C7, witness: radians to degrees and back. *)
Lemma convert_units_round_trip_witness :
  exists s1,
    convert_units steer_angle_radian "degree" = Ok s1 /\
    samples s1 = (fun x => x / Fin (PI / 180))%S <$> samples steer_angle_radian /\
    convert_units s1 "radian" =
      Ok (with_samples steer_angle_radian
            ((fun x => x * Fin (PI / 180))%S <$> samples s1)) /\
    convert_units s1 "radian" = Ok steer_angle_radian.
Proof.
  by apply (convert_units_round_trip steer_angle_radian "degree" "radian").
Defined.

(** The older [DataProcessor.py] has no equal-units shortcut: asking for the
    unit the signal already has looks up the key [u->u], which is not
    registered, and raises [KeyError]. *)
Lemma legacy_convert_units_same_units :
  legacy_convert_units steer_angle_degree "degree" = Raise KeyError.
Proof. reflexivity. Qed.

(** Its round trip restores the samples as well, but not the name and the
    source, which the arithmetic drops. *)
Lemma legacy_convert_units_round_trip (s : Signal) (u1 u2 : string) (c : R) :
  conversions !! conversion_key u1 u2 = Some c ->
  units s = Some u2 ->
  exists s1 s2,
    legacy_convert_units s u1 = Ok s1 /\
    legacy_convert_units s1 u2 = Ok s2 /\
    samples s2 = samples s /\ units s2 = units s.
Proof.
  intros Hreg Hu.
  destruct (conversions_one_way _ _ _ Hreg) as (Hrev & Hne & Hc).
  eexists _, _. split.
  { unfold legacy_convert_units, convert_samples.
    rewrite Hu, Hrev, Hreg. reflexivity. }
  split.
  { unfold legacy_convert_units, convert_samples. simpl.
    rewrite Hreg. reflexivity. }
  split; [|done]. simpl.
  rewrite <- list_fmap_compose. rewrite <- (list_fmap_id (samples s)) at 2.
  apply list_fmap_ext. intros _ x _. simpl. by apply sample_div_mul.
Qed.


(** ** Raw-to-physical scaling *)

Lemma fmap_scalar_op (f g : sample -> sample) (a : list sample) (v : sample)
    (h : sample -> sample -> sample) :
  (forall x, g (f x) = h x v) ->
  g <$> (f <$> a) = zip_with h a (replicate (length a) v).
Proof.
  intros Hh. induction a as [|x a IH]; simpl; [done|].
  rewrite Hh. f_equal. exact IH.
Qed.

Lemma fmap_zip_op (f : sample -> sample -> sample) (g k : sample -> sample)
    (h : sample -> sample -> sample) (a b : list sample) :
  (forall x y, g (f x (k y)) = h x y) ->
  g <$> zip_with f a (k <$> b) = zip_with h a b.
Proof.
  intros Hh. revert b. induction a as [|x a IH]; intros [|y b]; simpl; try done.
  rewrite Hh. f_equal. apply IH.
Qed.

(** C5.  A raw signal of calibration type [bias] whose name is not in the
    exclusion list, with a sensor, a calibration record and a supply
    voltage (a scalar, or an array as long as the signal), scales to
    [slope * (raw - measuredSupplyV / calibSupplyV * bias)] sample by
    sample; the result carries the signal name and the units of the
    calibration record and the source of the raw channel. *)
Theorem scale_bias (rs : RawSignal) (sen : Sensor) (sup : Supply) :
  calibrationType rs = Some "bias"%string ->
  name (signal rs) ∉ Some <$> doNotScale ->
  sensor rs = Some sen ->
  data sen ≠ ∅ ->
  supply rs = Some sup ->
  length (supply_values sup (length (samples (signal rs))))
    = length (samples (signal rs)) ->
  exists calibData,
    get_data_for_date sen (raw_timeStamp rs) = Ok calibData /\
    scale rs =
      Ok {| samples := bias_equation calibData (samples (signal rs)) sup;
            name := Some (cal_signal calibData);
            runid := runid (signal rs);
            sampleRate := sampleRate (signal rs);
            source := source (signal rs);
            units := Some (cal_units calibData) |}.
Proof.
  intros Hty Hname Hsen Hdata Hsup Hlen.
  destruct (get_data_for_date_total sen (raw_timeStamp rs) Hdata)
    as [calibData Hcal].
  exists calibData. split; [done|].
  unfold scale, not_scaled. rewrite Hty.
  rewrite (bool_decide_eq_false_2 (Some "bias"%string ∈ _)).
  2:{ rewrite !elem_of_cons, elem_of_nil. intros [?|[?|[]]]; discriminate. }
  rewrite (bool_decide_eq_false_2 _ Hname). simpl.
  rewrite Hsen. simpl. rewrite Hcal. simpl. rewrite Hsup. simpl.
  unfold calibrated, bias_equation.
  destruct sup as [v|b]; simpl in *.
  - do 2 f_equal. by apply fmap_scalar_op.
  - unfold broadcast2. rewrite length_fmap.
    rewrite decide_True by done. simpl. do 2 f_equal.
    by apply fmap_zip_op.
Qed.


(** Evaluation of closed sample expressions. *)
Ltac sample_eval :=
  unfold sadd, ssub, smul, sdiv, sneg, lift1, lift2;
  repeat (case_decide; [exfalso; lra|]);
  try (f_equal; lra).

(** C5, witness: a rate-gyro channel, run at time 21, supply 10 V. *)
Lemma scale_bias_witness :
  exists calibData,
    get_data_for_date three_calibrations 21 = Ok calibData /\
    scale rate_gyro_raw =
      Ok {| samples := bias_equation calibData [Fin 4; NaN; Fin 3]
                         (SupplyScalar (Fin 10));
            name := Some (cal_signal calibData);
            runid := "00104";
            sampleRate := 200;
            source := Some "NI";
            units := Some (cal_units calibData) |}.
Proof.
  apply (scale_bias rate_gyro_raw three_calibrations (SupplyScalar (Fin 10)));
    try reflexivity.
  - simpl. rewrite !elem_of_cons, elem_of_nil. intros [?|[?|[?|[]]]]; discriminate.
  - intros H. discriminate (f_equal (fun m => m !! "00001"%string) H).
Defined.

(** On the same channel the two versions of the bias equation disagree:
    the package gives [2 * (4 - 10 / 5 * 1) = 4] for the first sample, the
    older script [5 / 10 * 2 * (4 - 1) = 3]. *)
Lemma legacy_scale_bias_differs :
  exists s1 s2,
    scale rate_gyro_raw = Ok s1 /\ legacy_scale rate_gyro_raw = Ok s2 /\
    samples s1 !! 0%nat = Some (Fin 4) /\
    samples s2 !! 0%nat = Some (Fin 3).
Proof.
  eexists _, _. split; [reflexivity|]. split; [reflexivity|].
  simpl. split; f_equal; sample_eval.
Qed.


(** ** Splitting around NaN *)

Example split_around_nan_example :
  split_around_nan [Fin 1; NaN; NaN; Fin 2; Fin 3; NaN] =
  ([(0, 1); (1, 2); (2, 3); (3, 5); (5, 6)]%nat,
   [[Fin 1]; [NaN]; [NaN]; [Fin 2; Fin 3]; [NaN]]).
Proof. reflexivity. Qed.

Example split_around_nan_leading :
  split_around_nan [NaN; Fin 2] = ([(0, 1); (1, 2)]%nat, [[NaN]; [Fin 2]]).
Proof. reflexivity. Qed.


Lemma isnan_true x : isnan x = true -> x = NaN.
Proof. by destruct x. Qed.

Lemma any_isnan_false arr : any_isnan arr = false <-> nan_free arr.
Proof.
  unfold any_isnan, nan_free. induction arr as [|x arr IH]; simpl.
  - split; [constructor|done].
  - rewrite orb_false_iff, IH, Forall_cons. tauto.
Qed.

Lemma nonzero_from_nan_free i arr :
  nan_free arr -> nonzero_from i (isnan <$> arr) = [].
Proof.
  intros H. revert i. induction H as [|x arr Hx _ IH]; intros i; simpl; [done|].
  rewrite Hx. apply IH.
Qed.

Lemma slice_prefix {A} (pre suf : list A) start :
  (start <= length pre)%nat ->
  slice (pre ++ suf) start (length pre) = drop start pre.
Proof.
  intros Hs. unfold slice. rewrite drop_app_le by done.
  apply take_app_length'. rewrite length_drop. lia.
Qed.

Lemma slice_to_end {A} (l : list A) start :
  slice l start (length l) = drop start l.
Proof. unfold slice. apply take_ge. rewrite length_drop. lia. Qed.

Lemma split_at_nonzero pre suf start :
  (start <= length pre)%nat ->
  split_at (pre ++ suf) start (nonzero_from (length pre) (isnan <$> suf))
  = first_split_rec (drop start pre) suf.
Proof.
  revert pre start. induction suf as [|x suf IH]; intros pre start Hs; simpl.
  - rewrite slice_to_end, app_nil_r. done.
  - destruct (isnan x) eqn:Hx; simpl.
    + rewrite slice_prefix by done. f_equal.
      specialize (IH (pre ++ [x]) (length pre)).
      rewrite length_app, Nat.add_1_r, <- app_assoc in IH. simpl in IH.
      etrans; [apply IH; lia|]. by rewrite drop_app_length.
    + specialize (IH (pre ++ [x]) start).
      rewrite length_app, Nat.add_1_r, <- app_assoc in IH. simpl in IH.
      etrans; [apply IH; lia|]. by rewrite drop_app_le.
Qed.

Lemma first_split_is_rec sig :
  np_split sig (np_nonzero (isnan <$> sig)) = first_split_rec [] sig.
Proof. apply (split_at_nonzero [] sig 0). simpl. lia. Qed.

Lemma first_split_rec_spec acc suf :
  piece_ok acc ->
  Forall piece_ok (first_split_rec acc suf) /\
  concat (first_split_rec acc suf) = acc ++ suf.
Proof.
  revert acc. induction suf as [|x suf IH]; intros acc Hacc; simpl.
  - split; [by apply Forall_singleton|done].
  - destruct (isnan x) eqn:Hx.
    + apply isnan_true in Hx as ->.
      destruct (IH [NaN]) as [IH1 IH2].
      { right. exists []. split; [done|constructor]. }
      split; [by constructor|]. simpl. by rewrite IH2.
    + destruct (IH (acc ++ [x])) as [IH1 IH2].
      { destruct Hacc as [Hf|(rest & -> & Hf)].
        - left. apply Forall_app. split; [done|by apply Forall_singleton].
        - right. exists (rest ++ [x]). split; [done|].
          apply Forall_app. split; [done|by apply Forall_singleton]. }
      split; [done|]. by rewrite IH2, <- app_assoc.
Qed.

Lemma split_again_spec arr :
  piece_ok arr ->
  Forall (fun s => s = [NaN] \/ nan_free s) (split_again arr) /\
  concat (split_again arr) = arr.
Proof.
  unfold split_again. intros [Hf|(rest & -> & Hf)].
  - rewrite (proj2 (any_isnan_false arr) Hf). simpl.
    split; [apply Forall_singleton; by right|by rewrite app_nil_r].
  - unfold any_isnan, np_split, np_nonzero. simpl.
    rewrite (nonzero_from_nan_free _ _ Hf). simpl.
    unfold slice. simpl. rewrite take_0, drop_0, take_ge by lia.
    split; [|by rewrite app_nil_r].
    apply Forall_cons. split; [by left|]. apply Forall_singleton. by right.
Qed.


Lemma split_again_all pieces :
  Forall piece_ok pieces ->
  Forall (fun s => s = [NaN] \/ nan_free s) (concat (split_again <$> pieces)) /\
  concat (concat (split_again <$> pieces)) = concat pieces.
Proof.
  induction 1 as [|arr pieces Harr _ [IH1 IH2]]; csimpl; [by split|].
  destruct (split_again_spec arr Harr) as [H1 H2].
  split; [by apply Forall_app|]. by rewrite concat_app, H2, IH2.
Qed.

Lemma remove_emptys_spec (arrays : list (list sample)) :
  Forall (fun s => s = [NaN] \/ nan_free s) arrays ->
  Forall section_ok (filter (fun arr => length arr ≠ 0%nat) arrays) /\
  concat (filter (fun arr => length arr ≠ 0%nat) arrays) = concat arrays.
Proof.
  induction 1 as [|arr arrays Harr _ [IH1 IH2]]; [by split|].
  rewrite filter_cons. case_decide as Hlen; simpl.
  - split; [|by rewrite IH2]. constructor; [|done].
    destruct Harr as [->|Hf]; [by left|]. right. split; [|done].
    by intros ->.
  - destruct arr; [|simpl in Hlen; lia]. done.
Qed.

Lemma build_indices_length count arrays :
  length (build_indices count arrays) = length arrays.
Proof.
  revert count. induction arrays as [|arr arrays IH]; intros count; simpl;
    [done|]. by rewrite IH.
Qed.

(** Every index pair is the pair of running offsets of its section. *)
Lemma build_indices_offsets arrays : forall count k idx arr,
  Forall section_ok arrays ->
  build_indices count arrays !! k = Some idx ->
  arrays !! k = Some arr ->
  idx = ((count + length (concat (take k arrays)))%nat,
         (count + length (concat (take k arrays)) + length arr)%nat).
Proof.
  induction arrays as [|a arrays IH]; intros count k idx arr Hok Hi Ha;
    [done|].
  apply Forall_cons in Hok as [Hok1 Hok].
  destruct k as [|k]; simpl in *.
  - injection Ha as <-. injection Hi as <-. rewrite Nat.add_0_r.
    destruct Hok1 as [->|[_ Hf]]; simpl.
    + f_equal; lia.
    + rewrite (proj2 (any_isnan_false a) Hf). f_equal; lia.
  - rewrite (IH _ _ _ _ Hok Hi Ha), length_app. f_equal; lia.
Qed.

Lemma slice_concat {A} (arrays : list (list A)) k arr :
  arrays !! k = Some arr ->
  slice (concat arrays) (length (concat (take k arrays)))
        (length (concat (take k arrays)) + length arr) = arr.
Proof.
  intros Hk. rewrite <- (take_drop_middle _ _ _ Hk) at 1.
  rewrite concat_app. simpl. unfold slice.
  rewrite drop_app_length.
  replace (length (concat (take k arrays)) + length arr
           - length (concat (take k arrays)))%nat with (length arr) by lia.
  apply take_app_length.
Qed.

(** C10 (as amended).  For a non-empty array, [split_around_nan] returns as
    many index pairs as sections, each section is the slice of the input
    that its pair names, and each section is a single NaN or a non-empty
    run without NaN; an input without NaN comes back whole, as the one
    pair [(0, len(sig))] and the one section [sig]. *)
Theorem split_around_nan_sections (sig : list sample) :
  sig ≠ [] ->
  let '(indices, arrays) := split_around_nan sig in
  length indices = length arrays /\
  (forall k idx arr,
     indices !! k = Some idx -> arrays !! k = Some arr ->
     slice sig idx.1 idx.2 = arr) /\
  Forall section_ok arrays /\
  (nan_free sig -> indices = [(0%nat, length sig)] /\ arrays = [sig]).
Proof.
  intros Hne. unfold split_around_nan.
  destruct (any_isnan sig) eqn:Hany.
  - rewrite first_split_is_rec.
    destruct (first_split_rec_spec [] sig) as [Hp Hc]; [left; constructor|].
    destruct (split_again_all _ Hp) as [Hs Hcs].
    destruct (remove_emptys_spec _ Hs) as [Hok Hco].
    set (arrays := filter _ _) in *.
    split; [apply build_indices_length|]. split; [|split; [done|]].
    + intros k idx arr Hi Ha.
      rewrite (build_indices_offsets _ _ _ _ _ Hok Hi Ha). simpl.
      assert (Hsig : concat arrays = sig) by by rewrite Hco, Hcs, Hc.
      rewrite <- Hsig. by apply slice_concat.
    + intros Hf%any_isnan_false. congruence.
  - split; [done|]. split; [|split; [|done]].
    + intros [|k] idx arr; simpl; [|done]. intros [= <-] [= <-].
      unfold slice. simpl. rewrite drop_0. apply take_ge. lia.
    + apply Forall_singleton. right. split; [done|].
      by apply any_isnan_false.
Qed.


(** C10, the claim as stated fails on the empty array: it has no NaN, so it
    comes back as one section, which is empty. *)
Lemma split_around_nan_empty :
  split_around_nan [] = ([(0, 0)%nat], [[]]) /\
  nan_free [] /\
  ~ Forall (fun arr : list sample => arr ≠ [])
           (split_around_nan []).2.
Proof.
  split; [reflexivity|]. split; [constructor|].
  simpl. intros H. apply Forall_cons in H as [H _]. by apply H.
Qed.

(** C10, witness: an array with a double NaN inside and a NaN at the end. *)
Lemma split_around_nan_sections_witness :
  let '(indices, arrays) :=
    split_around_nan [Fin 1; NaN; NaN; Fin 2; Fin 3; NaN] in
  length indices = length arrays /\
  (forall k idx arr,
     indices !! k = Some idx -> arrays !! k = Some arr ->
     slice [Fin 1; NaN; NaN; Fin 2; Fin 3; NaN] idx.1 idx.2 = arr) /\
  Forall section_ok arrays /\
  (nan_free [Fin 1; NaN; NaN; Fin 2; Fin 3; NaN] ->
   indices = [(0%nat, 6%nat)] /\
   arrays = [[Fin 1; NaN; NaN; Fin 2; Fin 3; NaN]]).
Proof.
  apply (split_around_nan_sections [Fin 1; NaN; NaN; Fin 2; Fin 3; NaN]).
  discriminate.
Defined.


(** ** Masks over sorted time vectors *)

Lemma nonzero_from_app i a b :
  nonzero_from i (a ++ b)
  = nonzero_from i a ++ nonzero_from (i + length a) b.
Proof.
  revert i. induction a as [|x a IH]; intros i; simpl.
  - by rewrite Nat.add_0_r.
  - rewrite IH, <- Nat.add_succ_comm. by destruct x.
Qed.

Lemma nonzero_from_false i n : nonzero_from i (replicate n false) = [].
Proof. revert i. induction n as [|n IH]; intros i; simpl; [done|apply IH]. Qed.

Lemma nonzero_from_true i n : nonzero_from i (replicate n true) = seq i n.
Proof.
  revert i. induction n as [|n IH]; intros i; simpl; [done|]. by rewrite IH.
Qed.

Lemma fancy_index_seq {A} (l : list A) a j :
  (a + j <= length l)%nat -> fancy_index l (seq a j) = Ok (take j (drop a l)).
Proof.
  revert a. induction j as [|j IH]; intros a Hj; simpl; [done|].
  destruct (lookup_lt_is_Some_2 l a) as [x Hx]; [lia|].
  rewrite Hx. simpl. rewrite IH by lia. simpl.
  by rewrite (drop_S _ _ _ Hx).
Qed.

Section sorted_masks.
Context (P : R -> Prop) `{!forall x, Decision (P x)}.

Lemma filter_none (t : list R) :
  Forall (fun x => ~ P x) t -> filter P t = [].
Proof.
  induction 1 as [|x t Hx _ IH]; [done|]. by rewrite filter_cons_False.
Qed.

Lemma filter_all (t : list R) : Forall P t -> filter P t = t.
Proof.
  induction 1 as [|x t Hx _ IH]; [done|].
  rewrite filter_cons_True by done. by rewrite IH.
Qed.

(** A property that holds on an initial part of a sorted vector. *)
Lemma sorted_mask_prefix (t : list R) :
  StronglySorted Rle t ->
  (forall x y, x <= y -> P y -> P x) ->
  ((fun x => bool_decide (P x)) <$> t) = replicate (length (filter P t)) true
           ++ replicate (length t - length (filter P t)) false /\
  filter P t = take (length (filter P t)) t.
Proof.
  intros Hs Hdown.
  induction Hs as [|x t Hs IH Hx]; [done|].
  rewrite fmap_cons. destruct IH as [IH1 IH2].
  destruct (decide (P x)) as [HP|HP].
  - rewrite filter_cons_True by done.
    rewrite bool_decide_eq_true_2 by done. simpl.
    rewrite IH1 at 1. split; [done|]. by rewrite <- IH2.
  - rewrite filter_cons_False by done.
    rewrite bool_decide_eq_false_2 by done.
    assert (Hnone : filter P t = []).
    { apply filter_none. eapply Forall_impl; [exact Hx|].
      intros y Hxy HPy. apply HP. by eapply Hdown. }
    rewrite Hnone in *. simpl in *. split; [|done].
    rewrite Nat.sub_0_r in IH1. by rewrite IH1.
Qed.

(** A property that holds on a final part of a sorted vector. *)
Lemma sorted_mask_suffix (t : list R) :
  StronglySorted Rle t ->
  (forall x y, x <= y -> P x -> P y) ->
  ((fun x => bool_decide (P x)) <$> t) = replicate (length t - length (filter P t)) false
           ++ replicate (length (filter P t)) true /\
  filter P t = drop (length t - length (filter P t)) t.
Proof.
  intros Hs Hup.
  induction Hs as [|x t Hs IH Hx]; [done|].
  rewrite fmap_cons. destruct IH as [IH1 IH2].
  pose proof (length_filter P t) as Hle.
  destruct (decide (P x)) as [HP|HP].
  - rewrite filter_cons_True by done.
    rewrite bool_decide_eq_true_2 by done.
    assert (Hall : filter P t = t).
    { apply filter_all. eapply Forall_impl; [exact Hx|].
      intros y Hxy. by eapply Hup. }
    rewrite Hall in *. simpl. rewrite Nat.sub_diag in *. simpl in *.
    split; [by f_equal|done].
  - rewrite filter_cons_False by done.
    rewrite bool_decide_eq_false_2 by done. simpl.
    replace (S (length t) - length (filter P t))%nat
      with (S (length t - length (filter P t))) by lia.
    simpl. split; [by f_equal|done].
Qed.

(** Indexing with such masks takes a prefix, or drops one. *)
Lemma index_mask_prefix {A} (t : list R) (l : list A) :
  StronglySorted Rle t ->
  (forall x y, x <= y -> P y -> P x) ->
  (length t <= length l)%nat ->
  fancy_index l (np_nonzero (((fun x => bool_decide (P x)) <$> t))) = Ok (take (length (filter P t)) l).
Proof.
  intros Hs Hdown Hlen.
  destruct (sorted_mask_prefix t Hs Hdown) as [-> _].
  pose proof (length_filter P t).
  unfold np_nonzero.
  rewrite nonzero_from_app, nonzero_from_true, nonzero_from_false, app_nil_r.
  rewrite fancy_index_seq by lia. by rewrite drop_0.
Qed.

Lemma index_mask_suffix {A} (t : list R) (l : list A) :
  StronglySorted Rle t ->
  (forall x y, x <= y -> P x -> P y) ->
  length t = length l ->
  fancy_index l (np_nonzero (((fun x => bool_decide (P x)) <$> t)))
  = Ok (drop (length t - length (filter P t)) l).
Proof.
  intros Hs Hup Hlen.
  destruct (sorted_mask_suffix t Hs Hup) as [-> _].
  pose proof (length_filter P t).
  unfold np_nonzero.
  rewrite nonzero_from_app, nonzero_from_false, nonzero_from_true.
  rewrite length_replicate. simpl.
  rewrite fancy_index_seq by lia. f_equal. apply take_ge.
  rewrite length_drop. lia.
Qed.

End sorted_masks.


(** ** Time vectors *)

Lemma time_vector_length n r : length (time_vector n r) = n.
Proof. unfold time_vector. by rewrite length_fmap, length_seq. Qed.

Lemma time_vector_sorted_from a n r :
  0 < r -> StronglySorted Rle ((fun i => INR i / r) <$> seq a n).
Proof.
  intros Hr. revert a. induction n as [|n IH]; intros a; csimpl.
  - constructor.
  - constructor; [apply IH|]. apply Forall_fmap, Forall_forall.
    intros i [Hi _]%elem_of_seq. simpl.
    apply Rmult_le_compat_r; [left; by apply Rinv_0_lt_compat|].
    apply le_INR. lia.
Qed.

Lemma time_vector_sorted n r : 0 < r -> StronglySorted Rle (time_vector n r).
Proof. apply time_vector_sorted_from. Qed.

Lemma time_vector_last n r :
  last (time_vector (S n) r) = Some (INR n / r).
Proof.
  unfold time_vector. rewrite seq_S, fmap_app. simpl. by rewrite last_snoc.
Qed.

Lemma time_vector_head n r : head (time_vector (S n) r) = Some 0.
Proof. unfold time_vector. simpl. f_equal. unfold Rdiv. apply Rmult_0_l. Qed.

Lemma sorted_fmap_shift (c : R) (t : list R) :
  StronglySorted Rle t -> StronglySorted Rle ((fun x => x + c) <$> t).
Proof.
  induction 1 as [|x t _ IH Hx]; csimpl; constructor; [done|].
  apply Forall_fmap. eapply Forall_impl; [exact Hx|]. simpl. intros; lra.
Qed.

Lemma sorted_last_max (t : list R) e :
  StronglySorted Rle t -> last t = Some e -> Forall (fun x => x <= e) t.
Proof.
  induction 1 as [|x t _ IH Hx]; [done|]. intros Hl.
  destruct t as [|y t].
  - injection Hl as <-. constructor; [lra|constructor].
  - rewrite last_cons_cons in Hl. specialize (IH Hl).
    constructor; [|done]. rewrite Forall_forall in Hx, IH.
    transitivity y; [apply Hx; left|apply IH; left].
Qed.

Lemma sorted_head_min (t : list R) e :
  StronglySorted Rle t -> head t = Some e -> Forall (fun x => e <= x) t.
Proof.
  destruct 1 as [|x t _ Hx]; [done|]. intros [= <-].
  constructor; [lra|done].
Qed.

Lemma sorted_filter (P : R -> Prop) `{!forall x, Decision (P x)} (t : list R) :
  StronglySorted Rle t -> StronglySorted Rle (filter P t).
Proof.
  induction 1 as [|x t _ IH Hx]; [constructor|].
  rewrite filter_cons. case_decide; [|done].
  constructor; [done|]. rewrite Forall_forall in *.
  intros y [_ Hy]%list_elem_of_filter. by apply Hx.
Qed.


(** ** Truncation *)

(** The two masks of the VN branch select the same samples: a time of the
    vector is at most the last common time exactly when it is below the
    bound that defines the common times. *)
Lemma mask_upto_last (t : list R) (c e : R) :
  StronglySorted Rle t ->
  last (filter (fun x => x < c) t) = Some e ->
  (fun x => bool_decide (x <= e)) <$> t = (fun x => bool_decide (x < c)) <$> t.
Proof.
  intros Hs He. apply list_fmap_ext. intros i x Hx. apply bool_decide_ext.
  pose proof (last_Some_elem_of _ _ He) as [Hec _]%list_elem_of_filter.
  split; [lra|]. intros Hxc.
  pose proof (sorted_last_max _ _ (sorted_filter _ t Hs) He) as Hmax.
  rewrite Forall_forall in Hmax. apply Hmax, list_elem_of_filter.
  split; [done|]. by eapply list_elem_of_lookup_2.
Qed.

(** The common time interval of [truncate_data]. *)
Lemma truncate_common (n : nat) (r tau : R) :
  0 < r ->
  last_item ((fun x => x - tau) <$> time_vector (S n) r)
  = Ok (INR n / r - tau) /\
  fancy_index (time_vector (S n) r)
    (np_nonzero ((fun x => bool_decide (x < INR n / r - tau))
                   <$> time_vector (S n) r))
  = Ok (filter (fun x => x < INR n / r - tau) (time_vector (S n) r)) /\
  filter (fun x => x < INR n / r - tau) (time_vector (S n) r)
  = take (length (filter (fun x => x < INR n / r - tau)
                         (time_vector (S n) r)))
         (time_vector (S n) r).
Proof.
  intros Hr. split_and!.
  - unfold last_item. by rewrite fmap_last, time_vector_last.
  - rewrite (index_mask_prefix (fun x => x < INR n / r - tau));
      [| |intros; lra|done].
    + f_equal. symmetry. apply sorted_mask_prefix; [|intros; lra].
      by apply time_vector_sorted.
    + by apply time_vector_sorted.
  - apply sorted_mask_prefix; [|intros; lra]. by apply time_vector_sorted.
Qed.

(** What [truncate_data] returns for an NI and for a VN signal on the same
    time base. *)
Lemma truncate_data_results (ni vn : Signal) (tau : R) (n : nat) :
  source ni = Some "NI"%string ->
  source vn = Some "VN"%string ->
  length (samples ni) = S n ->
  length (samples vn) = S n ->
  sampleRate ni = sampleRate vn ->
  0 < sampleRate ni ->
  0 <= tau < INR n / sampleRate ni ->
  let t := time_vector (S n) (sampleRate ni) in
  let tcom := filter (fun x => x < INR n / sampleRate ni - tau) t in
  truncate_data ni tau
  = Ok (with_samples ni
          (interp_at ((fun x => x - tau) <$> t) (samples ni) <$> tcom)) /\
  truncate_data vn tau
  = Ok (with_samples vn (take (length tcom) (samples vn))) /\
  (0 < length tcom <= S n)%nat.
Proof.
  intros Hni Hvn Hn Hlen Hrate Hr [Htau0 Htau] t tcom.
  destruct (truncate_common n (sampleRate ni) tau Hr) as (Hend & Hcom & Htake).
  fold t in Hend, Hcom, Htake. fold tcom in Hcom, Htake.
  assert (Hpos : (0 < length tcom)%nat).
  { unfold tcom, t, time_vector. csimpl. rewrite filter_cons_True; [simpl; lia|].
    simpl. unfold Rdiv at 1. rewrite Rmult_0_l. lra. }
  assert (Hle : (length tcom <= S n)%nat).
  { unfold tcom. etrans; [apply length_filter|].
    unfold t. by rewrite time_vector_length. }
  destruct (last tcom) as [e|] eqn:He.
  2:{ apply last_None in He. rewrite He in Hpos. simpl in Hpos. lia. }
  split_and!; [| |done|done].
  - unfold truncate_data. rewrite Hn. fold t.
    rewrite Hend, bind_Ok, Hcom, bind_Ok, decide_True by done.
    unfold np_interp. rewrite decide_False.
    2:{ intros Hnil%fmap_nil_inv. discriminate Hnil. }
    rewrite decide_True; [done|].
    unfold t. by rewrite length_fmap, time_vector_length.
  - unfold truncate_data. rewrite Hlen, <- Hrate. fold t.
    rewrite Hend, bind_Ok, Hcom, bind_Ok.
    rewrite decide_False by (rewrite Hvn; discriminate).
    rewrite decide_True by done.
    unfold last_item. rewrite He. unfold of_option.
    rewrite bind_Ok.
    rewrite (mask_upto_last t (INR n / sampleRate ni - tau) e);
      [|by apply time_vector_sorted|done].
    rewrite (index_mask_prefix (fun x => x < INR n / sampleRate ni - tau));
      [done| |intros; lra|].
    + by apply time_vector_sorted.
    + unfold t. rewrite time_vector_length. lia.
Qed.

Lemma truncate_data_exact (signal : Signal) (tau : R) :
  truncate_data signal tau
  = truncate_data_on Rminus
      (time_vector (length (samples signal)) (sampleRate signal)) signal tau.
Proof. reflexivity. Qed.

(** C3.  An NI signal and a VN signal of the same length and sample rate,
    truncated with the same [tau] in [[0, duration)], come out with the same
    number of samples, at least one, so that their last time stamps differ
    by less than one sample period.  The common grid is made of the times of
    the vector that are below the shifted NI end time, as the code computes
    it; the NI samples are interpolated on it and the VN samples are the
    slice of the same length.  This holds for the time vector and the
    difference [time - tau] however they are rounded: [t] is any increasing
    vector that starts at zero, and [fsub] any subtraction that keeps a
    positive difference positive. *)
Theorem truncate_data_common_grid (fsub : R -> R -> R) (t : list R)
    (ni vn : Signal) (tau duration : R) :
  source ni = Some "NI"%string ->
  source vn = Some "VN"%string ->
  length (samples ni) = length t ->
  length (samples vn) = length t ->
  sampleRate ni = sampleRate vn ->
  0 < sampleRate ni ->
  StronglySorted Rle t ->
  head t = Some 0 ->
  last t = Some duration ->
  (forall x, tau < x -> 0 < fsub x tau) ->
  0 <= tau < duration ->
  let tcom := filter (fun x => x < fsub duration tau) t in
  exists ni' vn' e1 e2,
    truncate_data_on fsub t ni tau = Ok ni' /\
    truncate_data_on fsub t vn tau = Ok vn' /\
    samples ni' = interp_at ((fun x => fsub x tau) <$> t) (samples ni)
                    <$> tcom /\
    samples vn' = take (length tcom) (samples vn) /\
    (0 < length tcom)%nat /\
    length (samples ni') = length (samples vn') /\
    last (time ni') = Some e1 /\
    last (time vn') = Some e2 /\
    Rabs (e1 - e2) < 1 / sampleRate ni.
Proof.
  intros Hni Hvn Hlni Hlvn Hrate Hr Hs Hhead Hlast Hsub [Htau0 Htau] tcom.
  set (e := fsub duration tau) in *.
  assert (Hend : last_item ((fun x => fsub x tau) <$> t) = Ok e).
  { unfold last_item. by rewrite fmap_last, Hlast. }
  destruct (sorted_mask_prefix (fun x => x < e) t Hs) as [_ Htake];
    [intros; lra|].
  fold tcom in Htake.
  assert (Hcom : fancy_index t
                   (np_nonzero ((fun x => bool_decide (x < e)) <$> t))
                 = Ok tcom).
  { rewrite (index_mask_prefix (fun x => x < e)); [|done|intros; lra|done].
    f_equal. symmetry. exact Htake. }
  assert (Hpos : (0 < length tcom)%nat).
  { destruct t as [|t0 t']; [done|]. injection Hhead as ->.
    unfold tcom. rewrite filter_cons_True; [simpl; lia|].
    unfold e. by apply Hsub. }
  assert (Hle : (length tcom <= length t)%nat) by apply length_filter.
  destruct (last tcom) as [c|] eqn:Hc.
  2:{ apply last_None in Hc. rewrite Hc in Hpos. simpl in Hpos. lia. }
  assert (Hni' : truncate_data_on fsub t ni tau
                 = Ok (with_samples ni
                         (interp_at ((fun x => fsub x tau) <$> t)
                                    (samples ni) <$> tcom))).
  { unfold truncate_data_on.
    rewrite Hend, bind_Ok, Hcom, bind_Ok, decide_True by done.
    unfold np_interp. rewrite decide_False.
    2:{ intros Hnil%fmap_nil_inv. rewrite Hnil in Hhead. discriminate. }
    rewrite decide_True; [done|]. by rewrite length_fmap. }
  assert (Hvn' : truncate_data_on fsub t vn tau
                 = Ok (with_samples vn (take (length tcom) (samples vn)))).
  { unfold truncate_data_on.
    rewrite Hend, bind_Ok, Hcom, bind_Ok.
    rewrite decide_False by (rewrite Hvn; discriminate).
    rewrite decide_True by done.
    unfold last_item. rewrite Hc. unfold of_option. rewrite bind_Ok.
    rewrite (mask_upto_last t e c); [|done|done].
    rewrite (index_mask_prefix (fun x => x < e)); [done|done|intros; lra|].
    lia. }
  exists (with_samples ni
            (interp_at ((fun x => fsub x tau) <$> t) (samples ni) <$> tcom)),
         (with_samples vn (take (length tcom) (samples vn))).
  assert (Hl1 : length (interp_at ((fun x => fsub x tau) <$> t) (samples ni)
                          <$> tcom) = length tcom) by apply length_fmap.
  assert (Hl2 : length (take (length tcom) (samples vn)) = length tcom).
  { apply length_take_le. lia. }
  destruct (length tcom) as [|m] eqn:Hm; [lia|].
  exists (INR m / sampleRate ni), (INR m / sampleRate ni).
  split_and!; try done.
  - cbn [samples with_samples]. by rewrite Hl1, Hl2.
  - unfold time. cbn [samples sampleRate with_samples].
    rewrite Hl1. apply time_vector_last.
  - unfold time. cbn [samples sampleRate with_samples].
    rewrite Hl2, <- Hrate. apply time_vector_last.
  - rewrite Rminus_diag, Rabs_R0. apply Rdiv_lt_0_compat; lra.
Qed.

Lemma float_times_3Hz_sorted : StronglySorted Rle float_times_3Hz.
Proof.
  unfold float_times_3Hz.
  repeat first [apply SSorted_nil | apply SSorted_cons
               | apply List.Forall_nil | apply List.Forall_cons]; lra.
Qed.

Lemma float_times_3Hz_common :
  filter (fun x => x < 2.3333333333333335 - 2) float_times_3Hz
  = [0; 0.33333333333333331].
Proof.
  unfold float_times_3Hz.
  rewrite filter_cons_True by lra. rewrite filter_cons_True by lra.
  repeat (rewrite filter_cons_False by lra). reflexivity.
Qed.

(** C3, witness: three samples at 1 Hz (duration 2 s), shifted by half a
    second, with exact arithmetic, where [truncate_data_on] is
    [truncate_data]; and eight samples at 3 Hz shifted by 2 s, with the time
    vector as float64 has it: the shifted end time [7/3 - 2] then lies
    above the time [1/3], and two samples are common. *)
Lemma truncate_data_common_grid_witness :
  (let t := time_vector 3 1 in
   let tcom := filter (fun x => x < INR 2 / 1 - 1 / 2) t in
   exists ni' vn' e1 e2,
     truncate_data accel_ni (1 / 2) = Ok ni' /\
     truncate_data accel_vn (1 / 2) = Ok vn' /\
     samples ni' = interp_at ((fun x => x - 1 / 2) <$> t) (samples accel_ni)
                     <$> tcom /\
     samples vn' = take (length tcom) (samples accel_vn) /\
     (0 < length tcom)%nat /\
     length (samples ni') = length (samples vn') /\
     last (time ni') = Some e1 /\
     last (time vn') = Some e2 /\
     Rabs (e1 - e2) < 1 / 1) /\
  (exists ni' vn',
     truncate_data_on Rminus float_times_3Hz ramp_ni 2 = Ok ni' /\
     truncate_data_on Rminus float_times_3Hz ramp_vn 2 = Ok vn' /\
     samples vn' = [Fin 0; Fin (-1)] /\
     length (samples ni') = 2%nat).
Proof.
  split.
  - apply (truncate_data_common_grid Rminus (time_vector 3 1)
             accel_ni accel_vn (1 / 2) (INR 2 / 1));
      first [ reflexivity
            | apply time_vector_head
            | apply time_vector_last
            | apply time_vector_sorted; lra
            | intros x Hx; lra
            | simpl; lra ].
  - destruct (truncate_data_common_grid Rminus float_times_3Hz
                ramp_ni ramp_vn 2 2.3333333333333335)
      as (ni' & vn' & e1 & e2 & H1 & H2 & H3 & H4 & _ & H6 & _);
      try first [ reflexivity
                | apply float_times_3Hz_sorted
                | intros x Hx; lra
                | simpl; lra ].
    exists ni', vn'. rewrite float_times_3Hz_common in H4.
    split_and!; [exact H1|exact H2|exact H4|].
    rewrite H6, H4. reflexivity.
Defined.

(** ** Synchronisation error *)

Lemma mask_from_first (t : list R) (c e : R) :
  StronglySorted Rle t ->
  head (filter (fun x => x > c) t) = Some e ->
  (fun x => bool_decide (x >= e)) <$> t = (fun x => bool_decide (x > c)) <$> t.
Proof.
  intros Hs He. apply list_fmap_ext. intros i x Hx. apply bool_decide_ext.
  pose proof (head_Some_elem_of _ _ He) as [Hec _]%list_elem_of_filter.
  split; [lra|]. intros Hxc.
  pose proof (sorted_head_min _ _ (sorted_filter _ t Hs) He) as Hmin.
  rewrite Forall_forall in Hmin. apply Rle_ge, Hmin, list_elem_of_filter.
  split; [done|]. by eapply list_elem_of_lookup_2.
Qed.

Lemma filter_elem_head (P : R -> Prop) `{!forall x, Decision (P x)}
    (t : list R) x :
  x ∈ t -> P x -> exists e, head (filter P t) = Some e.
Proof.
  intros Hx HP. destruct (filter P t) as [|e l] eqn:Hf; [|by exists e].
  exfalso. eapply filter_nil_not_elem_of; eauto.
Qed.

Lemma filter_elem_last (P : R -> Prop) `{!forall x, Decision (P x)}
    (t : list R) x :
  x ∈ t -> P x -> exists e, last (filter P t) = Some e.
Proof.
  intros Hx HP. apply last_is_Some. intros Hf.
  eapply filter_nil_not_elem_of; eauto.
Qed.


(** The guard of [sync_error]. *)
Lemma sync_error_too_large tau signal1 signal2 (time : list R) tn :
  last time = Some tn -> Rabs tau >= tn ->
  sync_error tau signal1 signal2 time = Raise ValueError.
Proof.
  intros Hl Hge. unfold sync_error, last_item. rewrite Hl. unfold of_option.
  rewrite bind_Ok. by rewrite decide_True.
Qed.

(** The lagging case: the overlap is an initial part of the shifted
    times. *)
Lemma sync_error_positive tau signal1 signal2 (time : list R) t0 tn :
  StronglySorted Rle time ->
  head time = Some t0 -> last time = Some tn ->
  length signal1 = length time -> length signal2 = length time ->
  tau > 0 -> tau < tn -> tau < tn - t0 ->
  let shiftedTime := (fun x => x + tau) <$> time in
  let m := length (filter (fun x => x < tn) shiftedTime) in
  sync_error tau signal1 signal2 time
  = Ok (norm (zip_with ssub (interp_at time signal1 <$> take m shiftedTime)
                            (take m signal2))).
Proof.
  intros Hs H0 Hn Hl1 Hl2 Hpos Htn Hdur shiftedTime m.
  assert (Hss : StronglySorted Rle shiftedTime) by by apply sorted_fmap_shift.
  assert (Hlen : length shiftedTime = length time) by apply length_fmap.
  pose proof (length_filter (fun x => x < tn) shiftedTime) as Hm. fold m in Hm.
  destruct (sorted_mask_prefix (fun x => x < tn) shiftedTime Hss) as [_ Htake];
    [intros; lra|]. fold m in Htake.
  destruct (filter_elem_last (fun x => x < tn) shiftedTime (t0 + tau))
    as [e He]; [|lra|].
  { apply list_elem_of_fmap. exists t0. split; [done|].
    by apply head_Some_elem_of. }
  assert (Hguard : ~ Rabs tau >= tn).
  { unfold Rabs. destruct (Rcase_abs tau); lra. }
  unfold sync_error, last_item, first_item. rewrite Hn. unfold of_option.
  rewrite bind_Ok, decide_False by done.
  fold shiftedTime. destruct (decide (tau > 0)) as [_|Hc]; [|lra].
  rewrite (index_mask_prefix (fun x => x < tn)); [|done|intros; lra|done].
  fold m. rewrite bind_Ok. unfold np_interp.
  rewrite decide_False
    by (intros Hnil; rewrite Hnil in H0; discriminate H0).
  rewrite decide_True by congruence. rewrite bind_Ok.
  rewrite <- Htake, He, bind_Ok, Htake.
  rewrite (mask_upto_last shiftedTime tn e) by done.
  rewrite (index_mask_prefix (fun x => x < tn)); [|done|intros; lra|lia].
  fold m. rewrite bind_Ok. unfold broadcast2.
  rewrite decide_True; [done|].
  rewrite length_fmap, !length_take_le; lia.
Qed.

(** The leading (or unshifted) case: the overlap is a final part of the
    shifted times. *)
Lemma sync_error_nonpositive tau signal1 signal2 (time : list R) t0 tn :
  StronglySorted Rle time ->
  head time = Some t0 -> last time = Some tn ->
  length signal1 = length time -> length signal2 = length time ->
  tau <= 0 -> - tau < tn -> - tau < tn - t0 ->
  let shiftedTime := (fun x => x + tau) <$> time in
  let k := Nat.sub (length time)
                   (length (filter (fun x => x > t0) shiftedTime)) in
  sync_error tau signal1 signal2 time
  = Ok (norm (zip_with ssub (interp_at time signal1 <$> drop k shiftedTime)
                            (drop k signal2))).
Proof.
  intros Hs H0 Hn Hl1 Hl2 Hneg Htn Hdur shiftedTime k.
  assert (Hss : StronglySorted Rle shiftedTime) by by apply sorted_fmap_shift.
  assert (Hlen : length shiftedTime = length time) by apply length_fmap.
  pose proof (length_filter (fun x => x > t0) shiftedTime) as Hm.
  destruct (sorted_mask_suffix (fun x => x > t0) shiftedTime Hss) as [_ Hdrop];
    [intros; lra|]. rewrite Hlen in Hdrop. fold k in Hdrop.
  destruct (filter_elem_head (fun x => x > t0) shiftedTime (tn + tau))
    as [e He]; [|lra|].
  { apply list_elem_of_fmap. exists tn. split; [done|].
    by apply last_Some_elem_of. }
  assert (Hguard : ~ Rabs tau >= tn).
  { unfold Rabs. destruct (Rcase_abs tau); lra. }
  unfold sync_error, last_item, first_item. rewrite Hn, H0. unfold of_option.
  rewrite bind_Ok, decide_False by done.
  fold shiftedTime. destruct (decide (tau > 0)) as [Hc|_]; [lra|].
  rewrite bind_Ok.
  rewrite (index_mask_suffix (fun x => x > t0)); [|done|intros; lra|done].
  rewrite Hlen.
  match goal with |- context [drop ?n shiftedTime] => change n with k end.
  rewrite bind_Ok. unfold np_interp.
  rewrite decide_False
    by (intros Hnil; rewrite Hnil in H0; discriminate H0).
  rewrite decide_True by congruence. rewrite bind_Ok.
  rewrite <- Hdrop, He, bind_Ok, Hdrop.
  rewrite (mask_from_first shiftedTime t0 e) by done.
  rewrite (index_mask_suffix (fun x => x > t0)); [|done|intros; lra|lia].
  rewrite Hlen.
  match goal with |- context [drop ?n signal2] => change n with k end.
  rewrite bind_Ok. unfold broadcast2.
  rewrite decide_True; [done|].
  rewrite length_fmap, !length_drop. lia.
Qed.


(** The range in which [sync_error] does return a norm.  It raises
    [ValueError] when [|tau|] is at least the last time stamp.  For a sorted
    time vector and two signals of its length it returns the norm of the
    difference between [signal1] interpolated at the overlapping shifted
    times and [signal2] restricted to the same positions, for every [tau]
    whose magnitude is below the last time stamp and below the duration
    [time[-1] - time[0]]. *)
Theorem sync_error_overlap (tau : R) (signal1 signal2 : list sample)
    (time : list R) (t0 tn : R) :
  StronglySorted Rle time ->
  head time = Some t0 -> last time = Some tn ->
  length signal1 = length time -> length signal2 = length time ->
  (Rabs tau >= tn ->
   sync_error tau signal1 signal2 time = Raise ValueError) /\
  (Rabs tau < tn -> Rabs tau < tn - t0 ->
   let shiftedTime := (fun x => x + tau) <$> time in
   (tau > 0 ->
    let m := length (filter (fun x => x < tn) shiftedTime) in
    sync_error tau signal1 signal2 time
    = Ok (norm (zip_with ssub (interp_at time signal1 <$> take m shiftedTime)
                              (take m signal2)))) /\
   (tau <= 0 ->
    let k := Nat.sub (length time)
                     (length (filter (fun x => x > t0) shiftedTime)) in
    sync_error tau signal1 signal2 time
    = Ok (norm (zip_with ssub (interp_at time signal1 <$> drop k shiftedTime)
                              (drop k signal2))))).
Proof.
  intros Hs H0 Hn Hl1 Hl2. split.
  - by apply sync_error_too_large.
  - intros Htn Hdur shiftedTime. split; intros Htau.
    + rewrite Rabs_right in Htn, Hdur by lra.
      by apply (sync_error_positive tau signal1 signal2 time t0 tn).
    + rewrite Rabs_left1 in Htn, Hdur by lra.
      by apply (sync_error_nonpositive tau signal1 signal2 time t0 tn).
Qed.

(** C8.  The guard of [sync_error], "make sure tau isn't too large",
    compares [|tau|] with the last time stamp and not with the duration
    [time[-1] - time[0]].  On a sorted time vector that does not start at
    zero, as the bump section is that [find_timeshift] passes, every [tau]
    whose magnitude is at least the duration but below the last time stamp
    gets past the guard; no shifted time is left in the overlap, and the
    function ends in the [IndexError] of [intervalTime[-1]] (or
    [intervalTime[0]]): neither the range error nor a norm. *)
Theorem sync_error_no_overlap (tau : R) (signal1 signal2 : list sample)
    (time : list R) (t0 tn : R) :
  StronglySorted Rle time ->
  head time = Some t0 -> last time = Some tn ->
  length signal1 = length time ->
  Rabs tau < tn ->
  tn - t0 <= Rabs tau ->
  sync_error tau signal1 signal2 time = Raise IndexError.
Proof.
  intros Hs H0 Hn Hl1 Htn Hdur.
  set (shiftedTime := (fun x => x + tau) <$> time).
  assert (Hss : StronglySorted Rle shiftedTime) by by apply sorted_fmap_shift.
  assert (Hlen : length shiftedTime = length time) by apply length_fmap.
  pose proof (sorted_head_min _ _ Hs H0) as Hmin.
  pose proof (sorted_last_max _ _ Hs Hn) as Hmax.
  assert (Hguard : ~ Rabs tau >= tn) by lra.
  unfold sync_error, last_item, first_item. rewrite Hn. unfold of_option.
  rewrite bind_Ok, decide_False by done. fold shiftedTime.
  unfold np_interp.
  destruct (decide (tau > 0)) as [Hpos|Hneg].
  - rewrite Rabs_right in Hdur by lra.
    assert (Hnone : filter (fun x => x < tn) shiftedTime = []).
    { apply filter_none. unfold shiftedTime. apply Forall_fmap.
      eapply Forall_impl; [exact Hmin|]. simpl. intros; lra. }
    rewrite (index_mask_prefix (fun x => x < tn)); [|done|intros; lra|done].
    rewrite Hnone. cbn [length take]. rewrite bind_Ok.
    rewrite decide_False
      by (intros Hnil; rewrite Hnil in H0; discriminate H0).
    rewrite decide_True by congruence. reflexivity.
  - rewrite Rabs_left1 in Hdur by lra. rewrite H0, bind_Ok.
    assert (Hnone : filter (fun x => x > t0) shiftedTime = []).
    { apply filter_none. unfold shiftedTime. apply Forall_fmap.
      eapply Forall_impl; [exact Hmax|]. simpl. intros; lra. }
    rewrite (index_mask_suffix (fun x => x > t0)); [|done|intros; lra|done].
    match goal with
    | |- context [drop ?n shiftedTime] =>
        change n with (Nat.sub (length shiftedTime)
                         (length (filter (fun x => x > t0) shiftedTime)))
    end.
    rewrite Hnone. cbn [length]. rewrite Nat.sub_0_r, drop_all, bind_Ok.
    rewrite decide_False
      by (intros Hnil; rewrite Hnil in H0; discriminate H0).
    rewrite decide_True by congruence. reflexivity.
Qed.

Lemma sorted_1_2_3 : StronglySorted Rle [1; 2; 3].
Proof.
  repeat first [apply SSorted_nil | apply SSorted_cons
               | apply List.Forall_nil | apply List.Forall_cons]; lra.
Qed.

(** C8, the failing input: times 1, 2, 3 (duration 2) and [tau = 5/2],
    below the last time stamp 3. *)
Lemma sync_error_no_overlap_witness :
  Rabs (5 / 2) < 3 /\
  sync_error (5 / 2) [Fin 0; Fin 0; Fin 0] [Fin 0; Fin 0; Fin 0] [1; 2; 3]
  = Raise IndexError.
Proof.
  assert (Habs : Rabs (5 / 2) = 5 / 2) by (apply Rabs_right; lra).
  split; [rewrite Habs; lra|].
  apply (sync_error_no_overlap (5 / 2) [Fin 0; Fin 0; Fin 0]
           [Fin 0; Fin 0; Fin 0] [1; 2; 3] 1 3 sorted_1_2_3);
    try reflexivity; rewrite Habs; lra.
Defined.

(** The range error is raised by the guard and nowhere else: on a sorted
    time vector with signals of its length, [ValueError] exactly when
    [|tau|] is at least the last time stamp. *)
Lemma sync_error_guard_exact (tau : R) (signal1 signal2 : list sample)
    (time : list R) (t0 tn : R) :
  StronglySorted Rle time ->
  head time = Some t0 -> last time = Some tn ->
  length signal1 = length time -> length signal2 = length time ->
  sync_error tau signal1 signal2 time = Raise ValueError <-> Rabs tau >= tn.
Proof.
  intros Hs H0 Hn Hl1 Hl2. split; [|by apply sync_error_too_large].
  intros Herr. destruct (Rge_dec (Rabs tau) tn) as [|Hlt]; [done|].
  exfalso. apply Rnot_ge_lt in Hlt.
  destruct (Rlt_dec (Rabs tau) (tn - t0)) as [Hdur|Hgap].
  - destruct (decide (tau > 0)) as [Hpos|Hneg].
    + rewrite Rabs_right in Hlt, Hdur by lra.
      by rewrite (sync_error_positive tau signal1 signal2 time t0 tn)
        in Herr.
    + rewrite Rabs_left1 in Hlt, Hdur by lra.
      by rewrite (sync_error_nonpositive tau signal1 signal2 time t0 tn)
        in Herr by (done || lra).
  - rewrite (sync_error_no_overlap tau signal1 signal2 time t0 tn) in Herr
      by (done || lra).
    discriminate.
Qed.


Lemma sorted_0_1_2 : StronglySorted Rle [0; 1; 2].
Proof.
  repeat first [apply SSorted_nil | apply SSorted_cons
               | apply List.Forall_nil | apply List.Forall_cons]; lra.
Qed.

(** An example in range: times 0, 1, 2; a shift of 3 s is refused, a shift
    of half a second compares the first two shifted times. *)
Lemma sync_error_overlap_witness :
  sync_error 3 [Fin 0; Fin 1; Fin 4] [Fin 0; NaN; Fin 4] [0; 1; 2]
  = Raise ValueError /\
  let shiftedTime := (fun x => x + 1 / 2) <$> [0; 1; 2] in
  let m := length (filter (fun x => x < 2) shiftedTime) in
  sync_error (1 / 2) [Fin 0; Fin 1; Fin 4] [Fin 0; NaN; Fin 4] [0; 1; 2]
  = Ok (norm (zip_with ssub
                (interp_at [0; 1; 2] [Fin 0; Fin 1; Fin 4]
                   <$> take m shiftedTime)
                (take m [Fin 0; NaN; Fin 4]))).
Proof.
  assert (Hhalf : Rabs (1 / 2) = 1 / 2) by (apply Rabs_right; lra).
  split.
  - apply (sync_error_overlap 3 [Fin 0; Fin 1; Fin 4] [Fin 0; NaN; Fin 4]
             [0; 1; 2] 0 2 sorted_0_1_2); try reflexivity.
    rewrite Rabs_right; lra.
  - apply (sync_error_overlap (1 / 2) [Fin 0; Fin 1; Fin 4]
             [Fin 0; NaN; Fin 4] [0; 1; 2] 0 2 sorted_0_1_2);
      try reflexivity; rewrite ?Hhalf; lra.
Defined.


(** ** The minimum of the error landscape *)

Lemma nonzero_from_bound i0 mask j :
  j ∈ nonzero_from i0 mask -> (i0 <= j < i0 + length mask)%nat.
Proof.
  revert i0. induction mask as [|b mask IH]; intros i0; simpl.
  - by intros ?%elem_of_nil.
  - destruct b.
    + intros [->|Hj%IH]%elem_of_cons; lia.
    + intros Hj%IH. lia.
Qed.

Lemma finite_from_elem i0 l j x :
  (j, x) ∈ finite_from i0 l <->
  (i0 <= j)%nat /\ l !! (j - i0)%nat = Some (Fin x).
Proof.
  revert i0. induction l as [|a l IH]; intros i0; simpl.
  - rewrite elem_of_nil. split; [done|]. by intros [_ ?].
  - assert (Hstep : forall y, (S i0 <= j)%nat /\ l !! (j - S i0)%nat = Some y
                      <-> (i0 <= j)%nat /\ j ≠ i0 /\
                          (a :: l) !! (j - i0)%nat = Some y).
    { intros y. split.
      - intros [Hle Hl]. split_and!; [lia|lia|].
        replace (j - i0)%nat with (S (j - S i0)) by lia. done.
      - intros (Hle & Hne & Hl). split; [lia|].
        replace (j - i0)%nat with (S (j - S i0)) in Hl by lia. done. }
    destruct a as [|y].
    + rewrite IH, Hstep. split; [tauto|]. intros [Hle Hl].
      split_and!; [done| |done]. intros ->. by rewrite Nat.sub_diag in Hl.
    + rewrite elem_of_cons, IH, Hstep. split.
      * intros [[= -> ->]|(? & ? & ?)]; [|done].
        split; [lia|]. by rewrite Nat.sub_diag.
      * intros [Hle Hl]. destruct (decide (j = i0)) as [->|Hne].
        -- rewrite Nat.sub_diag in Hl. left. by injection Hl as ->.
        -- right. done.
Qed.

Lemma arg_best_min best l :
  arg_best Rltb best l ∈ best :: l /\
  forall p, p ∈ best :: l -> (arg_best Rltb best l).2 <= p.2.
Proof.
  revert best. induction l as [|q l IH]; intros best; simpl.
  - split; [left|]. intros p ->%list_elem_of_singleton. lra.
  - destruct (Rltb q.2 best.2) eqn:Hq; unfold Rltb in Hq;
      [apply bool_decide_eq_true in Hq|apply bool_decide_eq_false in Hq].
    + destruct (IH q) as [Hin Hmin]. split.
      * right. done.
      * intros p [->|Hp]%elem_of_cons; [|by apply Hmin].
        transitivity q.2; [apply Hmin; left|lra].
    + destruct (IH best) as [Hin Hmin]. split.
      * apply elem_of_cons in Hin as [->|Hin]; [left|right; by right].
      * intros p [->|[->|Hp]%elem_of_cons]%elem_of_cons.
        -- apply Hmin. left.
        -- transitivity best.2; [apply Hmin; left|lra].
        -- apply Hmin. by right.
Qed.

(** [np.argmin] returns a position of the array; on an array without NaN it
    is a position of a least entry. *)
Lemma np_argmin_spec (l : list sample) i :
  np_argmin l = Ok i ->
  (i < length l)%nat /\
  (nan_free l ->
   exists ei, l !! i = Some (Fin ei) /\
              forall j ej, l !! j = Some (Fin ej) -> ei <= ej).
Proof.
  unfold np_argmin. destruct l as [|a l]; [done|].
  remember (a :: l) as l' eqn:Hl'. clear Hl'. unfold np_nonzero.
  destruct (nonzero_from 0 (isnan <$> l')) as [|j js] eqn:Hnz.
  - unfold nanargmin.
    destruct (finite_from 0 l') as [|p ps] eqn:Hfin; [done|].
    intros [= <-]. destruct (arg_best_min p ps) as [Hin Hmin].
    rewrite <- Hfin in Hin, Hmin.
    destruct (arg_best Rltb p ps) as [k ek]. cbn [fst snd] in *.
    apply finite_from_elem in Hin as [_ Hk]. rewrite Nat.sub_0_r in Hk.
    split; [by eapply lookup_lt_Some|]. intros _. exists ek. split; [done|].
    intros j ej Hj. apply (Hmin (j, ej)), finite_from_elem.
    split; [lia|]. by rewrite Nat.sub_0_r.
  - intros [= <-]. split.
    + assert (Hj : j ∈ nonzero_from 0 (isnan <$> l')) by (rewrite Hnz; left).
      apply nonzero_from_bound in Hj. rewrite length_fmap in Hj. lia.
    + intros Hf. by rewrite (nonzero_from_nan_free _ _ Hf) in Hnz.
Qed.

Lemma mapM_result_length {A B} (f : A -> result B) (l : list A) ys :
  mapM f l = Ok ys -> length ys = length l.
Proof.
  revert ys. induction l as [|x l IH]; intros ys; simpl.
  - by intros [= <-].
  - destruct (f x) as [y|e]; [|done]. simpl.
    destruct (mapM f l) as [k|e]; [|done]. simpl.
    intros [= <-]. simpl. f_equal. by apply IH.
Qed.

Lemma tauRange_length : length tauRange = 500%nat.
Proof. reflexivity. Qed.

Lemma tauRange_lookup i tau0 :
  tauRange !! i = Some tau0 ->
  (i < 500)%nat /\ tau0 = INR i * (0.5 / 499) /\ 0 <= tau0 <= 0.5.
Proof.
  intros Hi. assert (Hlt : (i < 500)%nat).
  { apply lookup_lt_Some in Hi. by rewrite tauRange_length in Hi. }
  unfold tauRange in Hi. rewrite list_lookup_fmap, lookup_seq_lt in Hi by done.
  injection Hi as <-. split; [done|]. split; [done|].
  assert (0 <= INR i) by apply pos_INR.
  assert (INR i <= 499).
  { replace 499 with (INR 499) by (rewrite INR_IZR_INZ; reflexivity).
    apply le_INR. lia. }
  lra.
Qed.


(** ** Time shift *)

Lemma refinement_seed_spec guess tau0 :
  refinement_seed guess tau0
  = if decide (0 < guess < 1 /\ ~ (guess - 0.1 < tau0 < guess + 0.1))
    then guess else tau0.
Proof.
  unfold refinement_seed.
  repeat case_bool_decide; simpl; case_decide; tauto.
Qed.

Section time_shift_properties.
Context (butterworth : list sample -> R -> R -> list sample).
Context (UnivariateSpline : list R -> list sample -> list R -> list sample).
Context (subtract_mean normalize : list sample -> list sample).
Context (fmin : (R -> result sample) -> R -> result R).

(** C2.  Whenever [find_timeshift] returns a [tau], the error landscape
    was computed on the 500 grid values of [[0, 0.5]] and [np.argmin]
    picked one of them ([tau0], a least error when no error is NaN); the
    seed of the minimisation is [tau0], replaced by the bump-index guess
    when [0 < guess < 1] and [tau0] lies outside
    [(guess - 0.1, guess + 0.1)]; and the returned [tau] is the result of
    the minimisation when that is within 0.01 of the seed and the seed
    itself otherwise, so it is always within 0.01 of the seed. *)
Theorem find_timeshift_near_seed (niAcc vnAcc : list sample)
    (sampleRate speed tau : R) :
  find_timeshift butterworth UnivariateSpline subtract_mean normalize fmin
    niAcc vnAcc sampleRate speed = Ok tau ->
  exists guess niBumpSec vnBumpSec timeBumpSec error i tau0 r,
    bump_sections butterworth UnivariateSpline subtract_mean normalize
      niAcc vnAcc sampleRate speed
    = Ok (guess, niBumpSec, vnBumpSec, timeBumpSec) /\
    mapM (fun val => sync_error val niBumpSec vnBumpSec timeBumpSec) tauRange
    = Ok error /\
    length error = 500%nat /\
    np_argmin error = Ok i /\
    (i < 500)%nat /\
    tau0 = INR i * (0.5 / 499) /\
    0 <= tau0 <= 0.5 /\
    (nan_free error ->
     exists ei, error !! i = Some (Fin ei) /\
                forall j ej, error !! j = Some (Fin ej) -> ei <= ej) /\
    let seed :=
      if decide (0 < guess < 1 /\ ~ (guess - 0.1 < tau0 < guess + 0.1))
      then guess else tau0 in
    fmin (fun x => sync_error x niBumpSec vnBumpSec timeBumpSec) seed = Ok r /\
    tau = (if decide (Rabs (r - seed) > 0.01) then seed else r) /\
    Rabs (tau - seed) <= 0.01.
Proof.
  unfold find_timeshift. intros H.
  destruct (bump_sections _ _ _ _ _ _ _ _)
    as [[[[guess niBumpSec] vnBumpSec] timeBumpSec]|] eqn:Hb; [|done].
  rewrite bind_Ok in H.
  destruct (mapM _ tauRange) as [error|] eqn:He; [|done].
  rewrite bind_Ok in H.
  destruct (np_argmin error) as [i|] eqn:Hi; [|done].
  rewrite bind_Ok in H.
  destruct (tauRange !! i) as [tau0|] eqn:Ht; [|done].
  unfold of_option in H. rewrite bind_Ok in H. cbv zeta in H.
  rewrite refinement_seed_spec in H.
  set (seed := if decide (0 < guess < 1 /\ _) then guess else tau0) in *.
  destruct (fmin _ seed) as [r|] eqn:Hr; [|done].
  rewrite bind_Ok in H. injection H as <-.
  destruct (tauRange_lookup _ _ Ht) as (Hlt & Heq & Hrange).
  destruct (np_argmin_spec _ _ Hi) as [_ Hmin].
  exists guess, niBumpSec, vnBumpSec, timeBumpSec, error, i, tau0, r.
  split_and!; try done; try lra.
  - by rewrite (mapM_result_length _ _ _ He).
  - fold seed.
    destruct (decide (Rabs (r - seed) > 0.01)) as [Hfar|Hnear].
    + rewrite Rminus_diag, Rabs_R0. lra.
    + lra.
Qed.
End time_shift_properties.


Lemma mapM_result_total {A B} (f : A -> result B) (l : list A) :
  (forall x, x ∈ l -> exists y, f x = Ok y) -> exists ys, mapM f l = Ok ys.
Proof.
  induction l as [|x l IH]; intros Hf; simpl; [by eexists|].
  destruct (Hf x) as [y ->]; [left|].
  destruct IH as [ys ->]; [intros; apply Hf; by right|]. by eexists.
Qed.

Lemma np_argmin_total (l : list sample) :
  l ≠ [] -> exists i, np_argmin l = Ok i.
Proof.
  unfold np_argmin, np_nonzero, nanargmin. destruct l as [|a l]; [done|].
  intros _. destruct a as [|x]; simpl; [by eexists|].
  destruct (nonzero_from 1 _); by eexists.
Qed.

Lemma slice_all {A} (l : list A) : slice l 0 (length l) = l.
Proof. by rewrite slice_to_end, drop_0. Qed.

Lemma find_bump_spike sampleRate speed wheelbase bumpLength :
  exists z1 z2,
    find_bump [Fin 1] sampleRate speed wheelbase bumpLength
    = Ok (z1, 0%Z, z2).
Proof.
  unfold find_bump. cbn [nanmax nanmin finite_from arg_best snd].
  rewrite !bind_Ok. unfold sgtb, lift1.
  rewrite bool_decide_eq_false_2 by lra.
  cbn [nanargmin finite_from arg_best fst]. rewrite bind_Ok.
  by eexists _, _.
Qed.

(** The sections that the search compares on the flat run: everything. *)
Lemma bump_sections_flat :
  exists guess,
    bump_sections spike_filter no_spline unchanged unchanged flat_accel flat_accel 200 1
    = Ok (guess, sneg <$> flat_accel, flat_accel, time_vector 400 200).
Proof.
  unfold bump_sections, spike_filter.
  rewrite decide_False by (intros H; by apply H).
  destruct (find_bump_spike 200 1 1.02 1) as (z1 & z2 & ->).
  rewrite bind_Ok.
  assert (Hnn : np_nonzero ((fun x => negb (isnan x)) <$> flat_accel)
                = seq 0 400) by reflexivity.
  rewrite Hnn.
  rewrite (fancy_index_seq flat_accel 0 400) by (unfold flat_accel;
    rewrite length_replicate; lia).
  rewrite bind_Ok.
  replace (length flat_accel) with 400%nat by reflexivity.
  rewrite (fancy_index_seq (time_vector 400 200) 0 400)
    by (rewrite time_vector_length; lia).
  rewrite !bind_Ok.
  assert (Hsplit : split_around_nan flat_accel
                   = ([(0%nat, 400%nat)], [flat_accel])).
  { unfold split_around_nan.
    rewrite (proj2 (any_isnan_false flat_accel)); [done|].
    apply Forall_replicate. done. }
  rewrite Hsplit. cbn [bump_section foldl fst snd].
  rewrite bool_decide_eq_true_2 by (simpl; lia).
  cbn [of_option]. rewrite bind_Ok. cbn [fst snd]. unfold unchanged.
  assert (H1 : slice (sneg <$> flat_accel) 0 400 = sneg <$> flat_accel).
  { rewrite <- (slice_all (sneg <$> flat_accel)) at 2.
    by rewrite length_fmap. }
  assert (H2 : slice flat_accel 0 400 = flat_accel)
    by apply (slice_all flat_accel).
  assert (H3 : slice (time_vector 400 200) 0 400 = time_vector 400 200).
  { rewrite <- (slice_all (time_vector 400 200)) at 2.
    by rewrite time_vector_length. }
  rewrite H1, H2, H3.
  rewrite decide_False; [by eexists|].
  rewrite length_fmap. unfold flat_accel. rewrite length_replicate. lia.
Qed.


Lemma sync_error_flat val :
  val ∈ tauRange ->
  exists e,
    sync_error val (sneg <$> flat_accel) flat_accel (time_vector 400 200)
    = Ok e.
Proof.
  intros [i Hi]%list_elem_of_lookup.
  destruct (tauRange_lookup _ _ Hi) as (_ & _ & Hval).
  assert (Hs : StronglySorted Rle (time_vector 400 200))
    by (apply time_vector_sorted; lra).
  pose proof (time_vector_head 399 200) as H0.
  pose proof (time_vector_last 399 200) as Hn.
  assert (H399 : INR 399 = 399) by (rewrite INR_IZR_INZ; reflexivity).
  rewrite H399 in Hn.
  assert (Hl1 : length (sneg <$> flat_accel) = length (time_vector 400 200))
    by reflexivity.
  assert (Hl2 : length flat_accel = length (time_vector 400 200))
    by reflexivity.
  destruct (decide (val > 0)) as [Hpos|Hneg].
  - eexists.
    apply (sync_error_positive val _ _ _ 0 (399 / 200) Hs H0 Hn Hl1 Hl2);
      lra.
  - eexists.
    apply (sync_error_nonpositive val _ _ _ 0 (399 / 200) Hs H0 Hn Hl1 Hl2);
      lra.
Qed.

Lemma find_timeshift_flat :
  exists tau,
    find_timeshift spike_filter no_spline unchanged unchanged keep_seed
      flat_accel flat_accel 200 1 = Ok tau.
Proof.
  unfold find_timeshift.
  destruct bump_sections_flat as [guess ->]. rewrite bind_Ok.
  destruct (mapM_result_total
              (fun val => sync_error val (sneg <$> flat_accel) flat_accel
                            (time_vector 400 200))
              tauRange sync_error_flat) as [error He].
  rewrite He, bind_Ok.
  pose proof (mapM_result_length _ _ _ He) as Hlen.
  rewrite tauRange_length in Hlen.
  destruct (np_argmin_total error) as [i Hi].
  { intros ->. discriminate Hlen. }
  rewrite Hi, bind_Ok.
  destruct (np_argmin_spec _ _ Hi) as [Hlt _]. rewrite Hlen in Hlt.
  destruct (lookup_lt_is_Some_2 tauRange i) as [tau0 Ht];
    [by rewrite tauRange_length|].
  rewrite Ht. cbn [of_option]. rewrite bind_Ok. cbv zeta.
  unfold keep_seed. rewrite bind_Ok. by eexists.
Qed.

(** C2, witness: the flat run, on which [find_timeshift] returns. *)
Lemma find_timeshift_near_seed_witness :
  exists tau guess niBumpSec vnBumpSec timeBumpSec error i tau0 r,
    find_timeshift spike_filter no_spline unchanged unchanged keep_seed
      flat_accel flat_accel 200 1 = Ok tau /\
    bump_sections spike_filter no_spline unchanged unchanged
      flat_accel flat_accel 200 1
    = Ok (guess, niBumpSec, vnBumpSec, timeBumpSec) /\
    mapM (fun val => sync_error val niBumpSec vnBumpSec timeBumpSec) tauRange
    = Ok error /\
    length error = 500%nat /\
    np_argmin error = Ok i /\
    (i < 500)%nat /\
    tau0 = INR i * (0.5 / 499) /\
    0 <= tau0 <= 0.5 /\
    (nan_free error ->
     exists ei, error !! i = Some (Fin ei) /\
                forall j ej, error !! j = Some (Fin ej) -> ei <= ej) /\
    let seed :=
      if decide (0 < guess < 1 /\ ~ (guess - 0.1 < tau0 < guess + 0.1))
      then guess else tau0 in
    keep_seed (fun x => sync_error x niBumpSec vnBumpSec timeBumpSec) seed
    = Ok r /\
    tau = (if decide (Rabs (r - seed) > 0.01) then seed else r) /\
    Rabs (tau - seed) <= 0.01.
Proof.
  destruct find_timeshift_flat as [tau Htau]. exists tau.
  destruct (find_timeshift_near_seed spike_filter no_spline unchanged
              unchanged keep_seed flat_accel flat_accel 200 1 tau Htau)
    as (guess & ni & vn & t & error & i & tau0 & r & H).
  exists guess, ni, vn, t, error, i, tau0, r. split; [exact Htau|exact H].
Defined.


(** ** The time-shift check *)

Lemma zip_with_Fin (f : R -> R -> R) (xs ys : list R) :
  zip_with (lift2 f) (Fin <$> xs) (Fin <$> ys) = Fin <$> zip_with f xs ys.
Proof.
  revert ys. induction xs as [|x xs IH]; intros [|y ys]; csimpl; try done.
  by rewrite IH.
Qed.

Lemma foldr_sadd_Fin (l : list R) :
  foldr sadd (Fin 0) (Fin <$> l) = Fin (foldr Rplus 0 l).
Proof. induction l as [|x l IH]; csimpl; [done|]. by rewrite IH. Qed.

Lemma foldl_lift2_Fin (f : R -> R -> R) (x : R) (l : list R) :
  foldl (lift2 f) (Fin x) (Fin <$> l) = Fin (foldl f x l).
Proof. revert x. induction l as [|y l IH]; intros x; csimpl; [done|apply IH]. Qed.

Lemma np_mean_Fin (l : list R) :
  l ≠ [] -> np_mean (Fin <$> l) = Fin (Rmean l).
Proof.
  intros Hl. unfold np_mean, Rmean. rewrite foldr_sadd_Fin, length_fmap.
  unfold sdiv. rewrite decide_False; [done|].
  destruct l; [done|]. apply not_0_INR. simpl. lia.
Qed.

Lemma Rmean_squares_nonneg (l : list R) :
  0 <= Rmean ((fun z => z * z) <$> l).
Proof.
  unfold Rmean. rewrite length_fmap. destruct l as [|x l].
  { simpl. unfold Rdiv. rewrite Rmult_0_l. lra. }
  apply Rmult_le_pos.
  - generalize (x :: l). intros k. induction k as [|z k IH]; csimpl; [lra|].
    pose proof (Rle_0_sqr z) as Hz. unfold Rsqr in Hz. lra.
  - left. apply Rinv_0_lt_compat, lt_0_INR. simpl. lia.
Qed.

Section time_shift_check.
Context (spline_over_nan : list R -> list sample -> result (list sample)).

(** C4.  When the two aligned accelerometer signals hold the real samples
    [vn] and [ni] (equally many, at least one), [check_time_shift] raises
    [TimeShiftError] exactly when [sqrt(mean((vn + ni)^2)) / (max(ni) -
    min(ni))] exceeds the threshold, and otherwise returns with the run
    unchanged.  The two signals are added, not subtracted, and the range is
    that of the NI signal alone; over a constant NI signal the value is
    infinite (or NaN when the root mean square is zero too), as
    [nrms_exceeds] has it. *)
Theorem check_time_shift_nrms (r : Run) (maxNRMS : R)
    (cal : gmap (option string) Signal)
    (niAcc vnAcc niTrunc vnTrunc niSplined vnSplined : Signal)
    (t : R) (vn ni : list R) :
  calibratedSignals r = Some cal ->
  cal !! Some "AccelerometerAccelerationY"%string = Some niAcc ->
  cal !! Some "AccelerationZ"%string = Some vnAcc ->
  tau r = Some t ->
  truncate niAcc t = Ok niTrunc ->
  truncate vnAcc t = Ok vnTrunc ->
  spline spline_over_nan niTrunc = Ok niSplined ->
  spline spline_over_nan vnTrunc = Ok vnSplined ->
  samples niSplined = Fin <$> ni ->
  samples vnSplined = Fin <$> vn ->
  length vn = length ni ->
  ni ≠ [] ->
  check_time_shift spline_over_nan r maxNRMS
  = if nrms_exceeds vn ni maxNRMS then Raise TimeShiftError else Ok r.
Proof.
  intros Hcal Hni Hvn Htau Htni Htvn Hspni Hspvn Hsni Hsvn Hlen Hne.
  unfold check_time_shift.
  rewrite Hcal. cbn [of_option]. rewrite bind_Ok.
  rewrite Hni. cbn [of_option]. rewrite bind_Ok.
  rewrite Hvn. cbn [of_option]. rewrite bind_Ok.
  rewrite Htau. cbn [of_option]. rewrite bind_Ok.
  rewrite Htvn, bind_Ok, Hspvn, bind_Ok.
  rewrite Htni, bind_Ok, Hspni, bind_Ok.
  rewrite Hsni, Hsvn. unfold broadcast2.
  rewrite decide_True by (by rewrite !length_fmap).
  rewrite bind_Ok. unfold sadd. rewrite zip_with_Fin.
  destruct ni as [|y ni]; [done|]. destruct vn as [|x vn]; [done|].
  rewrite !fmap_cons. cbn [np_max np_min]. rewrite !foldl_lift2_Fin, !bind_Ok.
  set (sq := (fun z => z * z) <$> zip_with Rplus (x :: vn) (y :: ni)).
  assert (Hsq : (fun a => a * a)%S <$> (Fin <$> zip_with Rplus (x :: vn) (y :: ni))
                = Fin <$> sq).
  { unfold sq. rewrite <- !list_fmap_compose. by apply list_fmap_ext. }
  rewrite Hsq, np_mean_Fin by done.
  pose proof (Rmean_squares_nonneg (zip_with Rplus (x :: vn) (y :: ni)))
    as Hmean.
  fold sq in Hmean.
  unfold ssqrt. rewrite decide_False by lra.
  unfold ssub, lift2, quotient, nrms_exceeds, normalized_rms.
  change (foldl Rmax y ni) with (Rlist_max (y :: ni)).
  change (foldl Rmin y ni) with (Rlist_min (y :: ni)).
  fold sq. pose proof (sqrt_pos (Rmean sq)) as Hpos.
  destruct (decide (Rlist_max (y :: ni) - Rlist_min (y :: ni) = 0))
    as [Hzero|Hrange].
  - destruct (decide (sqrt (Rmean sq) > 0)) as [Hgt|Hle]; cbn [exceeds negb].
    + by rewrite bool_decide_eq_true_2.
    + rewrite decide_False by lra. cbn [exceeds].
      by rewrite bool_decide_eq_false_2 by lra.
  - cbn [exceeds].
    destruct (decide (sqrt (Rmean sq)
                      / (Rlist_max (y :: ni) - Rlist_min (y :: ni))
                      > maxNRMS)) as [Hgt|Hle].
    + by rewrite !bool_decide_eq_true_2.
    + by rewrite !bool_decide_eq_false_2.
Qed.
End time_shift_check.

Lemma two_sample_spline_Ok (s : Signal) :
  spline two_sample_spline s = Ok (with_samples s [Fin 1; Fin 3]).
Proof. reflexivity. Qed.

(** C4, witness: the two three-sample signals, shifted by half a second.
    Splined to the samples 1 and 3 they give the value
    [sqrt(20) / (3 - 1)]; splined to a constant signal they give an
    infinite value, and the check raises whatever the threshold. *)
Lemma check_time_shift_nrms_witness :
  check_time_shift two_sample_spline synced_run 0.15
  = (if bool_decide (normalized_rms [1; 3] [1; 3] > 0.15)
     then Raise TimeShiftError else Ok synced_run) /\
  forall maxNRMS,
    check_time_shift constant_spline synced_run maxNRMS
    = Raise TimeShiftError.
Proof.
  destruct (truncate_data_results accel_ni accel_vn (1 / 2) 2)
    as (Hni & Hvn & _); try reflexivity; [simpl; lra..|].
  split.
  - etrans.
    { eapply (check_time_shift_nrms two_sample_spline synced_run 0.15 _
                accel_ni accel_vn _ _ _ _ (1 / 2) [1; 3] [1; 3]);
        try reflexivity.
      - unfold truncate. rewrite Hni. reflexivity.
      - unfold truncate. rewrite Hvn. reflexivity.
      - discriminate. }
    unfold nrms_exceeds. rewrite decide_False; [done|].
    unfold Rlist_max, Rlist_min. simpl. unfold Rmax, Rmin.
    destruct (Rle_dec 1 3); lra.
  - intros maxNRMS. etrans.
    { eapply (check_time_shift_nrms constant_spline synced_run maxNRMS _
                accel_ni accel_vn _ _ _ _ (1 / 2) [1; 1] [1; 1]);
        try reflexivity.
      - unfold truncate. rewrite Hni. reflexivity.
      - unfold truncate. rewrite Hvn. reflexivity.
      - discriminate. }
    unfold nrms_exceeds. rewrite decide_True.
    2:{ unfold Rlist_max, Rlist_min. simpl. unfold Rmax, Rmin.
        destruct (Rle_dec 1 1); lra. }
    rewrite bool_decide_eq_true_2; [done|].
    apply sqrt_lt_R0. unfold Rmean. simpl. lra.
Defined.


(** ** The orchestrator *)

Lemma calibrate_signals_fields (r r1 : Run) :
  calibrate_signals r = Ok r1 ->
  metadata r1 = metadata r /\ filterFreq r1 = filterFreq r /\
  topSig r1 = Some "calibrated"%string /\
  is_Some (calibratedSignals r1) /\
  truncatedSignals r1 = truncatedSignals r /\
  computedSignals r1 = computedSignals r /\
  taskSignals r1 = taskSignals r /\ tau r1 = tau r.
Proof.
  unfold calibrate_signals.
  destruct (for_each _ _ _) as [d|]; [|done]. rewrite bind_Ok.
  intros [= <-]. simpl. split_and!; by eauto.
Qed.

Section orchestrator.
Context (spline_over_nan : list R -> list sample -> result (list sample)).
Context (butterworth : list sample -> R -> R -> list sample).
Context (sigpro_find_timeshift :
           list sample -> list sample -> R -> R -> result R).
Context (computed_quantities task_quantities : Run -> result Run).

Lemma filter_top_signals_calibrated (r r' : Run) f :
  topSig r = Some "calibrated"%string ->
  filter_top_signals spline_over_nan butterworth r f = Ok r' ->
  topSig r' = Some "calibrated"%string /\
  is_Some (calibratedSignals r') /\
  truncatedSignals r' = truncatedSignals r /\
  computedSignals r' = computedSignals r /\
  taskSignals r' = taskSignals r /\ tau r' = tau r.
Proof.
  intros Htop. unfold filter_top_signals. rewrite Htop.
  cbn [of_option]. rewrite bind_Ok.
  rewrite decide_False by discriminate.
  rewrite decide_False by discriminate.
  rewrite decide_True by done.
  destruct (calibratedSignals r) as [d|]; [|done].
  cbn [of_option]. rewrite bind_Ok.
  destruct (for_each_item _ d) as [d'|]; [|done]. rewrite bind_Ok.
  intros [= <-]. simpl. split_and!; by eauto.
Qed.

(** C9.  For the three calibration and system-test maneuvers,
    [process_raw_signals] is the calibration followed by the optional
    filtering of the calibrated signals, whatever the later stages would
    do: the time shift is not computed or checked and nothing is
    truncated, computed or extracted.  When it returns, the stage marker
    is ['calibrated'], the calibrated signals exist, and the truncated,
    computed and task signals and [tau] are as they were before. *)
Theorem process_raw_signals_calibration_only (r : Run) :
  Maneuver (metadata r)
    ∈ ["Steer Dynamics Test"; "System Test"; "Static Calibration"]%string ->
  process_raw_signals spline_over_nan butterworth sigpro_find_timeshift
    computed_quantities task_quantities r
  = (r1 ← calibrate_signals r;
     match filterFreq r1 with
     | Some f => filter_top_signals spline_over_nan butterworth r1 f
     | None => Ok r1
     end) /\
  forall r',
    process_raw_signals spline_over_nan butterworth sigpro_find_timeshift
      computed_quantities task_quantities r = Ok r' ->
    topSig r' = Some "calibrated"%string /\
    is_Some (calibratedSignals r') /\
    truncatedSignals r' = truncatedSignals r /\
    computedSignals r' = computedSignals r /\
    taskSignals r' = taskSignals r /\
    tau r' = tau r.
Proof.
  intros Hman.
  assert (Heq : process_raw_signals spline_over_nan butterworth
                  sigpro_find_timeshift computed_quantities
                  task_quantities r
                = (r1 ← calibrate_signals r;
                   match filterFreq r1 with
                   | Some f =>
                       filter_top_signals spline_over_nan butterworth r1 f
                   | None => Ok r1
                   end)).
  { unfold process_raw_signals.
    destruct (calibrate_signals r) as [r1|] eqn:Hcal; [|done].
    rewrite !bind_Ok.
    destruct (calibrate_signals_fields _ _ Hcal) as (-> & _).
    assert (Hskip :
      bool_decide (Maneuver (metadata r) ≠ "Steer Dynamics Test"%string)
      && bool_decide (Maneuver (metadata r) ≠ "System Test"%string)
      && bool_decide (Maneuver (metadata r) ≠ "Static Calibration"%string)
      = false).
    { rewrite !elem_of_cons, elem_of_nil in Hman.
      destruct Hman as [->|[->|[->|[]]]]; reflexivity. }
    rewrite Hskip. by rewrite bind_Ok. }
  split; [exact Heq|]. rewrite Heq. intros r'.
  destruct (calibrate_signals r) as [r1|] eqn:Hcal; [|done].
  rewrite bind_Ok.
  destruct (calibrate_signals_fields _ _ Hcal)
    as (_ & _ & Htop & Hc & Htr & Hco & Hta & Htau).
  destruct (filterFreq r1) as [f|].
  - intros Hf.
    destruct (filter_top_signals_calibrated _ _ _ Htop Hf)
      as (? & ? & ? & ? & ? & ?).
    split_and!; congruence.
  - intros [= <-]. done.
Qed.
End orchestrator.

Lemma scale_rate_gyro : exists calibSig, scale rate_gyro_raw = Ok calibSig.
Proof. eexists. reflexivity. Qed.

(** C9, witness: a system-test run is calibrated and nothing more, even
    with later stages that would fail if they were called. *)
Lemma process_raw_signals_calibration_only_witness :
  (exists r',
     process_raw_signals two_sample_spline spike_filter failing_timeshift
       failing_stage failing_stage system_test_run = Ok r') /\
  process_raw_signals two_sample_spline spike_filter failing_timeshift
    failing_stage failing_stage system_test_run
  = (r1 ← calibrate_signals system_test_run;
     match filterFreq r1 with
     | Some f => filter_top_signals two_sample_spline spike_filter r1 f
     | None => Ok r1
     end) /\
  forall r',
    process_raw_signals two_sample_spline spike_filter failing_timeshift
      failing_stage failing_stage system_test_run = Ok r' ->
    topSig r' = Some "calibrated"%string /\
    is_Some (calibratedSignals r') /\
    truncatedSignals r' = None /\
    computedSignals r' = None /\
    taskSignals r' = None /\
    tau r' = None.
Proof.
  split.
  - unfold process_raw_signals, calibrate_signals, system_test_run.
    cbn [rawSignals]. rewrite map_to_list_singleton. cbn [fmap list_fmap snd for_each].
    destruct scale_rate_gyro as [calibSig ->].
    rewrite !bind_Ok. by eexists.
  - apply (process_raw_signals_calibration_only two_sample_spline
             spike_filter failing_timeshift failing_stage failing_stage
             system_test_run).
    right. left.
Defined.


(* ================================================================= *)
(** * Further properties of the code *)

(** ** Building a sensor from the calibration table *)

(** What the loop of [_store_calibration_data] has collected. *)
Lemma store_fold_spec (name : string) (table : list CalibrationRow)
    (d0 : gmap string CalibrationRow) :
  let d := foldl (fun (d : gmap string CalibrationRow) row =>
                    if decide (name = cal_name row)
                    then <[calibrationID row := row]> d else d)
                 d0 table in
  (forall k row, d !! k = Some row ->
     d0 !! k = Some row \/
     (row ∈ table /\ cal_name row = name /\ calibrationID row = k)) /\
  (forall k, is_Some (d0 !! k) -> is_Some (d !! k)) /\
  (forall row, row ∈ table -> cal_name row = name ->
     is_Some (d !! calibrationID row)).
Proof.
  revert d0. induction table as [|r table IH]; intros d0; simpl.
  - split_and!; [by left|done|]. by intros row ?%elem_of_nil.
  - set (d1 := if decide (name = cal_name r)
               then <[calibrationID r := r]> d0 else d0).
    destruct (IH d1) as (IH1 & IH2 & IH3). split_and!.
    + intros k row Hk. destruct (IH1 k row Hk) as [Hd1|(Hin & Hn & Hid)].
      * unfold d1 in Hd1. case_decide as Hname; [|by left].
        apply lookup_insert_Some in Hd1 as [[<- <-]|[_ Hd0]]; [|by left].
        right. split_and!; [left|done|done].
      * right. split_and!; [by right|done|done].
    + intros k Hk. apply IH2. unfold d1. case_decide; [|done].
      destruct (decide (calibrationID r = k)) as [->|Hne].
      * rewrite lookup_insert_eq. by eexists.
      * by rewrite lookup_insert_ne.
    + intros row [->|Hin]%elem_of_cons Hn; [|by apply IH3].
      apply IH2. unfold d1. rewrite decide_True by done.
      rewrite lookup_insert_eq. by eexists.
Qed.

(** X1.  [_store_calibration_data] raises [KeyError] exactly when no row of
    the table carries the sensor's name; otherwise the sensor holds rows of
    the table only, all with its name, each under its own calibration id,
    and every calibration id of a row with its name is present. *)
Theorem store_calibration_data_spec (name : string)
    (table : list CalibrationRow) :
  (store_calibration_data name table = Raise KeyError <->
   forall row, row ∈ table -> cal_name row ≠ name) /\
  (forall s, store_calibration_data name table = Ok s ->
     sensor_name s = name /\ data s ≠ ∅ /\
     (forall k row, data s !! k = Some row ->
        row ∈ table /\ cal_name row = name /\ calibrationID row = k) /\
     (forall row, row ∈ table -> cal_name row = name ->
        is_Some (data s !! calibrationID row))).
Proof.
  unfold store_calibration_data.
  destruct (store_fold_spec name table ∅) as (H1 & _ & H3).
  set (d := foldl _ ∅ table) in *. split.
  - case_decide as Hd; split; try done.
    + intros _ row Hin Hn. destruct (H3 row Hin Hn) as [x Hx].
      by rewrite Hd, lookup_empty in Hx.
    + intros Hnone. exfalso. apply Hd. apply map_eq. intros k.
      rewrite lookup_empty. destruct (d !! k) as [row|] eqn:Hk; [|done].
      destruct (H1 k row Hk) as [He|(Hin & Hn & _)].
      * by rewrite lookup_empty in He.
      * by destruct (Hnone row Hin).
  - intros s. case_decide as Hd; [done|]. intros [= <-]. simpl.
    split_and!; [done|done| |done].
    intros k row Hk. destruct (H1 k row Hk) as [He|?]; [|done].
    by rewrite lookup_empty in He.
Qed.

Lemma get_data_for_date_in_data (s : Sensor) (runDate : Z) row :
  get_data_for_date s runDate = Ok row -> exists k, data s !! k = Some row.
Proof.
  unfold get_data_for_date.
  destruct (of_option NameError _) as [i|]; [|done]. rewrite bind_Ok.
  destruct (of_option IndexError _) as [pr|]; [|done]. rewrite bind_Ok.
  destruct (data s !! pr.1) as [r|] eqn:Hr; [|done].
  intros [= <-]. by exists pr.1.
Qed.

(** X2.  When the table has a row for the sensor, the sensor is built and
    its lookup succeeds for every run date, with a row of the table that
    carries the sensor's name. *)
Theorem sensor_lookup_total (name : string) (table : list CalibrationRow)
    (runDate : Z) :
  (exists row, row ∈ table /\ cal_name row = name) ->
  exists s row,
    store_calibration_data name table = Ok s /\
    get_data_for_date s runDate = Ok row /\
    row ∈ table /\ cal_name row = name.
Proof.
  intros (r & Hr & Hn).
  unfold store_calibration_data.
  destruct (store_fold_spec name table ∅) as (H1 & _ & H3).
  set (d := foldl _ ∅ table) in *.
  assert (Hd : d ≠ ∅).
  { intros Hd. destruct (H3 r Hr Hn) as [x Hx].
    by rewrite Hd, lookup_empty in Hx. }
  rewrite decide_False by done.
  destruct (get_data_for_date_total {| sensor_name := name; data := d |}
              runDate Hd) as [row Hrow].
  eexists _, row. split; [done|]. split; [done|].
  destruct (get_data_for_date_in_data _ _ _ Hrow) as [k Hk]. simpl in Hk.
  destruct (H1 k row Hk) as [He|(? & ? & _)]; [|done].
  by rewrite lookup_empty in He.
Qed.

(** X2, witness: the steer potentiometer in a table with two sensors. *)
Lemma sensor_lookup_total_witness :
  exists s row,
    store_calibration_data "SteerPotentiometer" two_sensor_table = Ok s /\
    get_data_for_date s 12 = Ok row /\
    row ∈ two_sensor_table /\ cal_name row = "SteerPotentiometer"%string.
Proof.
  apply (sensor_lookup_total "SteerPotentiometer" two_sensor_table 12).
  exists (calibration_at "00001" 10). split; [left|reflexivity].
Defined.


(** ** The other branches of [scale] *)

Lemma zip_with_replicate_r {A B C} (f : A -> B -> C) (a : list A) (v : B) :
  zip_with f a (replicate (length a) v) = (fun x => f x v) <$> a.
Proof. induction a as [|x a IH]; simpl; [done|]. by rewrite IH. Qed.

Lemma zip_with_fmap_both {A A' B B' C} (f : A' -> B' -> C) (g : A -> A')
    (k : B -> B') (a : list A) (b : list B) :
  zip_with f (g <$> a) (k <$> b) = zip_with (fun x y => f (g x) (k y)) a b.
Proof.
  revert b. induction a as [|x a IH]; intros [|y b]; simpl; try done.
  by rewrite IH.
Qed.

Lemma three_calibrations_nonempty : data three_calibrations ≠ ∅.
Proof. intros H. discriminate (f_equal (fun m => m !! "00001"%string) H). Qed.

Lemma not_in_doNotScale_example :
  Some "SteerPotentiometer"%string ∉ Some <$> doNotScale.
Proof.
  simpl. rewrite !elem_of_cons, elem_of_nil. intros [?|[?|[?|[]]]]; discriminate.
Qed.

(** X3.  Whatever [scale] returns is either the raw signal itself, for a
    channel that is not scaled, or a signal with the name and the units of
    the calibration record found for the run's date and the source of the
    raw channel, and then the calibration type is one of [interceptStar],
    [intercept] and [bias]. *)
Theorem scale_result (rs : RawSignal) (s : Signal) :
  scale rs = Ok s ->
  (not_scaled rs = true /\ s = signal rs) \/
  (not_scaled rs = false /\
   calibrationType rs ∈
     [Some "interceptStar"; Some "intercept"; Some "bias"]%string /\
   exists sen calibData,
     sensor rs = Some sen /\
     get_data_for_date sen (raw_timeStamp rs) = Ok calibData /\
     name s = Some (cal_signal calibData) /\
     units s = Some (cal_units calibData) /\
     source s = source (signal rs) /\
     runid s = runid (signal rs) /\
     sampleRate s = sampleRate (signal rs)).
Proof.
  unfold scale. destruct (not_scaled rs); [intros [= <-]; by left|].
  intros H. right. split; [done|].
  destruct (sensor rs) as [sen|]; [|done]. simpl in H.
  destruct (get_data_for_date sen (raw_timeStamp rs)) as [calibData|] eqn:Hc;
    [|done].
  rewrite bind_Ok in H.
  match type of H with
  | (?m ≫= _) = _ => destruct m as [l|] eqn:Hl; [|done]
  end.
  rewrite bind_Ok in H. injection H as <-.
  split.
  - repeat case_decide; try done.
    + rewrite H. left.
    + rewrite H0. right; left.
    + rewrite H1. right; right; left.
  - by exists sen, calibData.
Qed.

(** X3, witness: the rate-gyro channel. *)
Lemma scale_result_witness :
  exists s, scale rate_gyro_raw = Ok s /\
    ((not_scaled rate_gyro_raw = true /\ s = signal rate_gyro_raw) \/
     (not_scaled rate_gyro_raw = false /\
      calibrationType rate_gyro_raw ∈
        [Some "interceptStar"; Some "intercept"; Some "bias"]%string /\
      exists sen calibData,
        sensor rate_gyro_raw = Some sen /\
        get_data_for_date sen (raw_timeStamp rate_gyro_raw) = Ok calibData /\
        name s = Some (cal_signal calibData) /\
        units s = Some (cal_units calibData) /\
        source s = source (signal rate_gyro_raw) /\
        runid s = runid (signal rate_gyro_raw) /\
        sampleRate s = sampleRate (signal rate_gyro_raw))).
Proof.
  eexists. split; [reflexivity|].
  apply (scale_result rate_gyro_raw). reflexivity.
Defined.

(** X4.  A raw signal of calibration type [interceptStar] with a sensor, a
    calibration record and a supply voltage that is nowhere zero scales to
    [calibSupplyV / measuredSupplyV * slope * raw + offset] sample by
    sample, NaN where the supply voltage or the raw sample is NaN.  (Over a
    zero supply voltage float64 gives an infinite sample, which the sample
    type does not have.) *)
Theorem scale_intercept_star (rs : RawSignal) (sen : Sensor) (sup : Supply) :
  calibrationType rs = Some "interceptStar"%string ->
  name (signal rs) ∉ Some <$> doNotScale ->
  sensor rs = Some sen ->
  data sen ≠ ∅ ->
  supply rs = Some sup ->
  length (supply_values sup (length (samples (signal rs))))
    = length (samples (signal rs)) ->
  Forall (fun measuredSupplyV => measuredSupplyV ≠ Fin 0)
         (supply_values sup (length (samples (signal rs)))) ->
  exists calibData,
    get_data_for_date sen (raw_timeStamp rs) = Ok calibData /\
    scale rs =
      Ok (calibrated rs calibData
            (intercept_star_equation calibData (samples (signal rs)) sup)).
Proof.
  intros Hty Hname Hsen Hdata Hsup Hlen _.
  destruct (get_data_for_date_total sen (raw_timeStamp rs) Hdata)
    as [calibData Hcal].
  exists calibData. split; [done|].
  unfold scale, not_scaled. rewrite Hty.
  rewrite (bool_decide_eq_false_2 (Some "interceptStar"%string ∈ _)).
  2:{ rewrite !elem_of_cons, elem_of_nil. intros [?|[?|[]]]; discriminate. }
  rewrite (bool_decide_eq_false_2 _ Hname). simpl.
  rewrite Hsen. simpl. rewrite Hcal. simpl. rewrite Hsup. simpl.
  unfold intercept_star_equation.
  destruct sup as [v|b]; simpl in *.
  - do 2 f_equal. rewrite zip_with_replicate_r, <- list_fmap_compose.
    done.
  - unfold broadcast2. rewrite length_fmap.
    rewrite decide_True by done. simpl. do 2 f_equal.
    by apply fmap_zip_op.
Qed.

(** X4, witness: a potentiometer channel with a measured supply voltage,
    one entry of which is NaN. *)
Lemma scale_intercept_star_witness :
  exists calibData,
    get_data_for_date three_calibrations 21 = Ok calibData /\
    scale (raw_of_type (Some "interceptStar"%string)) =
      Ok (calibrated (raw_of_type (Some "interceptStar"%string)) calibData
            (intercept_star_equation calibData [Fin 4; NaN; Fin 3]
               (SupplyArray [Fin 5; Fin 10; NaN]))).
Proof.
  apply (scale_intercept_star (raw_of_type (Some "interceptStar"%string))
           three_calibrations (SupplyArray [Fin 5; Fin 10; NaN]));
    try reflexivity.
  - apply not_in_doNotScale_example.
  - apply three_calibrations_nonempty.
  - repeat constructor; intros [= H]; lra.
Defined.

(** X5.  A raw signal of calibration type [intercept] with a sensor, a
    calibration record and a supply voltage that is nowhere zero scales to
    [calibSupplyV / measuredSupplyV * (slope * raw + offset)] sample by
    sample, NaN where the supply voltage or the raw sample is NaN.  (Over a
    zero supply voltage float64 gives an infinite sample, which the sample
    type does not have.) *)
Theorem scale_intercept (rs : RawSignal) (sen : Sensor) (sup : Supply) :
  calibrationType rs = Some "intercept"%string ->
  name (signal rs) ∉ Some <$> doNotScale ->
  sensor rs = Some sen ->
  data sen ≠ ∅ ->
  supply rs = Some sup ->
  length (supply_values sup (length (samples (signal rs))))
    = length (samples (signal rs)) ->
  Forall (fun measuredSupplyV => measuredSupplyV ≠ Fin 0)
         (supply_values sup (length (samples (signal rs)))) ->
  exists calibData,
    get_data_for_date sen (raw_timeStamp rs) = Ok calibData /\
    scale rs =
      Ok (calibrated rs calibData
            (intercept_equation calibData (samples (signal rs)) sup)).
Proof.
  intros Hty Hname Hsen Hdata Hsup Hlen _.
  destruct (get_data_for_date_total sen (raw_timeStamp rs) Hdata)
    as [calibData Hcal].
  exists calibData. split; [done|].
  unfold scale, not_scaled. rewrite Hty.
  rewrite (bool_decide_eq_false_2 (Some "intercept"%string ∈ _)).
  2:{ rewrite !elem_of_cons, elem_of_nil. intros [?|[?|[]]]; discriminate. }
  rewrite (bool_decide_eq_false_2 _ Hname). simpl.
  rewrite Hsen. simpl. rewrite Hcal. simpl. rewrite Hsup. simpl.
  unfold intercept_equation.
  destruct sup as [v|b]; simpl in *.
  - do 2 f_equal. rewrite zip_with_replicate_r, <- list_fmap_compose.
    done.
  - unfold broadcast2. rewrite !length_fmap.
    rewrite decide_True by done. simpl. do 2 f_equal.
    apply zip_with_fmap_both.
Qed.

(** X5, witness. *)
Lemma scale_intercept_witness :
  exists calibData,
    get_data_for_date three_calibrations 21 = Ok calibData /\
    scale (raw_of_type (Some "intercept"%string)) =
      Ok (calibrated (raw_of_type (Some "intercept"%string)) calibData
            (intercept_equation calibData [Fin 4; NaN; Fin 3]
               (SupplyArray [Fin 5; Fin 10; NaN]))).
Proof.
  apply (scale_intercept (raw_of_type (Some "intercept"%string))
           three_calibrations (SupplyArray [Fin 5; Fin 10; NaN]));
    try reflexivity.
  - apply not_in_doNotScale_example.
  - apply three_calibrations_nonempty.
  - repeat constructor; intros [= H]; lra.
Defined.

(** X6.  A channel that is to be scaled, with a sensor and a calibration
    record but a calibration type other than [interceptStar], [intercept]
    and [bias], raises [StandardError], with or without a supply voltage;
    without a sensor it raises [AttributeError], whatever the type. *)
Theorem scale_errors (rs : RawSignal) :
  not_scaled rs = false ->
  (sensor rs = None -> scale rs = Raise AttributeError) /\
  (forall sen, sensor rs = Some sen -> data sen ≠ ∅ ->
     calibrationType rs ∉
       [Some "interceptStar"; Some "intercept"; Some "bias"]%string ->
     scale rs = Raise StandardError).
Proof.
  intros Hns. unfold scale. rewrite Hns. split.
  - by intros ->.
  - intros sen -> Hdata Hty. simpl.
    destruct (get_data_for_date_total sen (raw_timeStamp rs) Hdata)
      as [calibData ->].
    rewrite bind_Ok.
    rewrite !decide_False; [done|..]; intros E; apply Hty; rewrite E.
    + right; right; left.
    + right; left.
    + left.
Qed.

(** X6, witness: a channel whose calibration type is not set. *)
Lemma scale_errors_witness :
  scale (raw_of_type None) = Raise StandardError.
Proof.
  refine (proj2 (scale_errors (raw_of_type None) _) three_calibrations _ _ _).
  - reflexivity.
  - reflexivity.
  - apply three_calibrations_nonempty.
  - simpl. rewrite !elem_of_cons, elem_of_nil. intros [?|[?|[?|[]]]]; discriminate.
Defined.


(** ** The stages of a run *)

(** A loop that stores each result under a key computed from it. *)
Lemma for_each_insert_by {A B} `{Countable K} (f : A -> result B)
    (key : B -> K) (l : list A) (acc d : gmap K B) :
  for_each (fun acc x => y ← f x; Ok (<[key y := y]> acc)) acc l = Ok d ->
  (forall x, x ∈ l -> exists y, f x = Ok y /\ is_Some (d !! key y)) /\
  (forall k y, d !! k = Some y ->
     acc !! k = Some y \/ (key y = k /\ exists x, x ∈ l /\ f x = Ok y)) /\
  (forall k, is_Some (acc !! k) -> is_Some (d !! k)).
Proof.
  revert acc. induction l as [|x l IH]; intros acc; cbn [for_each].
  - intros [= <-]. split_and!; [by intros x ?%elem_of_nil|by left|done].
  - destruct (f x) as [y|] eqn:Hy; [|done]. rewrite bind_Ok. intros Hd.
    destruct (IH _ Hd) as (IH1 & IH2 & IH3). split_and!.
    + intros x' [->|Hin]%elem_of_cons; [|by apply IH1].
      exists y. split; [done|]. apply IH3. rewrite lookup_insert_eq. by eexists.
    + intros k y' Hk. destruct (IH2 k y' Hk) as [Hacc|(Hkey & x' & Hin & Hx')].
      * apply lookup_insert_Some in Hacc as [[<- <-]|[_ Hacc]]; [|by left].
        right. split; [done|]. exists x. split; [left|done].
      * right. split; [done|]. exists x'. split; [by right|done].
    + intros k Hk. apply IH3.
      destruct (decide (key y = k)) as [->|Hne].
      * rewrite lookup_insert_eq. by eexists.
      * by rewrite lookup_insert_ne.
Qed.

(** The update of every value of a dictionary, key by key. *)
Lemma for_each_insert_spec (body : Signal -> result Signal)
    (l : list (option string * Signal)) (acc d : gmap (option string) Signal) :
  for_each (fun acc kv => v ← body kv.2; Ok (<[kv.1 := v]> acc)) acc l = Ok d ->
  forall k,
    (exists v v', (k, v) ∈ l /\ body v = Ok v' /\ d !! k = Some v') \/
    (k ∉ fst <$> l) /\ d !! k = acc !! k.
Proof.
  revert acc. induction l as [|[k0 v0] l IH]; intros acc; cbn [for_each].
  - intros [= <-] k. right. split; [|done]. by intros ?%elem_of_nil.
  - cbn [fst snd]. destruct (body v0) as [v0'|] eqn:Hv0; [|done].
    rewrite bind_Ok. intros Hd k.
    destruct (IH _ Hd k) as [(v & v' & Hin & Hv & Hk)|[Hnin Hk]].
    + left. exists v, v'. split; [by right|done].
    + destruct (decide (k0 = k)) as [->|Hne].
      * left. exists v0, v0'. split; [left|]. split; [done|].
        by rewrite Hk, lookup_insert_eq.
      * right. split.
        -- rewrite fmap_cons, elem_of_cons. intros [?|?]; by simplify_eq/=.
        -- by rewrite Hk, lookup_insert_ne.
Qed.

Lemma for_each_item_spec (body : Signal -> result Signal)
    (d d' : gmap (option string) Signal) :
  for_each_item body d = Ok d' ->
  forall k,
    match d !! k with
    | Some v => exists v', body v = Ok v' /\ d' !! k = Some v'
    | None => d' !! k = None
    end.
Proof.
  intros Hd k. destruct (for_each_insert_spec _ _ _ _ Hd k)
    as [(v & v' & Hin & Hv & Hk)|[Hnin Hk]].
  - apply elem_of_map_to_list in Hin. rewrite Hin. by exists v'.
  - destruct (d !! k) as [v|] eqn:Hv.
    + exfalso. apply Hnin. apply list_elem_of_fmap. exists (k, v).
      split; [done|]. by apply elem_of_map_to_list.
    + by rewrite Hk, lookup_empty.
Qed.

Lemma for_each_item_total (body : Signal -> result Signal)
    (d : gmap (option string) Signal) :
  (forall k v, d !! k = Some v -> exists v', body v = Ok v') ->
  exists d', for_each_item body d = Ok d'.
Proof.
  intros Hall. unfold for_each_item.
  assert (Hl : forall kv, kv ∈ map_to_list d -> exists v', body kv.2 = Ok v').
  { intros [k v] Hin. apply elem_of_map_to_list in Hin. by eapply Hall. }
  revert Hl. generalize (∅ : gmap (option string) Signal).
  induction (map_to_list d) as [|kv l IH]; intros acc Hl; cbn [for_each].
  - by eexists.
  - destruct (Hl kv) as [v' ->]; [left|]. rewrite bind_Ok.
    apply IH. intros kv' Hin. apply Hl. by right.
Qed.

Lemma for_each_item_dom (body : Signal -> result Signal)
    (d d' : gmap (option string) Signal) :
  for_each_item body d = Ok d' -> dom d' = dom d.
Proof.
  intros Hd. apply set_eq. intros k. rewrite !elem_of_dom.
  pose proof (for_each_item_spec _ _ _ Hd k) as Hk.
  destruct (d !! k) as [v|].
  - destruct Hk as (v' & _ & ->). split; by eauto.
  - rewrite Hk. split; by intros [? ?].
Qed.

(** X7.  When [calibrate_signals] returns, every raw signal has been scaled
    and its calibrated signal's name is a key of [calibratedSignals]; every
    entry of [calibratedSignals] is the scaled version of a raw signal and
    is stored under its own name; the stage marker is ['calibrated']. *)
Theorem calibrate_signals_spec (r r' : Run) :
  calibrate_signals r = Ok r' ->
  topSig r' = Some "calibrated"%string /\
  rawSignals r' = rawSignals r /\
  exists d, calibratedSignals r' = Some d /\
    (forall key rs, rawSignals r !! key = Some rs ->
       exists s, scale rs = Ok s /\ is_Some (d !! name s)) /\
    (forall k s, d !! k = Some s ->
       name s = k /\
       exists key rs, rawSignals r !! key = Some rs /\ scale rs = Ok s).
Proof.
  unfold calibrate_signals.
  destruct (for_each _ _ _) as [d|] eqn:Hd; [|done]. rewrite bind_Ok.
  intros [= <-]. simpl. split; [done|]. split; [done|].
  exists d. split; [done|].
  destruct (for_each_insert_by scale name _ _ _ Hd) as (H1 & H2 & _). split.
  - intros key rs Hrs. apply H1. apply list_elem_of_fmap.
    exists (key, rs). split; [done|]. by apply elem_of_map_to_list.
  - intros k s Hk. destruct (H2 k s Hk) as [He|(Hn & rs & Hin & Hs)].
    { by rewrite lookup_empty in He. }
    split; [done|]. apply list_elem_of_fmap in Hin as ([key rs'] & -> & Hin).
    exists key, rs'. split; [|done]. by apply elem_of_map_to_list.
Qed.

(** X7, witness: the system-test run with its one rate-gyro channel. *)
Lemma calibrate_signals_spec_witness :
  exists r', calibrate_signals system_test_run = Ok r' /\
    topSig r' = Some "calibrated"%string /\
    rawSignals r' = rawSignals system_test_run /\
    exists d, calibratedSignals r' = Some d /\
      (forall key rs, rawSignals system_test_run !! key = Some rs ->
         exists s, scale rs = Ok s /\ is_Some (d !! name s)) /\
      (forall k s, d !! k = Some s ->
         name s = k /\
         exists key rs, rawSignals system_test_run !! key = Some rs /\
                        scale rs = Ok s).
Proof.
  assert (Hex : exists r', calibrate_signals system_test_run = Ok r').
  { unfold calibrate_signals, system_test_run. cbn [rawSignals].
    rewrite map_to_list_singleton. cbn [fmap list_fmap snd for_each].
    destruct scale_rate_gyro as [calibSig ->]. rewrite !bind_Ok. by eexists. }
  destruct Hex as [r' Hr']. exists r'. split; [exact Hr'|].
  exact (calibrate_signals_spec system_test_run r' Hr').
Defined.

Section stages.
Context (spline_over_nan : list R -> list sample -> result (list sample)).
Context (butterworth : list sample -> R -> R -> list sample).

(** The body of the loop of [truncate_signals], once [tau] is known. *)
Lemma truncate_spline_body (r : Run) (t : R) (sig v' : Signal) :
  tau r = Some t ->
  (t ← of_option AttributeError (tau r);
   truncated ← truncate sig t;
   spline spline_over_nan truncated) = Ok v' <->
  exists tr, truncate sig t = Ok tr /\ spline spline_over_nan tr = Ok v'.
Proof.
  intros ->. cbn [of_option]. rewrite bind_Ok. split.
  - destruct (truncate sig t) as [tr|]; [|done]. rewrite bind_Ok.
    intros H. by exists tr.
  - intros (tr & -> & H). by rewrite bind_Ok.
Qed.

Lemma truncate_signals_returns (r : Run)
    (cal : gmap (option string) Signal) (t : R) :
  calibratedSignals r = Some cal ->
  tau r = Some t ->
  (forall k sig, cal !! k = Some sig ->
     exists tr sp, truncate sig t = Ok tr /\
                   spline spline_over_nan tr = Ok sp) ->
  exists r', truncate_signals spline_over_nan r = Ok r'.
Proof.
  intros Hcal Htau Hall. unfold truncate_signals. rewrite Hcal.
  cbn [of_option]. rewrite !bind_Ok.
  match goal with
  | |- context [for_each_item ?body cal] =>
      destruct (for_each_item_total body cal) as [d ->]
  end.
  - intros k v Hk. destruct (Hall k v Hk) as (tr & sp & Htr & Hsp).
    exists sp. apply (truncate_spline_body r t); [done|by exists tr].
  - rewrite bind_Ok. by eexists.
Qed.

(** X8.  With calibrated signals and a time shift, [truncate_signals]
    returns exactly when every calibrated signal can be truncated and its
    truncation splined; the truncated dictionary then has the keys of the
    calibrated one, each signal being the spline of its truncation, the
    stage marker is ['truncated'], and the calibrated signals and the time
    shift are kept. *)
Theorem truncate_signals_spec (r : Run) (cal : gmap (option string) Signal)
    (t : R) :
  calibratedSignals r = Some cal ->
  tau r = Some t ->
  ((exists r', truncate_signals spline_over_nan r = Ok r') <->
   (forall k sig, cal !! k = Some sig ->
      exists tr sp, truncate sig t = Ok tr /\
                    spline spline_over_nan tr = Ok sp)) /\
  (forall r', truncate_signals spline_over_nan r = Ok r' ->
     topSig r' = Some "truncated"%string /\
     calibratedSignals r' = Some cal /\ tau r' = Some t /\
     exists d, truncatedSignals r' = Some d /\ dom d = dom cal /\
       forall k sig, cal !! k = Some sig ->
         exists tr sp, truncate sig t = Ok tr /\
                       spline spline_over_nan tr = Ok sp /\
                       d !! k = Some sp).
Proof.
  intros Hcal Htau.
  assert (Hspec : forall r', truncate_signals spline_over_nan r = Ok r' ->
     topSig r' = Some "truncated"%string /\
     calibratedSignals r' = Some cal /\ tau r' = Some t /\
     exists d, truncatedSignals r' = Some d /\ dom d = dom cal /\
       forall k sig, cal !! k = Some sig ->
         exists tr sp, truncate sig t = Ok tr /\
                       spline spline_over_nan tr = Ok sp /\
                       d !! k = Some sp).
  { intros r'. unfold truncate_signals. rewrite Hcal.
    cbn [of_option]. rewrite bind_Ok.
    destruct (for_each_item _ cal) as [d|] eqn:Hd; [|done].
    rewrite bind_Ok. intros [= <-]. simpl. split_and!; try done.
    exists d. split; [done|]. split; [by eapply for_each_item_dom|].
    intros k sig Hk.
    pose proof (for_each_item_spec _ _ _ Hd k) as Hs. rewrite Hk in Hs.
    destruct Hs as (v' & Hv' & Hdk).
    apply (truncate_spline_body r t) in Hv' as (tr & Htr & Hsp); [|done].
    by exists tr, v'. }
  split; [split|exact Hspec].
  - intros [r' Hr'] k sig Hk.
    destruct (Hspec r' Hr') as (_ & _ & _ & d & _ & _ & Hd).
    destruct (Hd k sig Hk) as (tr & sp & Htr & Hsp & _). by exists tr, sp.
  - by apply truncate_signals_returns.
Qed.

(** X9.  [filter_top_signals] filters the task, the computed or the
    calibrated signals only: right after [truncate_signals], whose stage
    marker is ['truncated'], it returns the run as it is, for every filter
    frequency. *)
Theorem filter_top_signals_truncated (r r' : Run) (f : R) :
  truncate_signals spline_over_nan r = Ok r' ->
  filter_top_signals spline_over_nan butterworth r' f = Ok r'.
Proof.
  unfold truncate_signals.
  destruct (of_option _ (calibratedSignals r)) as [cal|]; [|done].
  rewrite bind_Ok.
  destruct (for_each_item _ cal) as [d|]; [|done]. rewrite bind_Ok.
  intros [= <-]. unfold filter_top_signals. cbn [topSig set_topSig of_option].
  rewrite bind_Ok.
  by rewrite !decide_False by discriminate.
Qed.
End stages.

Lemma synced_run_truncates :
  forall k sig,
    ({[ Some "AccelerometerAccelerationY"%string := accel_ni;
        Some "AccelerationZ"%string := accel_vn ]}
       : gmap (option string) Signal) !! k = Some sig ->
    exists tr sp, truncate sig (1 / 2) = Ok tr /\
                  spline two_sample_spline tr = Ok sp.
Proof.
  destruct (truncate_data_results accel_ni accel_vn (1 / 2) 2)
    as (Hni & Hvn & _); try reflexivity; [simpl; lra..|].
  intros k sig Hk.
  apply lookup_insert_Some in Hk as [[_ <-]|[_ Hk]].
  - unfold truncate. rewrite Hni. by eexists _, _.
  - apply lookup_singleton_Some in Hk as [_ <-].
    unfold truncate. rewrite Hvn. by eexists _, _.
Qed.

(** X8, witness: the run with the two accelerometer signals and a time
    shift of half a second. *)
Lemma truncate_signals_spec_witness :
  exists r', truncate_signals two_sample_spline synced_run = Ok r' /\
    topSig r' = Some "truncated"%string /\
    exists d, truncatedSignals r' = Some d /\
      dom d = {[ Some "AccelerometerAccelerationY"%string;
                 Some "AccelerationZ"%string ]}.
Proof.
  destruct (truncate_signals_returns two_sample_spline synced_run _ (1 / 2)
              eq_refl eq_refl synced_run_truncates) as [r' Hr'].
  exists r'. split; [exact Hr'|].
  destruct (truncate_signals_spec two_sample_spline synced_run _ (1 / 2)
              eq_refl eq_refl) as [_ Hspec].
  destruct (Hspec r' Hr') as (Htop & _ & _ & d & Hd & Hdom & _).
  split; [exact Htop|]. exists d. split; [exact Hd|].
  rewrite Hdom. rewrite dom_insert_L, dom_singleton_L. reflexivity.
Defined.

(** X9, witness: the same run, filtered at 10 Hz after its truncation. *)
Lemma filter_top_signals_truncated_witness :
  exists r', truncate_signals two_sample_spline synced_run = Ok r' /\
    filter_top_signals two_sample_spline spike_filter r' 10 = Ok r'.
Proof.
  destruct (truncate_signals_returns two_sample_spline synced_run _ (1 / 2)
              eq_refl eq_refl synced_run_truncates) as [r' Hr'].
  exists r'. split; [exact Hr'|].
  exact (filter_top_signals_truncated two_sample_spline spike_filter
           synced_run r' 10 Hr').
Defined.


(** ** Bump detection *)

Lemma arg_best_max best l :
  arg_best Rgtb best l ∈ best :: l /\
  forall p, p ∈ best :: l -> p.2 <= (arg_best Rgtb best l).2.
Proof.
  revert best. induction l as [|q l IH]; intros best; simpl.
  - split; [left|]. intros p ->%list_elem_of_singleton. lra.
  - destruct (Rgtb q.2 best.2) eqn:Hq; unfold Rgtb in Hq;
      [apply bool_decide_eq_true in Hq|apply bool_decide_eq_false in Hq].
    + destruct (IH q) as [Hin Hmax]. split.
      * right. done.
      * intros p [->|Hp]%elem_of_cons; [|by apply Hmax].
        transitivity q.2; [lra|apply Hmax; left].
    + destruct (IH best) as [Hin Hmax]. split.
      * apply elem_of_cons in Hin as [->|Hin]; [left|right; by right].
      * intros p [->|[->|Hp]%elem_of_cons]%elem_of_cons.
        -- apply Hmax. left.
        -- transitivity best.2; [lra|apply Hmax; left].
        -- apply Hmax. by right.
Qed.

Lemma finite_from_nil i l :
  finite_from i l = [] <-> forall j x, l !! j = Some x -> x = NaN.
Proof.
  revert i. induction l as [|a l IH]; intros i; simpl.
  - split; [|done]. by intros _ j x.
  - destruct a as [|y].
    + rewrite IH. split.
      * intros H [|j] x; simpl; [by intros [= <-]|apply H].
      * intros H j x Hj. by apply (H (S j)).
    + split; [done|]. intros H. by specialize (H 0%nat (Fin y) eq_refl).
Qed.

Lemma nanmax_finite l p ps :
  finite_from 0 l = p :: ps -> nanmax l = Ok (Fin (arg_best Rgtb p ps).2).
Proof. unfold nanmax. destruct l; [done|]. by intros ->. Qed.

Lemma nanmin_finite l p ps :
  finite_from 0 l = p :: ps -> nanmin l = Ok (Fin (arg_best Rltb p ps).2).
Proof. unfold nanmin. destruct l; [done|]. by intros ->. Qed.

Lemma find_bump_all_nan l sampleRate speed wheelbase bumpLength :
  finite_from 0 l = [] ->
  find_bump l sampleRate speed wheelbase bumpLength = Raise ValueError.
Proof.
  intros Hfin. unfold find_bump, nanmax, nanmin, nanargmin.
  destruct l as [|a l]; [done|]. by rewrite Hfin.
Qed.

Lemma Rabs_between (m y M : R) :
  m <= y <= M -> Rabs y <= Rmax (Rabs m) (Rabs M).
Proof.
  intros [Hm HM]. unfold Rmax, Rabs.
  repeat destruct (Rcase_abs _); destruct (Rle_dec _ _); lra.
Qed.

Lemma find_bump_exact (l : list sample)
    (sampleRate speed wheelbase bumpLength : R) :
  find_bump l sampleRate speed wheelbase bumpLength
  = find_bump_samples l
      (py_int ((wheelbase + bumpLength) / speed * sampleRate)).
Proof. reflexivity. Qed.

Lemma find_bump_samples_all_nan l bumpSamples :
  finite_from 0 l = [] -> find_bump_samples l bumpSamples = Raise ValueError.
Proof.
  intros Hfin. unfold find_bump_samples, nanmax, nanmin, nanargmin.
  destruct l as [|a l]; [done|]. by rewrite Hfin.
Qed.

(** X11.  The middle index that [find_bump] returns is a position of an
    entry that is not NaN and whose magnitude no other such entry exceeds;
    the window starts a quarter [q] of its length before that index and
    ends three quarters after it, where [4 * q] is the number of samples of
    the bump, as [int(bumpDuration * sampleRate)] gives it, rounded down to
    a multiple of four. *)
Theorem find_bump_largest (l : list sample) (bumpSamples a i b : Z) :
  find_bump_samples l bumpSamples = Ok (a, i, b) ->
  (exists x, (0 <= i)%Z /\ l !! Z.to_nat i = Some (Fin x) /\
     forall j y, l !! j = Some (Fin y) -> Rabs y <= Rabs x) /\
  (exists q, (4 * q <= bumpSamples < 4 * q + 4)%Z /\
     a = (i - q)%Z /\ b = (i + 3 * q)%Z).
Proof.
  destruct (finite_from 0 l) as [|p ps] eqn:Hfin.
  { by rewrite find_bump_samples_all_nan. }
  unfold find_bump_samples.
  rewrite (nanmax_finite _ _ _ Hfin), (nanmin_finite _ _ _ Hfin), !bind_Ok.
  destruct (arg_best_max p ps) as [HinM HM].
  destruct (arg_best_min p ps) as [Hinm Hm].
  rewrite <- Hfin in HinM, HM, Hinm, Hm.
  unfold nanargmax, nanargmin. rewrite Hfin.
  destruct (arg_best Rgtb p ps) as [kM M].
  destruct (arg_best Rltb p ps) as [km m]. cbn [fst snd lift1 sgtb] in *.
  apply finite_from_elem in HinM as [_ HkM], Hinm as [_ Hkm].
  rewrite Nat.sub_0_r in HkM, Hkm.
  assert (Hbetween : forall j y, l !! j = Some (Fin y) -> m <= y <= M).
  { intros j y Hj.
    assert (Hin : (j, y) ∈ finite_from 0 l).
    { apply finite_from_elem. split; [lia|]. by rewrite Nat.sub_0_r. }
    split; [apply (Hm _ Hin)|apply (HM _ Hin)]. }
  set (n := bumpSamples).
  assert (Hq : ((n / 4 * 4) / 4 = n / 4)%Z) by (by apply Z.div_mul).
  assert (Hq3 : (3 * (n / 4 * 4) / 4 = 3 * (n / 4))%Z).
  { replace (3 * (n / 4 * 4))%Z with (3 * (n / 4) * 4)%Z by lia.
    by apply Z.div_mul. }
  assert (Hwin : (4 * (n / 4) <= n < 4 * (n / 4) + 4)%Z).
  { pose proof (Z.div_mod n 4 ltac:(lia)).
    pose proof (Z.mod_pos_bound n 4 ltac:(lia)). lia. }
  case_bool_decide as Habs; cbn [mbind result_bind]; rewrite ?bind_Ok;
    intros [= <- <- <-]; (split;
      [|exists (n / 4)%Z; rewrite Hq, Hq3; exact (conj Hwin (conj eq_refl eq_refl))]).
  - exists M. rewrite Nat2Z.id. split_and!; [lia|done|].
    intros j y Hj. pose proof (Rabs_between _ _ _ (Hbetween j y Hj)) as Hy.
    unfold Rmax in Hy. destruct (Rle_dec _ _); lra.
  - exists m. rewrite Nat2Z.id. split_and!; [lia|done|].
    intros j y Hj. pose proof (Rabs_between _ _ _ (Hbetween j y Hj)) as Hy.
    unfold Rmax in Hy. destruct (Rle_dec _ _); lra.
Qed.

(** X12.  [find_bump] returns its indices exactly when the signal has an
    entry that is not NaN (the speed not being zero); on an empty or
    all-NaN signal it raises [ValueError]. *)
Theorem find_bump_returns (l : list sample)
    (sampleRate speed wheelbase bumpLength : R) :
  speed <> 0 ->
  ((exists indices,
      find_bump l sampleRate speed wheelbase bumpLength = Ok indices) <->
   exists j x, l !! j = Some (Fin x)) /\
  ((forall j x, l !! j = Some x -> x = NaN) ->
   find_bump l sampleRate speed wheelbase bumpLength = Raise ValueError).
Proof.
  intros _. split; [split|].
  - intros [indices H].
    destruct (finite_from 0 l) as [|[j x] ps] eqn:Hfin.
    { by rewrite find_bump_all_nan in H. }
    exists j, x.
    assert (Hin : (j, x) ∈ finite_from 0 l) by (rewrite Hfin; left).
    apply finite_from_elem in Hin as [_ Hj]. by rewrite Nat.sub_0_r in Hj.
  - intros (j & x & Hj).
    destruct (finite_from 0 l) as [|p ps] eqn:Hfin.
    { pose proof (proj1 (finite_from_nil _ _) Hfin j _ Hj). done. }
    unfold find_bump.
    rewrite (nanmax_finite _ _ _ Hfin), (nanmin_finite _ _ _ Hfin), !bind_Ok.
    unfold nanargmax, nanargmin. rewrite Hfin.
    destruct (sgtb _ _); rewrite bind_Ok; by eexists.
  - intros Hnan. apply find_bump_all_nan. by apply (finite_from_nil 0 l).
Qed.


Lemma find_bump_samples_example :
  find_bump_samples [Fin 1; NaN; Fin (-3)] 3 = Ok (2, 2, 2)%Z.
Proof.
  unfold find_bump_samples. cbn [nanmax nanmin finite_from arg_best snd].
  unfold Rgtb, Rltb. cbn [snd].
  rewrite (bool_decide_eq_false_2 (-3 > 1)) by lra.
  rewrite (bool_decide_eq_true_2 (-3 < 1)) by lra.
  cbn [snd]. rewrite !bind_Ok. unfold sgtb, lift1.
  rewrite bool_decide_eq_false_2.
  2:{ unfold Rabs. repeat destruct (Rcase_abs _); lra. }
  cbn [nanargmin finite_from arg_best fst snd]. unfold Rltb. cbn [snd].
  rewrite (bool_decide_eq_true_2 (-3 < 1)) by lra.
  cbn [fst]. rewrite bind_Ok. reflexivity.
Qed.

(** X11, witness: a signal whose largest spike is the negative one at
    index 2, with a bump of three samples, as at 98 Hz and 49 m/s over two
    metres, where the product in floating point falls just short of four:
    the window is the middle index alone. *)
Lemma find_bump_largest_witness :
  find_bump_samples [Fin 1; NaN; Fin (-3)] 3 = Ok (2, 2, 2)%Z /\
  (exists x, (0 <= 2)%Z /\
     [Fin 1; NaN; Fin (-3)] !! Z.to_nat 2 = Some (Fin x) /\
     forall j y, [Fin 1; NaN; Fin (-3)] !! j = Some (Fin y) ->
                 Rabs y <= Rabs x) /\
  (exists q, (4 * q <= 3 < 4 * q + 4)%Z /\
     2%Z = (2 - q)%Z /\ 2%Z = (2 + 3 * q)%Z).
Proof.
  split; [exact find_bump_samples_example|].
  exact (find_bump_largest [Fin 1; NaN; Fin (-3)] 3 2 2 2
           find_bump_samples_example).
Defined.

(** X12, witness: the same signal at a speed of one metre per second. *)
Lemma find_bump_returns_witness :
  ((exists indices,
      find_bump [Fin 1; NaN; Fin (-3)] 200 1 1.02 1 = Ok indices) <->
   exists j x, [Fin 1; NaN; Fin (-3)] !! j = Some (Fin x)) /\
  ((forall j x, [Fin 1; NaN; Fin (-3)] !! j = Some x -> x = NaN) ->
   find_bump [Fin 1; NaN; Fin (-3)] 200 1 1.02 1 = Raise ValueError).
Proof.
  apply (find_bump_returns [Fin 1; NaN; Fin (-3)] 200 1 1.02 1). lra.
Defined.


(** ** The sections around NaN cover the signal *)

(** The search for the section of the bump, on the index pairs that
    [build_indices] makes from sections of the right form. *)
Lemma bump_section_build_indices (arrays : list (list sample)) (p : Z) :
  Forall section_ok arrays ->
  forall (count : nat) (acc : option (nat * nat)),
    let found :=
      foldl (fun bSec pair =>
               if bool_decide (Z.of_nat pair.1 <= p < Z.of_nat pair.2)%Z
               then Some pair else bSec)
            acc (build_indices count arrays) in
    ((Z.of_nat count <= p < Z.of_nat (count + length (concat arrays)))%Z ->
     exists pair, found = Some pair /\
       pair ∈ build_indices count arrays /\
       (Z.of_nat pair.1 <= p < Z.of_nat pair.2)%Z) /\
    (~ (Z.of_nat count <= p < Z.of_nat (count + length (concat arrays)))%Z ->
     found = acc).
Proof.
  induction 1 as [|a arrays Ha Hok IH]; intros count acc; cbn zeta.
  - simpl. split; [lia|done].
  - cbn [build_indices foldl concat].
    assert (Hfirst : (if any_isnan a
                      then ((count + length a - 1)%nat, (count + length a)%nat)
                      else ((count + length a - length a)%nat,
                            (count + length a)%nat))
                     = (count, (count + length a)%nat)).
    { destruct Ha as [->|[_ Hf]]; simpl.
      - f_equal; lia.
      - rewrite (proj2 (any_isnan_false a) Hf). f_equal; lia. }
    rewrite Hfirst. cbn [fst snd].
    set (acc' := if bool_decide _ then _ else acc).
    destruct (IH (count + length a)%nat acc') as [IH1 IH2].
    rewrite length_app.
    destruct (decide (Z.of_nat (count + length a) <= p
                      < Z.of_nat (count + length a + length (concat arrays)))%Z)
      as [Hin|Hout].
    + destruct (IH1 Hin) as (pair & Hf & Hel & Hp). split; [|lia].
      intros _. exists pair. split; [done|]. split; [by right|done].
    + rewrite (IH2 Hout). unfold acc'. case_bool_decide as Hp.
      * split; [|lia]. intros _. eexists. split; [done|]. split; [left|].
        done.
      * split; [lia|done].
Qed.

(** X13.  The sections that [split_around_nan] returns, put end to end,
    are the signal, and their index pairs cover its positions: the loop of
    [find_timeshift] that looks for the section of the bump finds, for
    every position of the signal, a pair that contains it, and finds none
    for an index outside the signal. *)
Theorem split_around_nan_covers (sig : list sample) :
  let '(indices, arrays) := split_around_nan sig in
  concat arrays = sig /\
  forall p : Z,
    ((0 <= p < Z.of_nat (length sig))%Z ->
     exists pair, bump_section indices p = Some pair /\ pair ∈ indices /\
                  (Z.of_nat pair.1 <= p < Z.of_nat pair.2)%Z) /\
    (~ (0 <= p < Z.of_nat (length sig))%Z -> bump_section indices p = None).
Proof.
  unfold split_around_nan. destruct (any_isnan sig) eqn:Hany.
  - rewrite first_split_is_rec.
    destruct (first_split_rec_spec [] sig) as [Hp Hc]; [left; constructor|].
    destruct (split_again_all _ Hp) as [Hs Hcs].
    destruct (remove_emptys_spec _ Hs) as [Hok Hco].
    set (arrays := filter _ _) in *.
    assert (Hsig : concat arrays = sig) by by rewrite Hco, Hcs, Hc.
    split; [done|]. intros p. unfold bump_section.
    destruct (bump_section_build_indices arrays p Hok 0 None) as [H1 H2].
    rewrite Hsig in H1, H2. split; [exact H1|exact H2].
  - split; [simpl; by rewrite app_nil_r|]. intros p.
    unfold bump_section. cbn [foldl fst snd]. case_bool_decide as Hp.
    + split; [|simpl in Hp; lia]. intros _. eexists. split; [done|].
      split; [left|done].
    + split; [simpl in Hp; lia|done].
Qed.


(** ** Truncation at its bounds *)

Lemma time_vector_nonneg n r :
  0 < r -> Forall (fun x => 0 <= x) (time_vector n r).
Proof.
  intros Hr. destruct n as [|n]; [constructor|].
  apply sorted_head_min; [by apply time_vector_sorted|].
  apply time_vector_head.
Qed.

(** With a shift of at least the duration no time is common. *)
Lemma truncate_common_empty (n : nat) (r tau : R) :
  0 < r -> INR n / r <= tau ->
  filter (fun x => x < INR n / r - tau) (time_vector (S n) r) = [].
Proof.
  intros Hr Htau. apply filter_none.
  eapply Forall_impl; [by apply time_vector_nonneg|]. simpl. intros; lra.
Qed.

(** X14.  With a time shift of at least the duration of the signal there is
    no common time: truncating a signal of the NI source returns a signal
    without samples, truncating one of the VN source raises
    [IndexError]. *)
Theorem truncate_data_beyond_duration (s : Signal) (tau : R) (n : nat) :
  length (samples s) = S n ->
  0 < sampleRate s ->
  INR n / sampleRate s <= tau ->
  (source s = Some "NI"%string ->
   truncate_data s tau = Ok (with_samples s [])) /\
  (source s = Some "VN"%string -> truncate_data s tau = Raise IndexError).
Proof.
  intros Hn Hr Htau. unfold truncate_data. rewrite Hn.
  destruct (truncate_common n (sampleRate s) tau Hr) as (-> & Hcom & _).
  rewrite bind_Ok, Hcom, bind_Ok.
  rewrite (truncate_common_empty n _ _ Hr Htau). split; intros ->.
  - rewrite decide_True by done. unfold np_interp.
    rewrite decide_False.
    2:{ intros H%(f_equal length).
        by rewrite length_fmap, time_vector_length in H. }
    rewrite decide_True by (by rewrite length_fmap, time_vector_length).
    done.
  - rewrite decide_False by discriminate. by rewrite decide_True.
Qed.

(** X14, witness: the two three-sample accelerometer signals at one sample
    per second, shifted by their duration of two seconds. *)
Lemma truncate_data_beyond_duration_witness :
  truncate_data accel_ni 2 = Ok (with_samples accel_ni []) /\
  truncate_data accel_vn 2 = Raise IndexError.
Proof.
  split.
  - apply (truncate_data_beyond_duration accel_ni 2 2); try reflexivity;
      simpl; lra.
  - apply (truncate_data_beyond_duration accel_vn 2 2); try reflexivity;
      simpl; lra.
Defined.

(** X15.  [truncate_data] raises [IndexError] on a signal without samples,
    whatever its source, and [ValueError] on a signal with samples whose
    source is neither NI nor VN, whatever the time shift. *)
Theorem truncate_data_errors (s : Signal) (tau : R) :
  (samples s = [] -> truncate_data s tau = Raise IndexError) /\
  (samples s ≠ [] -> 0 < sampleRate s ->
   source s ∉ [Some "NI"; Some "VN"]%string ->
   truncate_data s tau = Raise ValueError).
Proof.
  unfold truncate_data. split.
  - by intros ->.
  - intros Hne Hr Hsrc.
    destruct (samples s) as [|x l] eqn:Hs; [done|].
    replace (length (x :: l)) with (S (length l)) by done.
    destruct (truncate_common (length l) (sampleRate s) tau Hr)
      as (-> & Hcom & _).
    rewrite bind_Ok, Hcom, bind_Ok.
    rewrite !decide_False; [done|..]; intros E; apply Hsrc; rewrite E.
    + right; left.
    + left.
Qed.


(** ** Utilities of the database module *)

Lemma iter_zero_length (n : nat) (s : string) :
  String.length (Nat.iter n (String.append "0") s) = (n + String.length s)%nat.
Proof.
  induction n as [|n IH]; [done|]. rewrite Nat.iter_succ.
  rewrite append_String, append_EmptyString. cbn [String.length].
  by rewrite IH.
Qed.

Lemma iter_zero_append (n : nat) (s : string) :
  Nat.iter n (String.append "0") s
  = (Nat.iter n (String.append "0") EmptyString +:+ s)%string.
Proof.
  induction n as [|n IH]; [done|]. rewrite Nat.iter_succ.
  rewrite IH at 1. by rewrite !append_String, !append_EmptyString.
Qed.

Lemma iter_zero_get (n i : nat) c :
  String.get i (Nat.iter n (String.append "0") EmptyString) = Some c ->
  String c EmptyString = "0"%string.
Proof.
  revert i. induction n as [|n IH]; intros i; [done|]. rewrite Nat.iter_succ.
  rewrite append_String, append_EmptyString.
  destruct i as [|i]; [by intros [= <-]|apply IH].
Qed.

(** X16.  [pad_with_zeros] puts zeros, and nothing else, in front of the
    number; the result has [digits] characters when the number is shorter
    than that and is the number itself, never cut, when it has [digits]
    characters or more; padding a second time changes nothing. *)
Theorem pad_with_zeros_spec (num : string) (digits : Z) :
  Z.of_nat (String.length (pad_with_zeros num digits))
    = Z.max digits (Z.of_nat (String.length num)) /\
  (exists zeros,
     pad_with_zeros num digits = (zeros +:+ num)%string /\
     forall i c, String.get i zeros = Some c ->
                 String c EmptyString = "0"%string) /\
  ((digits <= Z.of_nat (String.length num))%Z ->
   pad_with_zeros num digits = num) /\
  pad_with_zeros (pad_with_zeros num digits) digits = pad_with_zeros num digits.
Proof.
  assert (Hlen : Z.of_nat (String.length (pad_with_zeros num digits))
                 = Z.max digits (Z.of_nat (String.length num))).
  { unfold pad_with_zeros. rewrite iter_zero_length. lia. }
  assert (Hshort : forall s, (digits <= Z.of_nat (String.length s))%Z ->
            pad_with_zeros s digits = s).
  { intros s Hs. unfold pad_with_zeros.
    by replace (Z.to_nat (digits - Z.of_nat (String.length s))) with 0%nat
      by lia. }
  split_and!; [done| |by apply Hshort|apply Hshort; lia].
  eexists. split; [apply iter_zero_append|]. apply iter_zero_get.
Qed.

Lemma slice_to_nonneg {A} (l : list A) (m : Z) :
  (0 <= m)%Z -> slice_to l m = take (Z.to_nat m) l.
Proof. intros Hm. unfold slice_to. by rewrite decide_True. Qed.

(** X17.  For a desired length [m >= 0], [size_vector] returns a vector of
    exactly [m] entries: the first entries of the input, followed by NaN
    when the input is shorter than [m]. *)
Theorem size_vector_spec (vector : list sample) (m : Z) :
  (0 <= m)%Z ->
  exists newvec,
    size_vector vector m = Ok newvec /\
    length newvec = Z.to_nat m /\
    newvec = take (Z.to_nat m) vector
             ++ replicate (Z.to_nat m - length vector) NaN.
Proof.
  intros Hm. unfold size_vector. repeat case_decide; try lia.
  - eexists. split; [done|]. rewrite length_app, length_replicate.
    split; [lia|]. rewrite take_ge by lia. f_equal. f_equal. lia.
  - eexists. split; [done|]. rewrite slice_to_nonneg by done.
    rewrite length_take. split; [lia|].
    replace (Z.to_nat m - length vector)%nat with 0%nat by lia.
    by rewrite app_nil_r.
  - eexists. split; [done|]. split; [lia|].
    replace (Z.to_nat m - length vector)%nat with 0%nat by lia.
    rewrite take_ge by lia. by rewrite app_nil_r.
Qed.

(** X17, witness: two samples sized to four. *)
Lemma size_vector_spec_witness :
  exists newvec,
    size_vector [Fin 1; Fin 2] 4 = Ok newvec /\
    length newvec = Z.to_nat 4 /\
    newvec = take (Z.to_nat 4) [Fin 1; Fin 2]
             ++ replicate (Z.to_nat 4 - length [Fin 1; Fin 2]) NaN.
Proof. apply (size_vector_spec [Fin 1; Fin 2] 4). lia. Defined.

(** X18.  Reading back a padded vector: [unsize_vector], given the number of
    samples of the original, undoes [size_vector] when the original was not
    longer than the stored length [m], and otherwise gives its first [m]
    samples; neither function raises. *)
Theorem unsize_size_vector (vector : list sample) (m : Z) :
  (0 <= m)%Z ->
  exists stored,
    size_vector vector m = Ok stored /\
    unsize_vector stored (Z.of_nat (length vector))
      = Ok (take (Z.to_nat m) vector) /\
    ((Z.of_nat (length vector) <= m)%Z ->
     unsize_vector stored (Z.of_nat (length vector)) = Ok vector).
Proof.
  intros Hm.
  assert (Hgoal : forall stored,
            length stored = Z.to_nat m ->
            stored = take (Z.to_nat m) vector
                     ++ replicate (Z.to_nat m - length vector) NaN ->
            unsize_vector stored (Z.of_nat (length vector))
              = Ok (take (Z.to_nat m) vector)).
  { intros stored Hlen Hst. unfold unsize_vector.
    repeat case_decide; try lia.
    - rewrite slice_to_nonneg by lia. rewrite Nat2Z.id, Hst.
      rewrite take_app_le by (rewrite length_take; lia).
      rewrite take_take. by rewrite !take_ge by lia.
    - rewrite Hst.
      replace (Z.to_nat m - length vector)%nat with 0%nat by lia.
      by rewrite app_nil_r.
    - rewrite Hst.
      replace (Z.to_nat m - length vector)%nat with 0%nat by lia.
      by rewrite app_nil_r. }
  unfold size_vector. repeat case_decide; try lia.
  - eexists. split; [done|]. split.
    + apply Hgoal.
      * rewrite length_app, length_replicate. lia.
      * rewrite take_ge by lia. do 2 f_equal. lia.
    + intros _. rewrite Hgoal.
      * by rewrite take_ge by lia.
      * rewrite length_app, length_replicate. lia.
      * rewrite take_ge by lia. do 2 f_equal. lia.
  - eexists. split; [done|]. split; [|lia]. apply Hgoal.
    + rewrite slice_to_nonneg, length_take by done. lia.
    + rewrite slice_to_nonneg by done.
      replace (Z.to_nat m - length vector)%nat with 0%nat by lia.
      by rewrite app_nil_r.
  - eexists. split; [done|]. split.
    + rewrite Hgoal.
      * done.
      * lia.
      * replace (Z.to_nat m - length vector)%nat with 0%nat by lia.
        rewrite take_ge by lia. by rewrite app_nil_r.
    + intros _. unfold unsize_vector. repeat case_decide; try lia; done.
Qed.

(** X18, witness: three samples stored in vectors of length 5 and 2. *)
Lemma unsize_size_vector_witness :
  (exists stored,
     size_vector [Fin 1; Fin 2; Fin 3] 5 = Ok stored /\
     unsize_vector stored 3 = Ok [Fin 1; Fin 2; Fin 3]) /\
  (exists stored,
     size_vector [Fin 1; Fin 2; Fin 3] 2 = Ok stored /\
     unsize_vector stored 3 = Ok [Fin 1; Fin 2]).
Proof.
  split.
  - destruct (unsize_size_vector [Fin 1; Fin 2; Fin 3] 5) as (st & H1 & _ & H3);
      [lia|].
    exists st. split; [exact H1|]. apply H3. simpl. lia.
  - destruct (unsize_size_vector [Fin 1; Fin 2; Fin 3] 2) as (st & H1 & H2 & _);
      [lia|].
    exists st. split; [exact H1|]. exact H2.
Defined.

Lemma nonzero_from_head (i n : nat) (mask : list bool) :
  head (nonzero_from i mask) = Some n ->
  (i <= n)%nat /\ mask !! (n - i)%nat = Some true /\
  forall j, (j < n - i)%nat -> mask !! j = Some false.
Proof.
  revert i. induction mask as [|b mask IH]; intros i; simpl; [done|].
  destruct b; simpl.
  - intros [= <-]. rewrite Nat.sub_diag. split_and!; [lia|done|lia].
  - intros (Hle & Hn & Hj)%IH. split; [lia|].
    replace (n - i)%nat with (S (n - S i)) by lia. split; [done|].
    intros [|j] Hlt; [done|]. simpl. apply Hj. lia.
Qed.

(** X19.  A row number that [get_row_num] returns is a row of the table
    with the run id looked for: the row of that number when it holds the
    id, and otherwise the first row that does.  A table with no row at
    position [runid] raises [IndexError], also when another row holds the
    run id. *)
Theorem get_row_num_spec (runid : nat) (table : list nat) :
  (forall rownum, get_row_num runid table = Ok rownum ->
     table !! rownum = Some runid /\
     (rownum = runid \/
      forall j, (j < rownum)%nat -> table !! j ≠ Some runid)) /\
  ((length table <= runid)%nat -> get_row_num runid table = Raise IndexError) /\
  (table !! runid = Some runid -> get_row_num runid table = Ok runid).
Proof.
  unfold get_row_num. split_and!.
  - intros rownum. destruct (table !! runid) as [r|] eqn:Hr; [|done].
    cbn [of_option]. rewrite bind_Ok. case_decide as Hne.
    + unfold np_nonzero.
      destruct (head (nonzero_from 0 _)) as [n|] eqn:Hn; [|done].
      intros [= <-].
      apply nonzero_from_head in Hn as (_ & Hn & Hj).
      rewrite Nat.sub_0_r in Hn, Hj.
      rewrite list_lookup_fmap in Hn.
      destruct (table !! n) as [x|] eqn:Hx; [|done].
      injection Hn as Hx'%bool_decide_eq_true. subst x.
      split; [done|]. right. intros j Hlt Hjr.
      specialize (Hj j Hlt). rewrite list_lookup_fmap, Hjr in Hj.
      injection Hj as Hj%bool_decide_eq_false. done.
    + intros [= <-]. subst r. split; [done|by left].
  - intros Hlen. by rewrite (lookup_ge_None_2 table runid).
  - intros ->. cbn [of_option]. rewrite bind_Ok. by rewrite decide_False by (intros H; by apply H).
Qed.


(** ** The calibration lookup as the run date moves *)

(** What a successful lookup returns, read off the sorted pairs. *)
Lemma get_data_for_date_bounds (s : Sensor) (runDate : Z) row :
  get_data_for_date s runDate = Ok row ->
  (exists k, data s !! k = Some row) /\
  (forall k r, data s !! k = Some r -> (timeStamp r <= runDate)%Z ->
     (timeStamp r <= timeStamp row <= runDate)%Z) /\
  ((forall k r, data s !! k = Some r -> (runDate < timeStamp r)%Z) ->
   forall k r, data s !! k = Some r -> (timeStamp row <= timeStamp r)%Z).
Proof.
  unfold get_data_for_date.
  set (f := fun kv : string * CalibrationRow => (kv.1, timeStamp kv.2)).
  set (l := sort_reverse (f <$> map_to_list (data s))).
  assert (Hmem : forall q, q ∈ l <->
            exists k r, data s !! k = Some r /\ q = (k, timeStamp r)).
  { intros q. unfold l. rewrite sort_reverse_perm, list_elem_of_fmap. split.
    - intros ([k r] & -> & Hin%elem_of_map_to_list). by exists k, r.
    - intros (k & r & Hin & ->). exists (k, r).
      split; [done|by apply elem_of_map_to_list]. }
  destruct (decide (l = [])) as [Hnil|Hne]; [by rewrite Hnil|].
  destruct (enumerate_break_spec runDate l 0 None) as
    (i & p & He & Hi & Hex & Hall); [|done|].
  { unfold l. apply sort_reverse_sorted. }
  rewrite He. simpl. rewrite Hi. simpl.
  destruct (proj1 (Hmem p)) as (k & r & Hk & ->);
    [by eapply list_elem_of_lookup_2|].
  simpl. rewrite Hk. simpl. intros [= <-]. split_and!; [by exists k| |].
  - intros k' r' Hk' Hle.
    destruct Hex as [Hr Hmax].
    { exists (k', timeStamp r'). split; [apply Hmem; by exists k', r'|done]. }
    split; [|done].
    apply (Hmax (k', timeStamp r')); [apply Hmem; by exists k', r'|done].
  - intros Hgt k' r' Hk'.
    apply (Hall : _ -> forall q, _ -> (timeStamp r <= q.2)%Z)
      with (q := (k', timeStamp r')).
    + intros q (k2 & r2 & Hk2 & ->)%Hmem. by eapply Hgt.
    + apply Hmem. by exists k', r'.
Qed.

(** X20.  The calibration lookup is monotone in the run date: of two runs
    of the same sensor, the later one never gets an earlier calibration
    than the earlier one; and a lookup at the date of the record returned
    gives a record of that same date. *)
Theorem get_data_for_date_monotone (s : Sensor) (runDate1 runDate2 : Z)
    (row1 row2 : CalibrationRow) :
  (runDate1 <= runDate2)%Z ->
  get_data_for_date s runDate1 = Ok row1 ->
  get_data_for_date s runDate2 = Ok row2 ->
  (timeStamp row1 <= timeStamp row2)%Z /\
  exists row, get_data_for_date s (timeStamp row1) = Ok row /\
              timeStamp row = timeStamp row1.
Proof.
  intros Hle H1 H2.
  destruct (get_data_for_date_bounds _ _ _ H1) as ([k1 Hk1] & Hmax1 & Hmin1).
  destruct (get_data_for_date_bounds _ _ _ H2) as ([k2 Hk2] & Hmax2 & Hmin2).
  split.
  - destruct (decide (timeStamp row1 <= runDate1)%Z) as [Hc|Hc].
    + apply (Hmax2 k1 row1 Hk1). lia.
    + apply (Hmin1 : _ -> forall k r, _ -> _) with (k := k2); [|done].
      intros k r Hk.
      destruct (decide (timeStamp r <= runDate1)%Z) as [Hr|Hr]; [|lia].
      destruct (Hmax1 k r Hk Hr). lia.
  - destruct (get_data_for_date_total s (timeStamp row1)) as [row Hrow].
    { intros Hempty. by rewrite Hempty, lookup_empty in Hk1. }
    exists row. split; [done|].
    destruct (get_data_for_date_bounds _ _ _ Hrow) as (_ & Hmax & _).
    destruct (Hmax k1 row1 Hk1); lia.
Qed.

(** X20, witness: runs at 5 and at 21 with calibrations at 10, 20 and
    30. *)
Lemma get_data_for_date_monotone_witness :
  (timeStamp (calibration_at "00001" 10)
   <= timeStamp (calibration_at "00002" 20))%Z /\
  exists row,
    get_data_for_date three_calibrations
      (timeStamp (calibration_at "00001" 10)) = Ok row /\
    timeStamp row = timeStamp (calibration_at "00001" 10).
Proof.
  apply (get_data_for_date_monotone three_calibrations 5 21).
  - lia.
  - vm_compute; reflexivity.
  - vm_compute; reflexivity.
Defined.


(** ** A failed synchronisation check stops the processing *)

Section check_stops.
Context (spline_over_nan : list R -> list sample -> result (list sample)).
Context (butterworth : list sample -> R -> R -> list sample).
Context (sigpro_find_timeshift :
           list sample -> list sample -> R -> R -> result R).
Context (computed_quantities task_quantities : Run -> result Run).

(** X10.  For a maneuver other than the calibration and system-test ones,
    when the calibration and the time-shift search succeed but the check of
    the time shift against the threshold 0.15 raises, [process_raw_signals]
    raises the same error, whatever the later stages and the filter would
    do: nothing is truncated, computed or filtered after a failed check. *)
Theorem process_raw_signals_check_fails (r r1 r2 : Run) (e : exn) :
  Maneuver (metadata r)
    ∉ ["Steer Dynamics Test"; "System Test"; "Static Calibration"]%string ->
  calibrate_signals r = Ok r1 ->
  compute_time_shift sigpro_find_timeshift r1 = Ok r2 ->
  check_time_shift spline_over_nan r2 0.15 = Raise e ->
  process_raw_signals spline_over_nan butterworth sigpro_find_timeshift
    computed_quantities task_quantities r = Raise e.
Proof.
  intros Hman Hcal Hshift Hcheck. unfold process_raw_signals.
  rewrite Hcal, bind_Ok.
  destruct (calibrate_signals_fields _ _ Hcal) as (-> & _).
  rewrite !bool_decide_eq_true_2.
  - cbn [andb]. rewrite Hshift, bind_Ok, Hcheck. reflexivity.
  - intros E. apply Hman. rewrite E. right; right; left.
  - intros E. apply Hman. rewrite E. right; left.
  - intros E. apply Hman. rewrite E. left.
Qed.
End check_stops.

Lemma unsynced_run_calibrated :
  calibrate_signals unsynced_run
  = Ok (set_topSig (set_calibrated unsynced_run
          {[ Some "AccelerometerAccelerationY"%string := accel_ni;
             Some "AccelerationZ"%string := accel_vn ]}) "calibrated").
Proof. vm_compute. reflexivity. Qed.

Lemma unsynced_run_check :
  check_time_shift two_sample_spline
    (set_tau (set_topSig (set_calibrated unsynced_run
          {[ Some "AccelerometerAccelerationY"%string := accel_ni;
             Some "AccelerationZ"%string := accel_vn ]}) "calibrated") (1 / 2))
    0.15
  = Raise TimeShiftError.
Proof.
  destruct (truncate_data_results accel_ni accel_vn (1 / 2) 2)
    as (Hni & Hvn & _); try reflexivity; [simpl; lra..|].
  unfold check_time_shift.
  cbn [calibratedSignals set_tau set_topSig set_calibrated of_option].
  rewrite bind_Ok.
  rewrite (lookup_insert_eq _ (Some "AccelerometerAccelerationY"%string)).
  cbn [of_option]. rewrite bind_Ok.
  rewrite lookup_insert_ne by discriminate. rewrite lookup_singleton_eq.
  cbn [of_option tau set_tau]. rewrite !bind_Ok.
  unfold truncate. rewrite Hvn, Hni. rewrite !bind_Ok.
  rewrite !two_sample_spline_Ok, !bind_Ok.
  cbn [samples with_samples].
  unfold broadcast2. rewrite decide_True by done. rewrite bind_Ok.
  cbn [np_max np_min foldl zip_with]. rewrite !bind_Ok.
  cbn [fmap list_fmap]. unfold np_mean, sadd, ssub, smul, lift2.
  cbn [foldr length]. unfold sadd, lift2, sdiv.
  rewrite decide_False by (simpl; lra).
  unfold ssqrt. rewrite decide_False by (simpl; lra).
  unfold Rmax, Rmin. destruct (Rle_dec 1 3); [|lra].
  unfold quotient. rewrite decide_False by lra.
  cbn [exceeds]. rewrite bool_decide_eq_true_2; [done|].
  assert (H1 : 1 < sqrt (((1 + 1) * (1 + 1) + ((3 + 3) * (3 + 3) + 0))
                         / INR 2)).
  { rewrite <- sqrt_1 at 1. apply sqrt_lt_1_alt. simpl. lra. }
  lra.
Qed.

(** X10, witness: a run whose two accelerometer signals do not cancel; the
    later stages, which would fail with another error, are never
    reached. *)
Lemma process_raw_signals_check_fails_witness :
  process_raw_signals two_sample_spline spike_filter half_second_shift
    failing_stage failing_stage unsynced_run = Raise TimeShiftError.
Proof.
  eapply (process_raw_signals_check_fails two_sample_spline spike_filter
            half_second_shift failing_stage failing_stage unsynced_run).
  - simpl. rewrite !elem_of_cons, elem_of_nil.
    intros [?|[?|[?|[]]]]; discriminate.
  - apply unsynced_run_calibrated.
  - reflexivity.
  - apply unsynced_run_check.
Defined.


(** ** Derived quantities and shared signal objects *)

Lemma update_eq (h : loc -> Signal) l s : update h l s l = s.
Proof. unfold update. by rewrite decide_True. Qed.

Lemma update_ne (h : loc -> Signal) l l' s : l' ≠ l -> update h l s l' = h l'.
Proof. intros. unfold update. by rewrite decide_False. Qed.

(** Nothing converts to or from metres per second squared. *)
Lemma no_acceleration_conversion (su : string) :
  conversions !! conversion_key su "meter/second/second" = None /\
  conversions !! conversion_key "meter/second/second" su = None.
Proof.
  split.
  - destruct (conversions !! _) as [c|] eqn:Hc; [|done].
    apply conversions_registered in Hc.
    repeat (apply elem_of_cons in Hc as [Hc|Hc]; [discriminate|]).
    by apply elem_of_nil in Hc.
  - destruct (conversions !! _) as [c|] eqn:Hc; [|done].
    apply conversions_registered in Hc.
    repeat (apply elem_of_cons in Hc as [Hc|Hc]; [discriminate|]).
    by apply elem_of_nil in Hc.
Qed.

(** A signal that has the units already is renamed in place. *)
Lemma convert_rename_store_same (r : ObjRun) (l : loc) (n u : string) cs :
  units (objects r l) = Some u ->
  computedObjs r = Some cs ->
  convert_rename_store r l n u
  = Ok {| objects := objects (set_name_units r l n u);
          next_loc := next_loc r;
          truncatedObjs := truncatedObjs r;
          computedObjs := Some (<[n := l]> cs) |}.
Proof.
  intros Hu Hcs. unfold convert_rename_store, convert_units_obj.
  rewrite decide_True by done. rewrite bind_Ok.
  unfold store_computed. cbn [computedObjs set_name_units].
  by rewrite Hcs.
Qed.

(** A signal in other units cannot become an acceleration. *)
Lemma convert_rename_store_acceleration (r : ObjRun) (l : loc) (n su : string) :
  units (objects r l) = Some su ->
  su ≠ "meter/second/second"%string ->
  convert_rename_store r l n "meter/second/second" = Raise KeyError.
Proof.
  intros Hu Hne. unfold convert_rename_store, convert_units_obj.
  rewrite decide_False by (rewrite Hu; congruence).
  unfold convert_units. rewrite decide_False by (rewrite Hu; congruence).
  rewrite Hu. unfold convert_samples.
  destruct (no_acceleration_conversion su) as [-> ->]. reflexivity.
Qed.

(** X21.  [compute_frame_acceleration] takes the three truncated VN
    accelerations as they are when all are in metres per second squared:
    the objects held by [truncatedSignals] are the ones stored in
    [computedSignals], no object is made, and the truncated signals
    themselves now carry the names [FrameAccelerationX], [...Y] and
    [...Z], so that an entry of [truncatedSignals] is no longer named as
    its key.  With any other units it raises [KeyError], since no
    conversion to that unit is registered. *)
Theorem compute_frame_acceleration_shares (r : ObjRun)
    (tr cs : gmap string loc) (lx ly lz : loc) (ux uy uz : string) :
  truncatedObjs r = Some tr ->
  computedObjs r = Some cs ->
  tr !! "AccelerationX"%string = Some lx ->
  tr !! "AccelerationY"%string = Some ly ->
  tr !! "AccelerationZ"%string = Some lz ->
  lx ≠ ly -> lx ≠ lz -> ly ≠ lz ->
  units (objects r lx) = Some ux ->
  units (objects r ly) = Some uy ->
  units (objects r lz) = Some uz ->
  let mss := "meter/second/second"%string in
  (ux = mss /\ uy = mss /\ uz = mss ->
   exists r',
     compute_frame_acceleration r = Ok r' /\
     truncatedObjs r' = Some tr /\
     computedObjs r'
       = Some (<["FrameAccelerationZ"%string := lz]>
                 (<["FrameAccelerationY"%string := ly]>
                    (<["FrameAccelerationX"%string := lx]> cs))) /\
     next_loc r' = next_loc r /\
     name (objects r' lx) = Some "FrameAccelerationX"%string /\
     name (objects r' ly) = Some "FrameAccelerationY"%string /\
     name (objects r' lz) = Some "FrameAccelerationZ"%string /\
     (forall l, samples (objects r' l) = samples (objects r l))) /\
  (~ (ux = mss /\ uy = mss /\ uz = mss) ->
   compute_frame_acceleration r = Raise KeyError).
Proof.
  intros Htr Hcs Hx Hy Hz Hxy Hxz Hyz Hux Huy Huz mss.
  unfold compute_frame_acceleration. rewrite Htr, Hx, Hy, Hz.
  cbn [of_option]. rewrite !bind_Ok.
  destruct (decide (ux = mss)) as [->|Hnx].
  2:{ split; [by intros [? _]|]. intros _.
      by rewrite (convert_rename_store_acceleration _ _ _ _ Hux Hnx). }
  rewrite (convert_rename_store_same _ _ _ _ _ Hux Hcs), bind_Ok.
  set (r1 := {| objects := _ |}).
  assert (Huy1 : units (objects r1 ly) = Some uy).
  { unfold r1. cbn [objects set_name_units]. by rewrite update_ne. }
  assert (Huz1 : units (objects r1 lz) = Some uz).
  { unfold r1. cbn [objects set_name_units]. by rewrite update_ne. }
  destruct (decide (uy = mss)) as [->|Hny].
  2:{ split; [by intros (_ & ? & _)|]. intros _.
      by rewrite (convert_rename_store_acceleration _ _ _ _ Huy1 Hny). }
  rewrite (convert_rename_store_same r1 _ _ _ _ Huy1 eq_refl), bind_Ok.
  set (r2 := {| objects := _ |}).
  assert (Huz2 : units (objects r2 lz) = Some uz).
  { unfold r2. cbn [objects set_name_units]. by rewrite update_ne. }
  destruct (decide (uz = mss)) as [->|Hnz].
  2:{ split; [by intros (_ & _ & ?)|]. intros _.
      by rewrite (convert_rename_store_acceleration _ _ _ _ Huz2 Hnz). }
  rewrite (convert_rename_store_same r2 _ _ _ _ Huz2 eq_refl).
  split; [|by intros []]. intros _. eexists. split; [reflexivity|].
  cbn [truncatedObjs computedObjs next_loc objects set_name_units r1 r2].
  split_and!; try done.
  - rewrite update_ne by done. rewrite update_ne by done.
    by rewrite update_eq.
  - rewrite update_ne by done. by rewrite update_eq.
  - by rewrite update_eq.
  - intros l. unfold update. repeat case_decide; by subst.
Qed.

(** X21, witness: the run after truncation, whose accelerations are in
    metres per second squared. *)
Lemma compute_frame_acceleration_shares_witness :
  exists r',
    compute_frame_acceleration truncated_objects = Ok r' /\
    truncatedObjs r' = truncatedObjs truncated_objects /\
    computedObjs r'
      = Some (<["FrameAccelerationZ"%string := 2%nat]>
                (<["FrameAccelerationY"%string := 1%nat]>
                   (<["FrameAccelerationX"%string := 0%nat]> ∅))) /\
    name (objects r' 0%nat) = Some "FrameAccelerationX"%string.
Proof.
  destruct (compute_frame_acceleration_shares truncated_objects _ ∅
              0%nat 1%nat 2%nat
              "meter/second/second" "meter/second/second"
              "meter/second/second" eq_refl eq_refl eq_refl eq_refl eq_refl)
    as [Hok _]; try done.
  destruct Hok as (r' & H1 & H2 & H3 & _ & H5 & _); [done|].
  exists r'. split_and!; done.
Defined.

(** X22.  [compute_pull_force] does nothing on a run without truncated
    signals, but raises [KeyError] when they exist without a pull force.
    A pull force in pounds is converted into a new object, in newtons and
    named [PullForce], stored in [computedSignals]; the truncated signal
    and every other object are left as they were. *)
Theorem compute_pull_force_spec (r : ObjRun) :
  (truncatedObjs r = None -> compute_pull_force r = Ok r) /\
  (forall tr, truncatedObjs r = Some tr -> tr !! "PullForce"%string = None ->
     compute_pull_force r = Raise KeyError) /\
  (forall tr cs l,
     truncatedObjs r = Some tr -> computedObjs r = Some cs ->
     tr !! "PullForce"%string = Some l ->
     units (objects r l) = Some "pound"%string ->
     exists r',
       compute_pull_force r = Ok r' /\
       truncatedObjs r' = Some tr /\
       computedObjs r' = Some (<["PullForce"%string := next_loc r]> cs) /\
       (forall l', l' ≠ next_loc r -> objects r' l' = objects r l') /\
       samples (objects r' (next_loc r))
         = (fun x => x * Fin 4.44822162)%S <$> samples (objects r l) /\
       units (objects r' (next_loc r)) = Some "newton"%string /\
       name (objects r' (next_loc r)) = Some "PullForce"%string).
Proof.
  unfold compute_pull_force. split_and!.
  - by intros ->.
  - by intros tr -> ->.
  - intros tr cs l Htr Hcs Hl Hu. rewrite Htr, Hl.
    cbn [of_option]. rewrite bind_Ok.
    unfold convert_rename_store, convert_units_obj.
    rewrite decide_False by (rewrite Hu; discriminate).
    rewrite (convert_units_multiplies _ "pound" "newton" 4.44822162);
      [|done|discriminate|reflexivity].
    eexists. split.
    { rewrite !bind_Ok. unfold new_object, store_computed.
      cbn [computedObjs set_name_units].
      rewrite Hcs. cbn [of_option]. rewrite bind_Ok. reflexivity. }
    cbn [truncatedObjs computedObjs objects next_loc set_name_units].
    split_and!; try done.
    + intros l' Hl'. by rewrite !update_ne.
    + by rewrite !update_eq.
    + by rewrite update_eq.
    + by rewrite update_eq.
Qed.


(** ** Loading a run: cached task signals *)

Section run_init.
Context (process_raw_signals : Run -> result Run).

(** X23.  When the run has a group of task signals in the database and its
    row of the task table is found, [Run.__init__] uses that group exactly
    when the stored filter frequency matches the requested one: both are
    unset, or both are set and less than [1e-10] apart.  On a match the
    task signals are the stored ones and nothing is written back; with
    [forceRecalc] the raw signals are processed all the same, and the
    result is still marked as coming from the database and is not stored,
    even with [store].  Without a match the run is loaded as if it had no
    group in the database. *)
Theorem Run_init_cache (taskTable : list (nat * sample)) (runid : nat)
    (nodes : gmap (option string) Signal) (forceRecalc store : bool)
    (self : Run) (taskRowNum : nat) (row : nat * sample) :
  get_row_num runid (fst <$> taskTable) = Ok taskRowNum ->
  taskTable !! taskRowNum = Some row ->
  let matching :=
    match filterFreq self, row.2 with
    | None, NaN => True
    | Some f, Fin s => Rabs (s - f) < 1e-10
    | _, _ => False
    end in
  (matching ->
   Run_init process_raw_signals taskTable runid (Some nodes)
     forceRecalc store self
   = if forceRecalc
     then self' ← process_raw_signals (clear_task self);
          Ok (self', true, None)
     else Ok (set_task self nodes, true, None)) /\
  (~ matching ->
   Run_init process_raw_signals taskTable runid (Some nodes)
     forceRecalc store self
   = Run_init process_raw_signals taskTable runid None
       forceRecalc store self).
Proof.
  intros Hrow Hlook matching. unfold Run_init.
  rewrite Hrow, bind_Ok, Hlook. cbn [of_option]. rewrite bind_Ok.
  cbn [filterFreq set_task]. subst matching.
  destruct (filterFreq self) as [f|], (row.2) as [|s]; cbn [isnan andb orb].
  - split; [done|]. intros _. by rewrite !bind_Ok.
  - unfold sgtb, ssub, lift2, lift1. split.
    + intros Hm. rewrite bool_decide_eq_true_2 by lra. rewrite bind_Ok.
      destruct forceRecalc.
      * destruct (process_raw_signals _) as [self'|]; [|done].
        rewrite !bind_Ok. rewrite andb_false_r. cbn [fmap result_fmap].
        rewrite bind_Ok. by rewrite decide_False.
      * rewrite bind_Ok, andb_false_r. rewrite bind_Ok.
        by rewrite decide_False.
    + intros Hm. rewrite bool_decide_eq_false_2 by lra. by rewrite !bind_Ok.
  - split; [|done]. intros _. rewrite bind_Ok.
    destruct forceRecalc.
    + destruct (process_raw_signals _) as [self'|]; [|done].
      rewrite !bind_Ok. rewrite andb_false_r. rewrite bind_Ok.
      by rewrite decide_False.
    + rewrite bind_Ok, andb_false_r. rewrite bind_Ok.
      by rewrite decide_False.
  - split; [done|]. intros _. by rewrite !bind_Ok.
Qed.
End run_init.

(** X23, witness: a run without filter frequency whose task signals were
    stored unfiltered is loaded without being processed. *)
Lemma Run_init_cache_witness :
  Run_init failing_stage [(0%nat, NaN)] 0 (Some ∅) false true system_test_run
  = Ok (set_task system_test_run ∅, true, None).
Proof.
  refine (proj1 (Run_init_cache failing_stage [(0%nat, NaN)] 0 ∅ false true
                   system_test_run 0 (0%nat, NaN) _ _) _);
    reflexivity || exact I.
Defined.


(** ** Rates and torques from the measured signals *)

Lemma broadcast2_same_length (f : sample -> sample -> sample)
    (a b : list sample) :
  length a = length b -> broadcast2 f a b = Ok (zip_with f a b).
Proof. intros H. unfold broadcast2. by rewrite decide_True. Qed.

Lemma np_sign_neg (x : sample) : np_sign (- x)%S = (- np_sign x)%S.
Proof.
  destruct x as [|x]; [done|]. unfold np_sign, sneg, lift1. f_equal.
  repeat case_decide; lra.
Qed.

(** The torque of one sample, and its symmetry. *)
Lemma steer_torque_sample_odd (r a t : sample) (I c f : R) :
  ((Fin I * - a - Fin c * - r - np_sign (- r) * Fin f + - t)
   = - (Fin I * a - Fin c * r - np_sign r * Fin f + t))%S.
Proof.
  rewrite np_sign_neg. destruct r as [|r], a as [|a], t as [|t]; try done.
  unfold np_sign, sadd, ssub, smul, sneg, lift1, lift2. f_equal. lra.
Qed.

Lemma steer_torque_zip (rate accel tube : list sample) (I c f : R) :
  length accel = length rate -> length tube = length rate ->
  steer_torque rate accel tube I c f
  = Ok (zip_with sadd
          (zip_with ssub
             (zip_with ssub ((fun x => Fin I * x)%S <$> accel)
                            ((fun x => Fin c * x)%S <$> rate))
             ((fun x => np_sign x * Fin f)%S <$> rate))
          tube).
Proof.
  intros Ha Ht. unfold steer_torque.
  rewrite broadcast2_same_length by (by rewrite !length_fmap).
  rewrite bind_Ok.
  rewrite broadcast2_same_length
    by (rewrite length_zip_with, !length_fmap; lia).
  rewrite bind_Ok.
  rewrite broadcast2_same_length
    by (rewrite !length_zip_with, !length_fmap; lia).
  done.
Qed.

(** X24.  [steer_torque] is odd: on signals of one length, reversing the
    signs of the steer rate, the steer acceleration and the steer-tube
    torque reverses the sign of the rider's torque, sample by sample, NaN
    staying NaN; the result is as long as the signals. *)
Theorem steer_torque_odd (steerRate steerAccel steerTubeTorque : list sample)
    (handlebarInertia damping friction : R) :
  length steerAccel = length steerRate ->
  length steerTubeTorque = length steerRate ->
  exists steerTorque,
    steer_torque steerRate steerAccel steerTubeTorque
      handlebarInertia damping friction = Ok steerTorque /\
    length steerTorque = length steerRate /\
    steer_torque (sneg <$> steerRate) (sneg <$> steerAccel)
      (sneg <$> steerTubeTorque) handlebarInertia damping friction
    = Ok (sneg <$> steerTorque).
Proof.
  intros Ha Ht. eexists. split; [by apply steer_torque_zip|]. split.
  { rewrite !length_zip_with, !length_fmap. lia. }
  rewrite steer_torque_zip by (by rewrite !length_fmap).
  f_equal. revert steerAccel steerTubeTorque Ha Ht.
  induction steerRate as [|r rate IH]; intros [|a accel] [|t tube] Ha Ht;
    try done.
  csimpl. f_equal; [apply steer_torque_sample_odd|].
  apply IH; simpl in *; lia.
Qed.

(** X24, witness: two samples, one of them NaN. *)
Lemma steer_torque_odd_witness :
  exists steerTorque,
    steer_torque [Fin 1; NaN] [Fin 2; Fin 0] [Fin 3; Fin 1] 1 2 3
      = Ok steerTorque /\
    length steerTorque = 2%nat /\
    steer_torque (sneg <$> [Fin 1; NaN]) (sneg <$> [Fin 2; Fin 0])
      (sneg <$> [Fin 3; Fin 1]) 1 2 3
    = Ok (sneg <$> steerTorque).
Proof.
  apply (steer_torque_odd [Fin 1; NaN] [Fin 2; Fin 0] [Fin 3; Fin 1] 1 2 3);
    reflexivity.
Defined.


(** X25.  [yaw_roll_pitch_rate] on body-fixed rates of one length, with a
    steer axis tilt [lam] and a roll angle [phi] whose cosine is not zero
    (zero by default): it returns three arrays of that length, and for
    samples [x], [y], [z] that are not NaN the yaw rate [psi] satisfies
    [psi * cos phi = z * cos lam - x * sin lam], the roll rate is
    [x * cos lam + z * sin lam], the pitch rate is [y - psi * sin phi], and
    the roll rate and [psi * cos phi] are the rates [x] and [z] turned by
    [lam]: the sum of their squares is [x^2 + z^2]. *)
Theorem yaw_roll_pitch_rate_spec
    (angularRateX angularRateY angularRateZ : list sample) (lam phi : R) :
  length angularRateY = length angularRateX ->
  length angularRateZ = length angularRateX ->
  cos phi <> 0 ->
  exists yawRate rollRate pitchRate,
    yaw_roll_pitch_rate angularRateX angularRateY angularRateZ lam
      (SupplyScalar (Fin phi)) = Ok (yawRate, rollRate, pitchRate) /\
    length yawRate = length angularRateX /\
    length rollRate = length angularRateX /\
    length pitchRate = length angularRateX /\
    forall i x y z,
      angularRateX !! i = Some (Fin x) ->
      angularRateY !! i = Some (Fin y) ->
      angularRateZ !! i = Some (Fin z) ->
      exists psi rho theta,
        yawRate !! i = Some (Fin psi) /\
        rollRate !! i = Some (Fin rho) /\
        pitchRate !! i = Some (Fin theta) /\
        psi * cos phi = z * cos lam - x * sin lam /\
        rho = x * cos lam + z * sin lam /\
        theta = y - psi * sin phi /\
        rho * rho + (psi * cos phi) * (psi * cos phi) = x * x + z * z.
Proof.
  intros HY HZ Hcos.
  set (xs := (fun x => x * Fin (sin lam))%S <$> angularRateX).
  set (zc := (fun z => z * Fin (cos lam))%S <$> angularRateZ).
  set (xc := (fun x => x * Fin (cos lam))%S <$> angularRateX).
  set (zs := (fun z => z * Fin (sin lam))%S <$> angularRateZ).
  set (t := stan (Fin phi)).
  assert (Hres :
    yaw_roll_pitch_rate angularRateX angularRateY angularRateZ lam
      (SupplyScalar (Fin phi))
    = Ok ((fun v => v / Fin (cos phi))%S <$> (sneg <$> zip_with ssub xs zc),
          zip_with sadd xc zs,
          zip_with ssub
            (zip_with sadd angularRateY ((fun v => v * t)%S <$> xs))
            ((fun v => v * t)%S <$> zc))).
  { unfold yaw_roll_pitch_rate. fold xs zc xc zs.
    rewrite (broadcast2_same_length ssub xs zc)
      by (unfold xs, zc; rewrite !length_fmap; lia).
    rewrite bind_Ok. cbn [array_op supply_map lift1]. rewrite bind_Ok.
    rewrite (broadcast2_same_length sadd xc zs)
      by (unfold xc, zs; rewrite !length_fmap; lia).
    rewrite !bind_Ok. fold t.
    rewrite (broadcast2_same_length sadd angularRateY)
      by (unfold xs; rewrite !length_fmap; lia).
    rewrite !bind_Ok.
    rewrite (broadcast2_same_length ssub)
      by (unfold xs, zc; rewrite length_zip_with, !length_fmap; lia).
    by rewrite bind_Ok. }
  eexists _, _, _. split; [exact Hres|]. unfold xs, zc, xc, zs, t.
  split_and!.
  - rewrite !length_fmap, length_zip_with, !length_fmap. lia.
  - rewrite length_zip_with, !length_fmap. lia.
  - rewrite !length_zip_with, !length_fmap. lia.
  - intros i x y z Hx Hy Hz.
    exists (- (x * sin lam - z * cos lam) / cos phi),
           (x * cos lam + z * sin lam),
           (y + x * sin lam * (sin phi / cos phi)
            - z * cos lam * (sin phi / cos phi)).
    split_and!.
    + rewrite !list_lookup_fmap, lookup_zip_with, !list_lookup_fmap, Hx, Hz.
      cbn. unfold sdiv. rewrite decide_False by done. done.
    + rewrite lookup_zip_with, !list_lookup_fmap, Hx, Hz. done.
    + rewrite !lookup_zip_with, !list_lookup_fmap, Hx, Hy, Hz.
      cbn. unfold stan, sdiv. cbn. rewrite decide_False by done. done.
    + field. done.
    + done.
    + field. done.
    + pose proof (sin2_cos2 lam) as H. unfold Rsqr in H.
      replace (- (x * sin lam - z * cos lam) / cos phi * cos phi)
        with (z * cos lam - x * sin lam) by (field; done).
      nra.
Qed.

(** X25, witness: two samples and the default roll angle, zero. *)
Lemma yaw_roll_pitch_rate_spec_witness :
  exists yawRate rollRate pitchRate,
    yaw_roll_pitch_rate [Fin 1; NaN] [Fin 2; Fin 0] [Fin 3; Fin 1] (PI / 10)
      (SupplyScalar (Fin 0)) = Ok (yawRate, rollRate, pitchRate) /\
    length yawRate = 2%nat /\ length rollRate = 2%nat /\
    length pitchRate = 2%nat.
Proof.
  destruct (yaw_roll_pitch_rate_spec [Fin 1; NaN] [Fin 2; Fin 0]
              [Fin 3; Fin 1] (PI / 10) 0 eq_refl eq_refl)
    as (yr & rr & pr & H & H1 & H2 & H3 & _).
  { rewrite cos_0. lra. }
  exists yr, rr, pr. split_and!; done.
Defined.


(** ** The text output of the VN-100 *)

Section vnav_properties.
Context (parse_vnav_string : string -> list string * bool * option bool).
Context (float : string -> result sample).

(** Every pass through the loop adds one or two rows of the right
    length. *)
Lemma append_sample_rows (ncols : nat) vnData ivn vnData' :
  append_sample parse_vnav_string float ncols vnData ivn = Ok vnData' ->
  Forall (fun row => length row = ncols) vnData ->
  Forall (fun row => length row = ncols) vnData' /\
  (length vnData < length vnData')%nat.
Proof.
  unfold append_sample. destruct (parse_vnav_string ivn.2) as [[vnList c] v].
  destruct (c && bool_decide _) eqn:Hgood.
  - apply andb_true_iff in Hgood as [_ Hlen%bool_decide_eq_true].
    destruct (mapM float _) as [row|] eqn:Hrow; [|done]. rewrite bind_Ok.
    intros [= <-] Hall. rewrite length_app. split; [|simpl; lia].
    apply Forall_app. split; [done|]. apply Forall_singleton.
    by rewrite (mapM_result_length _ _ _ Hrow).
  - clear Hgood.
    destruct (decide (ivn.1 = 0%nat)); intros [= <-] Hall; rewrite length_app;
      (split; [|simpl; lia]); apply Forall_app; (split; [done|]);
      repeat constructor; by rewrite length_replicate.
Qed.

Lemma for_each_append_sample (ncols : nat) (l : list (nat * string)) :
  forall vnData vnData',
    for_each (append_sample parse_vnav_string float ncols) vnData l
      = Ok vnData' ->
    Forall (fun row => length row = ncols) vnData ->
    Forall (fun row => length row = ncols) vnData' /\
    (length vnData + length l <= length vnData')%nat.
Proof.
  induction l as [|ivn l IH]; intros vnData vnData'; cbn [for_each].
  - intros [= <-] Hall. split; [done|simpl; lia].
  - destruct (append_sample _ _ _ _ _) as [d|] eqn:Hd; [|done].
    rewrite bind_Ok. intros Hloop Hall.
    destruct (append_sample_rows _ _ _ _ Hd Hall) as [Hall1 Hlt].
    destruct (IH _ _ Hloop Hall1) as [Hall2 Hle]. split; [done|].
    simpl. lia.
Qed.

(** X26.  Whatever the strings are, corrupt or not, the array that
    [replace_corrupt_strings_with_nan] returns for a VN-100 output that is
    not empty has one row for each column name and one entry in each row
    for each output string: the NaN samples put in for corrupt strings,
    two for each one but the first, never make it longer. *)
Theorem replace_corrupt_strings_with_nan_shape
    (vnOutput vnCols : list string) (vnData : list (list sample)) :
  vnOutput ≠ [] ->
  replace_corrupt_strings_with_nan parse_vnav_string float vnOutput vnCols
    = Ok vnData ->
  length vnData = length vnCols /\
  Forall (fun signal => length signal = length vnOutput) vnData.
Proof.
  intros Hne. unfold replace_corrupt_strings_with_nan.
  destruct (for_each _ _ _) as [rows|] eqn:Hrows; [|done]. rewrite bind_Ok.
  intros [= <-].
  destruct (for_each_append_sample _ _ _ _ Hrows) as [Hall Hle];
    [constructor|].
  rewrite length_zip, length_seq, Nat.min_id in Hle. simpl in Hle.
  assert (Hlen : length (take (length vnOutput) rows) = length vnOutput).
  { rewrite length_take. lia. }
  assert (Hall' : Forall (fun row => length row = length vnCols)
                         (take (length vnOutput) rows)).
  { by apply Forall_take. }
  destruct (take (length vnOutput) rows) as [|row0 rest] eqn:Ht.
  { destruct vnOutput; [done|discriminate]. }
  unfold np_transpose. rewrite length_fmap, length_seq.
  apply Forall_cons in Hall' as Hall''. destruct Hall'' as [Hrow0 _].
  split; [done|]. apply Forall_fmap, Forall_forall. intros j _.
  simpl. by rewrite length_fmap, <- Hlen.
Qed.
End vnav_properties.

(** X26, witness: a corrupt string between two good ones; the second good
    sample is lost to the second NaN. *)
Lemma replace_corrupt_strings_with_nan_shape_witness :
  replace_corrupt_strings_with_nan parse_ok float_one
    ["ok"; "bad"; "ok"]%string ["MagX"]%string
    = Ok [[Fin 1; NaN; NaN]] /\
  length [[Fin 1; NaN; NaN]] = length ["MagX"%string] /\
  Forall (fun signal : list sample =>
            length signal = length ["ok"; "bad"; "ok"]%string)
         [[Fin 1; NaN; NaN]].
Proof.
  split; [reflexivity|].
  apply (replace_corrupt_strings_with_nan_shape parse_ok float_one
           ["ok"; "bad"; "ok"]%string ["MagX"]%string);
    [discriminate|reflexivity].
Defined.
